(** * api-check: batch orchestration and protocol adaptation

    A shallow embedding of the credential checker: the JavaScript values the
    program handles, the upstream validator ([checkers.js]), the worker pool
    of one batch session ([websocket_handler.js]) and the client-side
    orchestrator (the [checker] store), followed by the properties proved
    about them. *)

From Stdlib Require Import ZArith QArith Ascii String.
From stdpp Require Import base option list strings pretty gmap.

Set Warnings "-register-all,-abstract-large-number".
Local Open Scope string_scope.
Local Open Scope list_scope.

(** ** JavaScript values *)

Module JS.

(** A JavaScript number: an IEEE double is NaN, an infinity, or a rational.
    Comparisons on doubles agree with the comparisons of their values. *)
Inductive number :=
| NaN
| PosInf
| NegInf
| Fin (q : Q).

Definition num_of_Z (z : Z) : number := Fin (inject_Z z).

Definition num_isNaN (n : number) : bool :=
  match n with NaN => true | _ => false end.

Definition num_is_zero (n : number) : bool :=
  match n with Fin q => Qeq_bool q 0 | _ => false end.

(** [a === b] on numbers. *)
Definition num_eqb (a b : number) : bool :=
  match a, b with
  | Fin x, Fin y => Qeq_bool x y
  | PosInf, PosInf | NegInf, NegInf => true
  | _, _ => false
  end.

(** [a < b] on numbers; false as soon as one side is NaN. *)
Definition num_ltb (a b : number) : bool :=
  match a, b with
  | NaN, _ | _, NaN => false
  | Fin x, Fin y => if Qlt_le_dec x y then true else false
  | NegInf, NegInf => false
  | NegInf, _ => true
  | _, NegInf => false
  | PosInf, _ => false
  | Fin _, PosInf => true
  end.

(** [a >= b] on numbers; false as soon as one side is NaN. *)
Definition num_geb (a b : number) : bool :=
  negb (num_isNaN a || num_isNaN b) && negb (num_ltb a b).

(** The values that travel through the program: what [JSON.parse] yields,
    plus [undefined] for absent properties. Objects keep their members in
    insertion order. *)
Inductive value :=
| VUndefined
| VNull
| VBool (b : bool)
| VNum (n : number)
| VStr (s : string)
| VArr (elems : list value)
| VObj (fields : list (string * value)).

Definition object := list (string * value).

(** Exceptions carry their [message]. *)
Inductive result (A : Type) :=
| Ok (a : A)
| Throw (message : string).
Arguments Ok {A} a.
Arguments Throw {A} message.

Definition vnum (z : Z) : value := VNum (num_of_Z z).

(** ToBoolean. *)
Definition truthy (v : value) : bool :=
  match v with
  | VUndefined | VNull => false
  | VBool b => b
  | VNum n => negb (num_isNaN n || num_is_zero n)
  | VStr s => negb (String.eqb s "")
  | VArr _ | VObj _ => true
  end.

(** [a || b] *)
Definition js_or (a b : value) : value := if truthy a then a else b.

Definition nullish (v : value) : bool :=
  match v with VUndefined | VNull => true | _ => false end.

(** Own-property lookup in an object's member list. *)
Fixpoint lookup_field (k : string) (fs : object) : value :=
  match fs with
  | [] => VUndefined
  | (k', v) :: fs' => if String.eqb k k' then v else lookup_field k fs'
  end.

(** [v?.k] for a member name [k] that no prototype defines (every name the
    program reads is one): own members of an object, [undefined] elsewhere. *)
Definition opt_get (v : value) (k : string) : value :=
  match v with
  | VObj fs => lookup_field k fs
  | _ => VUndefined
  end.

(** [v.k]: as [opt_get], but reading a member of [null] or [undefined]
    throws a TypeError. *)
Definition get (v : value) (k : string) : result value :=
  if nullish v then Throw ("Cannot read properties of " +:+
                           (if v is VNull then "null" else "undefined"))
  else Ok (opt_get v k).

(** [v?.[0]] *)
Definition opt_first (v : value) : value :=
  match v with
  | VArr (x :: _) => x
  | VObj fs => lookup_field "0" fs
  | VStr (String c _) => VStr (String c "")
  | _ => VUndefined
  end.

(** [o.k = v]: overwrite in place, or append a new member. *)
Fixpoint set_field (k : string) (v : value) (fs : object) : object :=
  match fs with
  | [] => [(k, v)]
  | (k', v') :: fs' =>
      if String.eqb k k' then (k', v) :: fs' else (k', v') :: set_field k v fs'
  end.

(** [delete o.k] *)
Fixpoint delete_field (k : string) (fs : object) : object :=
  match fs with
  | [] => []
  | (k', v') :: fs' =>
      if String.eqb k k' then delete_field k fs' else (k', v') :: delete_field k fs'
  end.

(** [Object.assign(target, source)] *)
Definition Object_assign (target source : object) : object :=
  fold_left (fun acc kv => set_field kv.1 kv.2 acc) source target.

Definition has_field (k : string) (fs : object) : bool :=
  existsb (fun kv => String.eqb k kv.1) fs.

(** [typeof v === 'object'] *)
Definition typeof_object (v : value) : bool :=
  match v with VNull | VArr _ | VObj _ => true | _ => false end.

(** [v === "lit"] *)
Definition is_str (v : value) (lit : string) : bool :=
  match v with VStr s => String.eqb s lit | _ => false end.

(** What the host provides and the program only calls: number formatting and
    parsing, JSON text, case folding, double arithmetic, and the date of a
    time value in the user's locale
    ([new Date(ms).toLocaleDateString()]). *)
Class Host := {
  Number_toString : number -> string;
  StringToNumber : string -> number;
  parseFloat : string -> number;
  Number_toFixed : number -> nat -> string;
  Number_sub : number -> number -> number;
  Number_div : number -> number -> number;
  Number_mul : number -> number -> number;
  JSON_stringify : value -> string;
  toLowerCase : string -> string;
  Date_toLocaleDateString : number -> string;
}.

(** Sequencing of computations that may throw. *)
Definition and_then {A B} (r : result A) (k : A -> result B) : result B :=
  match r with
  | Ok a => k a
  | Throw e => Throw e
  end.

Declare Scope js_scope.
Delimit Scope js_scope with js.
Notation "'let?' x := r 'in' k" := (and_then r (fun x => k))
  (at level 10, x pattern, k at level 200) : js_scope.
Local Open Scope js_scope.

Section Conversions.
Context `{Host}.

(** [String(v)]. An object converts through its [toString] method; an own
    member of that name, which is never a function in a parsed value, hides
    the method, and the conversion throws a TypeError. An array joins the
    conversions of its elements. *)
Fixpoint String_ (v : value) : result string :=
  match v with
  | VUndefined => Ok "undefined"
  | VNull => Ok "null"
  | VBool true => Ok "true"
  | VBool false => Ok "false"
  | VNum n => Ok (Number_toString n)
  | VStr s => Ok s
  | VArr elems =>
      (fix join (l : list value) : result string :=
         match l with
         | [] => Ok ""
         | x :: l' =>
             let? s := (if nullish x then Ok "" else String_ x) in
             match l' with
             | [] => Ok s
             | _ => let? rest := join l' in Ok (s +:+ "," +:+ rest)
             end
         end) elems
  | VObj fields =>
      if has_field "toString" fields
      then Throw "Cannot convert object to primitive value"
      else Ok "[object Object]"
  end.

(** ToNumber *)
Definition ToNumber (v : value) : result number :=
  match v with
  | VUndefined => Ok NaN
  | VNull => Ok (num_of_Z 0)
  | VBool b => Ok (num_of_Z (if b then 1 else 0))
  | VNum n => Ok n
  | VStr s => Ok (StringToNumber s)
  | VArr _ | VObj _ => let? s := String_ v in Ok (StringToNumber s)
  end.

(** The global [isNaN(v)]. *)
Definition isNaN (v : value) : result bool :=
  let? n := ToNumber v in Ok (num_isNaN n).

(** [v === 0] *)
Definition is_zero (v : value) : bool :=
  match v with VNum n => num_is_zero n | _ => false end.

(** [v < t] for a number [t] on the right. *)
Definition lt_number (v : value) (t : number) : result bool :=
  let? n := ToNumber v in Ok (num_ltb n t).

(** [v >= t] and [v > t] for a number [t] on the right. *)
Definition ge_number (v : value) (t : number) : result bool :=
  let? n := ToNumber v in Ok (num_geb n t).

Definition gt_number (v : value) (t : number) : result bool :=
  let? n := ToNumber v in Ok (num_ltb t n).

(** [v * t] for a number [t] on the right. *)
Definition mul_number (v : value) (t : number) : result number :=
  let? n := ToNumber v in Ok (Number_mul n t).

(** [v.toFixed(digits)]: a method of numbers; on anything else the call
    throws a TypeError, for there is nothing to call. *)
Definition toFixed_ (v : value) (digits : nat) : result string :=
  match v with
  | VNum n => Ok (Number_toFixed n digits)
  | VUndefined => Throw "Cannot read properties of undefined (reading 'toFixed')"
  | VNull => Throw "Cannot read properties of null (reading 'toFixed')"
  | _ => Throw "toFixed is not a function"
  end.

(** [parseFloat(v)] *)
Definition parseFloat_ (v : value) : result number :=
  let? s := String_ v in Ok (parseFloat s).
End Conversions.

End JS.

(** ** The upstream validator ([checkers.js]) *)

Module Checkers.
Import JS.
Local Open Scope js_scope.

(** *** The network boundary *)

Record options := {
  method : string;
  headers : list (string * string);
  body : option value;  (* the value whose JSON text is sent *)
}.

Record request := {
  rq_url : string;
  rq_options : options;
  rq_region : value;
}.

(** A body text, with what [JSON.parse] makes of it. *)
Record text := {
  raw : string;
  parsed : option value;
}.

Inductive read_outcome :=
| ReadRejects (e : string)
| ReadDone
| ReadChunk.

(** The body stream of a response, as far as the validator looks at it. *)
Record stream := {
  first_read : read_outcome;
  cancel_rejects : option string;
}.

Record response := {
  status : Z;
  rtext : result text;         (* what reading the whole body gives *)
  rstream : option stream;     (* [response.body], null for an empty body *)
}.

(** [response.ok] *)
Definition ok (r : response) : bool := (200 <=? status r)%Z && (status r <=? 299)%Z.

Inductive fetch_outcome :=
| FetchThrows (e : string)
| FetchReturns (r : response).

(** What the validator does to the outside world, in order. *)
Inductive io :=
| IoFetch (rq : request)
| IoText
| IoJson
| IoGetReader
| IoRead
| IoCancel
| IoReleaseLock
| IoWarn (msg : string).

(** Computations that may throw and that leave a log of their effects. *)
Definition M (A : Type) : Type := list io -> result A * list io.

Definition ret {A} (a : A) : M A := fun log => (Ok a, log).
Definition throw {A} (e : string) : M A := fun log => (Throw e, log).
Definition bind {A B} (m : M A) (k : A -> M B) : M B :=
  fun log => match m log with
             | (Ok a, log') => k a log'
             | (Throw e, log') => (Throw e, log')
             end.
Definition emit (e : io) : M unit := fun log => (Ok tt, log ++ [e]).
Definition lift {A} (r : result A) : M A := fun log => (r, log).

(** [try { m } catch (e) { h e }] *)
Definition try_catch {A} (m : M A) (h : string -> M A) : M A :=
  fun log => match m log with
             | (Ok a, log') => (Ok a, log')
             | (Throw e, log') => h e log'
             end.

(** [try { m } finally { f }]: [f] runs on every exit of [m]; an exception
    of [f] replaces the outcome of [m]. *)
Definition try_finally {A} (m : M A) (f : M unit) : M A :=
  fun log => match m log with
             | (r, log') =>
                 match f log' with
                 | (Ok _, log'') => (r, log'')
                 | (Throw e, log'') => (Throw e, log'')
                 end
             end.

Declare Scope io_scope.
Delimit Scope io_scope with io.
Notation "'let*' x := m 'in' k" := (bind m (fun x => k))
  (at level 10, x pattern, k at level 200) : io_scope.
Notation "m ;;; k" := (bind m (fun _ => k))
  (at level 100, right associativity) : io_scope.
Local Open Scope io_scope.

Definition run {A} (m : M A) : result A * list io := m [].

(** *** Strings and JSON text *)

(** [s.replace(/\/+$/, "")] *)
Fixpoint strip_trailing_slashes (s : string) : string :=
  match s with
  | EmptyString => ""
  | String c rest =>
      let rest' := strip_trailing_slashes rest in
      if Ascii.eqb c "/"%char && String.eqb rest' "" then "" else String c rest'
  end.

Definition drop_string (n : nat) (s : string) : string :=
  String.substring n (String.length s - n) s.

(** [s.replace(pat, rep)] for a non-empty string pattern: the first
    occurrence only. *)
Fixpoint replace_first (pat rep s : string) : string :=
  if String.prefix pat s then rep +:+ drop_string (String.length pat) s
  else match s with
       | EmptyString => ""
       | String c rest => String c (replace_first pat rep rest)
       end.

(** [normalizeBaseUrl(url)]; calling [replace] on anything but a string
    throws. *)
Definition normalizeBaseUrl (url : value) : result string :=
  match url with
  | VStr s => Ok (strip_trailing_slashes s)
  | VUndefined | VNull => Throw "Cannot read properties of undefined (reading 'replace')"
  | _ => Throw "url.replace is not a function"
  end.

Definition finite (n : number) : bool :=
  match n with Fin _ => true | _ => false end.

(** The members [JSON.stringify] writes for an object: those whose value is
    not [undefined], each written by [f]. *)
Definition members_with (f : value -> value)
  : list (string * value) -> list (string * value) :=
  fix members fs :=
    match fs with
    | [] => []
    | (k, VUndefined) :: fs' => members fs'
    | (k, x) :: fs' => (k, f x) :: members fs'
    end.

(** A request body is kept as the value its JSON text denotes:
    [JSON.stringify] drops [undefined] members, writes [null] for
    [undefined] elements and for non-finite numbers, and [JSON.parse] reads
    that value back. *)
Fixpoint denoted (v : value) : value :=
  match v with
  | VNum n => if finite n then v else VNull
  | VArr elems =>
      VArr (map (fun x => if x is VUndefined then VNull else denoted x) elems)
  | VObj fields => VObj (members_with denoted fields)
  | _ => v
  end.

(** [JSON.parse(text)] *)
Definition JSON_parse (t : text) : result value :=
  match parsed t with
  | Some v => Ok v
  | None => Throw "Unexpected token in JSON"
  end.

Record providerConfig := {
  provider : value;
  baseUrl : value;
  model : value;
  region : value;
  enableStream : value;
  validationPrompt : value;
  validationMaxTokens : value;
  validationMaxOutputTokens : value;
}.

(** The descriptor of a provider ([providers.json]); the retry of the
    style-A strategy passes the empty descriptor. *)
Record providerMeta := {
  apiStyle : option string;
  balanceCheck : option string;
  hasBalance : bool;
}.

Definition no_meta : providerMeta :=
  {| apiStyle := None; balanceCheck := None; hasBalance := false |}.

(** The error [handleApiError] extracts. *)
Record api_error := {
  message : string;
  rawError_status : Z;
  rawError_content : value;
}.

Definition rawError (e : api_error) : value :=
  VObj [("status", vnum (rawError_status e)); ("content", rawError_content e)].

(** A strategy builds the request and may offer a corrective retry. *)
Record strategy := {
  buildRequest : string -> providerConfig -> result (string * options);
  onFail : option (api_error -> string -> providerConfig -> M (option object));
}.

Definition bearer (token : string) : list (string * string) :=
  [("Authorization", "Bearer " +:+ token)].

Definition GET (hs : list (string * string)) : options :=
  {| method := "GET"; headers := hs; body := None |}.

Definition POST (hs : list (string * string)) (b : value) : options :=
  {| method := "POST"; headers := hs; body := Some (denoted b) |}.

Section Validator.
Context `{Host}.
(** [secureProxiedFetch], the opaque fetch primitive. *)
Variable secureProxiedFetch : request -> fetch_outcome.

Definition fetch (url : string) (o : options) (region : value) : M response :=
  let rq := {| rq_url := url; rq_options := o; rq_region := region |} in
  emit (IoFetch rq) ;;;
  match secureProxiedFetch rq with
  | FetchThrows e => throw e
  | FetchReturns r => ret r
  end.

(** [response.text()] *)
Definition response_text (r : response) : M text :=
  emit IoText ;;; lift (rtext r).

(** [response.json()] *)
Definition response_json (r : response) : M value :=
  emit IoJson ;;;
  let* t := lift (rtext r) in
  lift (JSON_parse t).

(** [response.body.getReader()] *)
Definition getReader (r : response) : M stream :=
  match rstream r with
  | None => throw "Cannot read properties of null (reading 'getReader')"
  | Some rd => emit IoGetReader ;;; ret rd
  end.

(** [reader.read()], giving the [done] member of what it resolves to. *)
Definition reader_read (rd : stream) : M bool :=
  emit IoRead ;;;
  match first_read rd with
  | ReadRejects e => throw e
  | ReadDone => ret true
  | ReadChunk => ret false
  end.

(** [reader.cancel().catch(err => console.warn(...))] *)
Definition reader_cancel_caught (rd : stream) : M unit :=
  emit IoCancel ;;;
  match cancel_rejects rd with
  | Some e => emit (IoWarn ("Stream cancel failed: " +:+ e))
  | None => ret tt
  end.

Definition reader_releaseLock (rd : stream) : M unit := emit IoReleaseLock.

(** *** [handleApiError] *)

Definition handleApiError (response : response) : M api_error :=
  let* rawText := response_text response in
  let rawErrorContent :=
    match JSON_parse rawText with
    | Ok v => v
    | Throw _ => VStr (raw rawText)
    end in
  let reason :=
    opt_get (opt_first (opt_get (opt_get rawErrorContent "error") "details")) "reason" in
  let code := opt_get (opt_get rawErrorContent "error") "code" in
  let errorMessage := opt_get (opt_get rawErrorContent "error") "message" in
  let topLevelMessage := opt_get rawErrorContent "message" in
  let detail := opt_get rawErrorContent "detail" in
  let after_code : result string :=
    if truthy errorMessage then String_ errorMessage
    else if truthy topLevelMessage then String_ topLevelMessage
    else if truthy (opt_get (opt_get rawErrorContent "errors") "message")
         then String_ (opt_get (opt_get rawErrorContent "errors") "message")
    else if truthy detail
         then (if typeof_object detail then Ok (JSON_stringify detail) else String_ detail)
    else if (status response =? 401)%Z then Ok "认证失败"
    else if (status response =? 429)%Z then Ok "请求频繁"
    else Ok ("HTTP " +:+ Number_toString (num_of_Z (status response))) in
  let message : result string :=
    if truthy reason then String_ reason
    else if truthy code
         then (let? nan := isNaN code in
               if nan : bool then String_ code else after_code)
         else after_code in
  let* message := lift message in
  ret {| message := message;
         rawError_status := status response;
         rawError_content := rawErrorContent |}.

(** *** Balance adapters *)

Definition BALANCE_UNAVAILABLE : object :=
  [("balance", vnum (-1)); ("message", VStr "有效但无法获取余额")].

(** [parseFloat(n.toFixed(d))] *)
Definition rounded (n : number) (d : nat) : number := parseFloat (Number_toFixed n d).

(** [normalizeBaseUrl(baseUrl).replace("/v1", "")] *)
Definition api_root (baseUrl : value) : result string :=
  match normalizeBaseUrl baseUrl with
  | Ok s => Ok (replace_first "/v1" "" s)
  | Throw e => Throw e
  end.

Definition checkOpenRouterBalance (token : string) (baseUrl region : value) : M object :=
  let* root := lift (api_root baseUrl) in
  let* creditsResponse := fetch (root +:+ "/v1/credits") (GET (bearer token)) region in
  if ok creditsResponse then
    let* d := response_json creditsResponse in
    let* data := lift (get d "data") in
    let total := js_or (opt_get data "total_credits") (vnum 0) in
    let usage := js_or (opt_get data "total_usage") (vnum 0) in
    let* t := lift (ToNumber total) in
    let* u := lift (ToNumber usage) in
    ret [("balance", VNum (rounded (Number_sub t u) 4));
         ("totalBalance", total);
         ("usedBalance", usage);
         ("rawBalanceResponse", d)]
  else ret BALANCE_UNAVAILABLE.

Definition checkSiliconFlowBalance (token : string) (baseUrl region : value) : M object :=
  let* root := lift (api_root baseUrl) in
  let* resp := fetch (root +:+ "/v1/user/info") (GET (bearer token)) region in
  if ok resp then
    let* d := response_json resp in
    let* data := lift (get d "data") in
    let* bal := lift (parseFloat_ (opt_get data "balance")) in
    ret [("balance", VNum (if num_isNaN bal then num_of_Z (-1) else rounded bal 4));
         ("rawBalanceResponse", d)]
  else ret BALANCE_UNAVAILABLE.

(** [arr?.find(b => b.currency === cur)] *)
Fixpoint find_currency (cur : string) (l : list value) : result value :=
  match l with
  | [] => Ok VUndefined
  | b :: l' =>
      match get b "currency" with
      | Throw e => Throw e
      | Ok c => if is_str c cur then Ok b else find_currency cur l'
      end
  end.

Definition opt_find_currency (cur : string) (v : value) : result value :=
  match v with
  | VUndefined | VNull => Ok VUndefined
  | VArr l => find_currency cur l
  | _ => Throw "find is not a function"
  end.

Definition checkDeepSeekBalance (token : string) (baseUrl region : value) : M object :=
  let* root := lift (api_root baseUrl) in
  let* resp := fetch (root +:+ "/user/balance")
                     (GET (bearer token ++ [("Accept", "application/json")])) region in
  let* found :=
    if ok resp then
      let* d := response_json resp in
      let* infos := lift (get d "balance_infos") in
      let* usd := lift (opt_find_currency "USD" infos) in
      let* info :=
        if truthy usd then ret usd
        else let* cny := lift (opt_find_currency "CNY" infos) in
             ret (if truthy cny then cny else opt_first infos) in
      if truthy info then
        let* balance := lift (parseFloat_ (opt_get info "total_balance")) in
        let* granted :=
          lift (parseFloat_ (js_or (opt_get info "granted_balance") (vnum 0))) in
        let* toppedUp :=
          lift (parseFloat_ (js_or (opt_get info "topped_up_balance") (vnum 0))) in
        ret (Some [("balance", VNum balance);
                   ("currency", opt_get info "currency");
                   ("grantedBalance", VNum granted);
                   ("toppedUpBalance", VNum toppedUp);
                   ("rawBalanceResponse", d)])
      else ret None
    else ret None in
  ret (default BALANCE_UNAVAILABLE found).

Definition checkMoonshotBalance (token : string) (baseUrl region : value) : M object :=
  let* base := lift (normalizeBaseUrl baseUrl) in
  let* balanceResponse := fetch (base +:+ "/users/me/balance") (GET (bearer token)) region in
  if ok balanceResponse then
    let* data := response_json balanceResponse in
    let* inner := lift (get data "data") in
    let* available := lift (parseFloat_ (opt_get inner "available_balance")) in
    ret [("balance", js_or (VNum available) (vnum (-1)));
         ("rawBalanceResponse", data)]
  else ret BALANCE_UNAVAILABLE.

Definition checkNewAPIBalance (token : string) (baseUrl region : value) : M object :=
  let* root := lift (api_root baseUrl) in
  let* response := fetch (root +:+ "/api/usage/token") (GET (bearer token)) region in
  let* found :=
    if ok response then
      let* d := response_json response in
      let* code := lift (get d "code") in
      let data := opt_get d "data" in
      if (if code is VBool true then true else false) && truthy data then
        let tokenToUsdRate := num_of_Z 500000 in
        let usd n := rounded (Number_div n tokenToUsdRate) 2 in
        let* available := lift (ToNumber (opt_get data "total_available")) in
        let* granted := lift (ToNumber (opt_get data "total_granted")) in
        ret (Some [("balance", VNum (usd available));
                   ("totalGranted", VNum (usd granted));
                   ("expiresAt", opt_get data "expires_at");
                   ("currency", VStr "USD");
                   ("rawBalanceResponse", d)])
      else ret None
    else ret None in
  ret (default BALANCE_UNAVAILABLE found).

(** [balanceCheckers[name]] *)
Definition balanceCheckers (name : string)
  : option (string -> value -> value -> M object) :=
  if String.eqb name "checkOpenRouterBalance" then Some checkOpenRouterBalance
  else if String.eqb name "checkSiliconFlowBalance" then Some checkSiliconFlowBalance
  else if String.eqb name "checkDeepSeekBalance" then Some checkDeepSeekBalance
  else if String.eqb name "checkMoonshotBalance" then Some checkMoonshotBalance
  else if String.eqb name "checkNewAPIBalance" then Some checkNewAPIBalance
  else None.

(** *** [_checkTokenTemplate] *)

Definition invalid_result (token message : string) (extra : object) : object :=
  [("token", VStr token); ("isValid", VBool false); ("message", VStr message)]
    ++ extra ++ [("error", VBool true)].

Definition stream_note : value :=
  VObj [("note", VStr "Validation successful via streaming.")].

Definition parse_failure_note : value :=
  VObj [("note", VStr "Failed to parse JSON response.")].

(** The streaming branch of a 2xx response: [inl] is the early [return] of
    the invalid result, [inr] falls through with the updated result. *)
Definition stream_block (token : string) (response : response) (result : object)
  : M (object + object) :=
  let* reader := getReader response in
  try_finally
    (let* done := reader_read reader in
     if done : bool
     then ret (inl (invalid_result token "验证失败 (流提前结束)" []))
     else ret (inr (set_field "rawResponse" stream_note result)))
    (reader_cancel_caught reader ;;; reader_releaseLock reader).

Definition _checkTokenTemplate (token : string) (providerMeta : providerMeta)
    (providerConfig : providerConfig) (strategy : strategy) : M object :=
  try_catch
    (let* (url, options) := lift (buildRequest strategy token providerConfig) in
     let* response := fetch url options (region providerConfig) in
     if ok response then
       let result := [("token", VStr token); ("isValid", VBool true)] in
       let* stage :=
         if truthy (enableStream providerConfig)
         then stream_block token response result
         else
           let* rawResponse :=
             try_catch (response_json response) (fun _ => ret parse_failure_note) in
           ret (inr (set_field "rawResponse" rawResponse result)) in
       match stage with
       | inl early => ret early
       | inr result =>
           match balanceCheck providerMeta ≫= (fun name =>
                   if String.eqb name "" then None else balanceCheckers name) with
           | Some checker =>
               let* balanceResult :=
                 checker token (baseUrl providerConfig) (region providerConfig) in
               ret (Object_assign result balanceResult)
           | None => ret result
           end
       end
     else
       let* error := handleApiError response in
       let* retryResult :=
         match onFail strategy with
         | Some f => f error token providerConfig
         | None => ret None
         end in
       match retryResult with
       | Some r => ret r
       | None =>
           ret (invalid_result token (message error) [("rawError", rawError error)])
       end)
    (fun error =>
       ret (invalid_result token "网络错误或未知异常"
              [("rawError", VObj [("content", VStr error)])])).

(** *** [apiStrategies] *)

Definition json_headers (auth : list (string * string)) : list (string * string) :=
  ("Content-Type", "application/json") :: auth.

Definition openai_buildRequest (token : string) (pc : providerConfig)
  : result (string * options) :=
  match normalizeBaseUrl (baseUrl pc) with
  | Throw e => Throw e
  | Ok base =>
      Ok (base +:+ "/chat/completions",
          POST (json_headers (bearer token))
            (VObj [("model", model pc);
                   ("messages",
                     VArr [VObj [("role", VStr "user");
                                 ("content", js_or (validationPrompt pc) (VStr "Hi"))]]);
                   ("max_tokens", js_or (validationMaxTokens pc) (vnum 1));
                   ("stream", js_or (enableStream pc) (VBool false))]))
  end.

Definition openai_onFail (error : api_error) (token : string) (pc : providerConfig)
  : M (option object) :=
  let err := opt_get (rawError_content error) "error" in
  if is_str (opt_get err "code") "unsupported_parameter"
     && is_str (opt_get err "param") "max_tokens"
  then
    let* (url, options) := lift (openai_buildRequest token pc) in
    match body options with
    | Some (VObj newBody) =>
        let newBody := delete_field "max_tokens" newBody in
        let newBody :=
          set_field "max_completion_tokens"
            (js_or (validationMaxOutputTokens pc) (vnum 16)) newBody in
        let options :=
          {| method := method options; headers := headers options;
             body := Some (denoted (VObj newBody)) |} in
        let retryStrategy :=
          {| buildRequest := fun _ _ => Ok (url, options); onFail := None |} in
        let* r := _checkTokenTemplate token no_meta pc retryStrategy in
        ret (Some r)
    | _ => throw "Unexpected token in JSON"
    end
  else ret None.

Definition openai : strategy :=
  {| buildRequest := openai_buildRequest; onFail := Some openai_onFail |}.

Definition default_prompt : value := VStr "You just need to reply Hi.".

Definition openai_responses : strategy :=
  {| buildRequest := fun token pc =>
       match normalizeBaseUrl (baseUrl pc) with
       | Throw e => Throw e
       | Ok base =>
           Ok (base +:+ "/responses",
               POST (json_headers (bearer token))
                 (VObj [("model", model pc);
                        ("input", js_or (validationPrompt pc) default_prompt);
                        ("max_output_tokens",
                          js_or (validationMaxOutputTokens pc) (vnum 16));
                        ("stream", js_or (enableStream pc) (VBool false))]))
       end;
     onFail := None |}.

Definition anthropic : strategy :=
  {| buildRequest := fun token pc =>
       match normalizeBaseUrl (baseUrl pc) with
       | Throw e => Throw e
       | Ok base =>
           Ok (base +:+ "/messages",
               POST [("x-api-key", token);
                     ("anthropic-version", "2023-06-01");
                     ("Content-Type", "application/json");
                     ("anthropic-dangerous-direct-browser-access", "true")]
                 (VObj [("model", model pc);
                        ("max_tokens", js_or (validationMaxTokens pc) (vnum 1));
                        ("messages",
                          VArr [VObj [("role", VStr "user");
                                      ("content",
                                        js_or (validationPrompt pc) default_prompt)]]);
                        ("stream", js_or (enableStream pc) (VBool false))]))
       end;
     onFail := None |}.

Definition gemini : strategy :=
  {| buildRequest := fun token pc =>
       let endpoint :=
         if truthy (enableStream pc) then "streamGenerateContent" else "generateContent" in
       let? base := normalizeBaseUrl (baseUrl pc) in
       let? name := String_ (model pc) in
       Ok (base +:+ "/v1beta/models/" +:+ name +:+ ":" +:+ endpoint,
           POST [("Content-Type", "application/json"); ("x-goog-api-key", token)]
             (VObj [("contents",
                      VArr [VObj [("parts",
                                    VArr [VObj [("text",
                                                  js_or (validationPrompt pc)
                                                        default_prompt)]])]]);
                    ("generationConfig",
                      VObj [("maxOutputTokens",
                              js_or (validationMaxOutputTokens pc) (vnum 16))])]));
     onFail := None |}.

(** [checkToken]: the validator of one credential. *)
Definition checkToken (token : string) (providerMeta : providerMeta)
    (providerConfig : providerConfig) : M object :=
  let style := default "" (apiStyle providerMeta) in
  if String.eqb style "openai"
  then _checkTokenTemplate token providerMeta providerConfig openai
  else if String.eqb style "openai_responses"
  then _checkTokenTemplate token providerMeta providerConfig openai_responses
  else if String.eqb style "anthropic"
  then _checkTokenTemplate token providerMeta providerConfig anthropic
  else if String.eqb style "gemini"
  then _checkTokenTemplate token providerMeta providerConfig gemini
  else ret [("token", VStr token); ("isValid", VBool false);
            ("message", VStr "不支持的提供商类型"); ("error", VBool true)].
End Validator.

End Checkers.

(** ** The worker pool of one batch session ([websocket_handler.js]) *)

Module WorkerPool.
Import JS.

(** What a session sends: the callbacks its [TaskManager] is built with,
    and the error message of the listener that catches an exception of
    [start]. *)
Inductive signal :=
| OnResult (payload : object)
| OnStatus (message : string)
| OnError (message : string)
| OnDone (message : string)
| Caught (message : string).

(** Where a worker of [runWorkerPool] is suspended. Between two suspension
    points a worker runs without interruption. *)
Inductive worker :=
| Checking (item : value)   (* awaiting [checkToken] inside [runCheck] *)
| Yielding                  (* awaiting the zero-delay timer *)
| Finished.                 (* left the loop *)

Record TaskManager := {
  queue : list value;
  currentIndex : nat;
  isStopped : bool;
  concurrency : nat;
  workers : list worker;       (* [workerPromises] *)
  settled : bool;              (* [await Promise.all] has resumed *)
  calls : list signal;         (* callbacks invoked so far, oldest first *)
  claims : list (nat * nat);   (* (worker, index) of each successful [getNextItem] *)
}.

Definition new_TaskManager : TaskManager :=
  {| queue := []; currentIndex := 0; isStopped := false; concurrency := 5;
     workers := []; settled := false; calls := []; claims := [] |}.

Definition call (s : signal) (tm : TaskManager) : TaskManager :=
  {| queue := queue tm; currentIndex := currentIndex tm; isStopped := isStopped tm;
     concurrency := concurrency tm; workers := workers tm; settled := settled tm;
     calls := calls tm ++ [s]; claims := claims tm |}.

Definition set_workers (ws : list worker) (tm : TaskManager) : TaskManager :=
  {| queue := queue tm; currentIndex := currentIndex tm; isStopped := isStopped tm;
     concurrency := concurrency tm; workers := ws; settled := settled tm;
     calls := calls tm; claims := claims tm |}.

(** [getNextItem()], called by worker [w]: [null] when the cursor is past the
    end, else the item under the cursor, which then advances. *)
Definition getNextItem (w : nat) (tm : TaskManager) : value * TaskManager :=
  match queue tm !! currentIndex tm with
  | None => (VNull, tm)
  | Some item =>
      (item,
       {| queue := queue tm; currentIndex := S (currentIndex tm);
          isStopped := isStopped tm; concurrency := concurrency tm;
          workers := workers tm; settled := settled tm; calls := calls tm;
          claims := claims tm ++ [(w, currentIndex tm)] |})
  end.

(** One turn of the [while (true)] loop of worker [w], up to its next
    suspension: the stop check, the claim, and the start of [runCheck]. *)
Definition loop (w : nat) (tm : TaskManager) : worker * TaskManager :=
  if isStopped tm then (Finished, tm)
  else
    let (item, tm) := getNextItem w tm in
    if negb (truthy item) then (Finished, tm)
    else if isStopped tm then (Yielding, tm)   (* [runCheck] returns at once *)
    else (Checking item, tm).

Definition is_finished (w : worker) : bool :=
  match w with Finished => true | _ => false end.

(** The code after [await Promise.all(workerPromises)], run as soon as every
    worker has left its loop. *)
Definition after_all (tm : TaskManager) : TaskManager :=
  if forallb is_finished (workers tm) && negb (settled tm) then
    let tm := {| queue := queue tm; currentIndex := currentIndex tm;
                 isStopped := isStopped tm; concurrency := concurrency tm;
                 workers := workers tm; settled := true; calls := calls tm;
                 claims := claims tm |} in
    if isStopped tm then tm else call (OnDone "Batch processing complete") tm
  else tm.

(** The [for] loop that creates the workers: each one runs to its first
    suspension before the next is created. *)
Fixpoint spawn (n : nat) (tm : TaskManager) : TaskManager :=
  match n with
  | 0 => tm
  | S n' =>
      let (w, tm) := loop (length (workers tm)) tm in
      spawn n' (set_workers (workers tm ++ [w]) tm)
  end.

Definition runWorkerPool (tm : TaskManager) : TaskManager :=
  after_all (spawn (concurrency tm) tm).

(** The payload [runCheck] hands to [onResult] once [checkToken] has
    settled: the result with the item's [order], or the report of the
    exception. *)
Definition runCheck_payload (item : value) (outcome : result object) : object :=
  match outcome with
  | Ok result => set_field "order" (opt_get item "order") result
  | Throw e =>
      [("token", opt_get item "token"); ("message", VStr e);
       ("error", VBool true); ("order", opt_get item "order")]
  end.

(** [stop()] *)
Definition stop (tm : TaskManager) : TaskManager :=
  {| queue := queue tm; currentIndex := currentIndex tm; isStopped := true;
     concurrency := concurrency tm; workers := workers tm; settled := settled tm;
     calls := calls tm; claims := claims tm |}.

(** What can happen to a running pool: a validation settles, a zero-delay
    timer fires, or the session stops the manager. *)
Inductive event :=
| Settle (w : nat) (outcome : result object)
| Tick (w : nat)
| Stop.

Definition step (e : event) (tm : TaskManager) : TaskManager :=
  match e with
  | Settle w outcome =>
      match workers tm !! w with
      | Some (Checking item) =>
          let tm := call (OnResult (runCheck_payload item outcome)) tm in
          set_workers (<[w := Yielding]> (workers tm)) tm
      | _ => tm
      end
  | Tick w =>
      match workers tm !! w with
      | Some Yielding =>
          let (w', tm) := loop w tm in
          after_all (set_workers (<[w := w']> (workers tm)) tm)
      | _ => tm
      end
  | Stop => stop tm
  end.

Definition run (evs : list event) (tm : TaskManager) : TaskManager :=
  fold_left (fun tm e => step e tm) evs tm.





Section Start.
Context `{Host}.
(** [providersData.default], the table of provider descriptors. *)
Variable providersData : string -> option Checkers.providerMeta.

Record initialData := {
  tokens : value;
  providerConfig : value;
  initial_concurrency : nat;
}.

(** [start(initialData)] *)
Definition start (data : initialData) (tm : TaskManager) : TaskManager :=
  match tokens data with
  | VArr items =>
      if negb (truthy (providerConfig data))
      then call (OnError "Invalid initial data for a batch") tm
      else
        let n := initial_concurrency data in
        let tm := {| queue := items; currentIndex := currentIndex tm;
                     isStopped := isStopped tm;
                     concurrency := if (n =? 0)%nat then 5 else n;
                     workers := workers tm; settled := settled tm;
                     calls := calls tm; claims := claims tm |} in
        match String_ (opt_get (providerConfig data) "provider") with
        | Throw _ => call (Caught "Invalid JSON message") tm
        | Ok name =>
            match providersData name with
            | Some _ => runWorkerPool tm
            | None => call (OnError ("Provider '" +:+ name +:+ "' not found")) tm
            end
        end
  | _ => call (OnError "Invalid initial data for a batch") tm
  end.
End Start.

End WorkerPool.

(** ** The client-side orchestrator (the [checker] store and its stores) *)

Module Orchestrator.
Import JS.
Local Open Scope js_scope.

Definition BATCH_SIZE : nat := 500.
Definition MAX_KEYS_LIMIT : Z := 50000.
Definition MAX_RECONNECT_ATTEMPTS : nat := 3.
Definition BUFFER_FLUSH_INTERVAL : nat := 100.
Definition BUFFER_MAX_SIZE : nat := 50.

(** *** Reading the input box *)

Definition byte (n : nat) : ascii := ascii_of_nat n.

(** The separators of [split(/[,;\n\r]+/)]. *)
Definition is_separator (c : ascii) : bool :=
  Ascii.eqb c ","%char || Ascii.eqb c ";"%char
  || Ascii.eqb c (byte 10) || Ascii.eqb c (byte 13).

(** [s.split(/[,;\n\r]+/)]: the pieces between maximal runs of separators;
    [cur] is the piece being read, [in_run] tells whether the last character
    was a separator. *)
Fixpoint split_runs (s cur : string) (in_run : bool) : list string :=
  match s with
  | EmptyString => [cur]
  | String c rest =>
      if is_separator c
      then (if in_run then split_runs rest "" true
            else cur :: split_runs rest "" true)
      else split_runs rest (cur +:+ String c "") false
  end.

(** White space and line terminators of one byte. *)
Definition is_space1 (c : ascii) : bool :=
  let n := nat_of_ascii c in ((9 <=? n) && (n <=? 13) || (n =? 32))%nat.

(** White space and line terminators that take two or three bytes in UTF-8:
    U+00A0, U+1680, U+2000..U+200A, U+2028, U+2029, U+202F, U+205F, U+3000,
    U+FEFF. *)
Definition is_space2 (a b : ascii) : bool :=
  ((nat_of_ascii a =? 194) && (nat_of_ascii b =? 160))%nat.

Definition is_space3 (a b c : ascii) : bool :=
  let '(x, y, z) := (nat_of_ascii a, nat_of_ascii b, nat_of_ascii c) in
  (((x =? 225) && (y =? 154) && (z =? 128))
   || ((x =? 226) && (y =? 128)
       && (((128 <=? z) && (z <=? 138)) || (z =? 168) || (z =? 169) || (z =? 175)))
   || ((x =? 226) && (y =? 129) && (z =? 159))
   || ((x =? 227) && (y =? 128) && (z =? 128))
   || ((x =? 239) && (y =? 187) && (z =? 191)))%nat.

(** [s.trimStart()] on UTF-8 text. *)
Fixpoint trimStart (s : string) : string :=
  match s with
  | EmptyString => ""
  | String a r1 =>
      if is_space1 a then trimStart r1
      else match r1 with
           | EmptyString => s
           | String b r2 =>
               if is_space2 a b then trimStart r2
               else match r2 with
                    | EmptyString => s
                    | String c r3 => if is_space3 a b c then trimStart r3 else s
                    end
           end
  end.

(** [s.trimEnd()], keeping the longest prefix that ends in a piece that is not
    white space. *)
Fixpoint trimEnd (s : string) : string :=
  match s with
  | EmptyString => ""
  | String a r1 =>
      if String.eqb (trimStart s) "" then "" else String a (trimEnd r1)
  end.

(** [s.trim()] *)
Definition trim (s : string) : string := trimEnd (trimStart s).

(** [tokensInput.trim().split(/[,;\n\r]+/).map(t => t.trim()).filter(Boolean)] *)
Definition tokensRaw_of (tokensInput : string) : list string :=
  filter (fun t => t <> "") (map trim (split_runs (trim tokensInput) "" false)).

(** *** Data of the stores *)

(** A credential: [{ token, order }]. *)
Record key := {
  token : string;
  order : nat;
}.

Definition key_value (k : key) : value :=
  VObj [("token", VStr (token k)); ("order", vnum (Z.of_nat (order k)))].

Inductive category :=
| valid | lowBalance | zeroBalance | noQuota | rateLimit | invalid | duplicate.

Global Instance category_eq_dec : EqDecision category.
Proof. solve_decision. Defined.

Definition CATEGORIES : list category :=
  [valid; lowBalance; zeroBalance; noQuota; rateLimit; invalid; duplicate].

Definition category_name (c : category) : string :=
  match c with
  | valid => "valid" | lowBalance => "lowBalance" | zeroBalance => "zeroBalance"
  | noQuota => "noQuota" | rateLimit => "rateLimit" | invalid => "invalid"
  | duplicate => "duplicate"
  end.

(** [results[name]]: the bucket of that name, if there is one. *)
Definition category_of_name (name : value) : option category :=
  match name with
  | VStr n => List.find (fun c => String.eqb n (category_name c)) CATEGORIES
  | _ => None
  end.

(** An entry of a result bucket. *)
Record item := {
  item_id : string;
  item_token : value;
  item_displayText : string;
  item_balance : value;
  item_order : value;
  item_details : option object;    (* [null] when there is no detail *)
}.

(** What a flush hands to the result store: [{ res, order }]. *)
Record entry := {
  res : object;
  entry_order : value;
}.

Record jobQueue := {
  remainingKeys : list key;
  jq_providerConfig : Checkers.providerConfig;
  jq_concurrency : nat;
}.

Record currentBatch := {
  batch : list key;
  cb_providerConfig : Checkers.providerConfig;
  cb_concurrency : nat;
}.

(** The messages [_postStatus] shows, with the numbers they mention. *)
Inductive status :=
| EnterAtLeastOneKey
| TooManyKeys
| FilteredDuplicates (n : nat)
| NothingToCheck
| Starting (n : nat)
| Processing (reached total : Z)
| Reconnecting (attempt : nat)
| ReconnectFailed
| BackendError (message : value)
| Stopped
| Paused
| Resumed
| Finished (summary : list (category * nat)).

(** The [type] a status is posted with. *)
Definition status_type (s : status) : string :=
  match s with
  | EnterAtLeastOneKey | Reconnecting _ => "warning"
  | TooManyKeys | ReconnectFailed | BackendError _ => "error"
  | Finished _ => "success"
  | _ => "info"
  end.

(** The settings of one provider in [providerConfigs]. *)
Record providerSettings := {
  ps_baseUrl : value;
  ps_model : value;
  ps_enableStream : value;
}.

(** The [config] store. *)
Record Config := {
  tokensInput : string;
  currentProvider : string;
  currentRegion : value;
  providerConfigs : string -> option providerSettings;
  threshold : number;
  concurrency : nat;
  validationPrompt : value;
  validationMaxTokens : value;
  validationMaxOutputTokens : value;
}.

(** *** The browser: sockets, timers, clock *)

Inductive readyState := CONNECTING | OPEN | CLOSED.

(** What a timer does when it fires. *)
Inductive callback :=
| CallProcessNextBatch    (* [setTimeout(processNextBatch, 100)] *)
| CallReconnect           (* the arrow function of [onclose] *)
| CallFlush.              (* [setTimeout(flushResultBuffer, ...)] *)

Global Instance callback_eq_dec : EqDecision callback.
Proof. solve_decision. Defined.

Record timer := {
  timer_id : nat;
  due : nat;               (* earliest time, in milliseconds, it may fire *)
  timer_callback : callback;
}.

(** One WebSocket with the listeners [setupSocketListeners] gave it and the
    session that serves it on the other side. *)
Record WebSocket := {
  ready : readyState;
  onclose_set : bool;                          (* [onclose] not nulled *)
  l_providerConfig : Checkers.providerConfig;  (* captured by the listeners *)
  l_batch : list key;
  l_concurrency : nat;
  session : WorkerPool.TaskManager;            (* the server side *)
  delivered : nat;                             (* server messages handled so far *)
  close_seen : bool;                           (* the close event has fired *)
}.

(** *** The state of the three stores and of the browser *)

Record State := {
  config : Config;
  results : category -> list item;
  isChecking : bool;
  isPaused : bool;
  completedCount : nat;
  totalTasks : nat;
  socket : option nat;               (* [socket.value], an index in [sockets] *)
  statuses : list status;            (* every [lastStatusMessage], oldest first *)
  reconnectAttempts : nat;
  current : option currentBatch;     (* [currentBatch] *)
  queue : option jobQueue;           (* [jobQueue] *)
  resultBuffer : list entry;
  flushTimerId : option nat;
  sockets : list WebSocket;
  timers : list timer;
  next_timer : nat;
  now : nat;
}.

(** Assignments to one member of a socket or of the state. *)

Definition set_ready (v : readyState) (x : WebSocket) : WebSocket :=
  {| ready := v; onclose_set := onclose_set x; l_providerConfig := l_providerConfig x;
     l_batch := l_batch x; l_concurrency := l_concurrency x; session := session x;
     delivered := delivered x; close_seen := close_seen x |}.

Definition set_onclose_set (v : bool) (x : WebSocket) : WebSocket :=
  {| ready := ready x; onclose_set := v; l_providerConfig := l_providerConfig x;
     l_batch := l_batch x; l_concurrency := l_concurrency x; session := session x;
     delivered := delivered x; close_seen := close_seen x |}.

Definition set_session (v : WorkerPool.TaskManager) (x : WebSocket) : WebSocket :=
  {| ready := ready x; onclose_set := onclose_set x;
     l_providerConfig := l_providerConfig x; l_batch := l_batch x;
     l_concurrency := l_concurrency x; session := v; delivered := delivered x;
     close_seen := close_seen x |}.

Definition set_delivered (v : nat) (x : WebSocket) : WebSocket :=
  {| ready := ready x; onclose_set := onclose_set x;
     l_providerConfig := l_providerConfig x; l_batch := l_batch x;
     l_concurrency := l_concurrency x; session := session x; delivered := v;
     close_seen := close_seen x |}.

Definition set_close_seen (v : bool) (x : WebSocket) : WebSocket :=
  {| ready := ready x; onclose_set := onclose_set x;
     l_providerConfig := l_providerConfig x; l_batch := l_batch x;
     l_concurrency := l_concurrency x; session := session x; delivered := delivered x;
     close_seen := v |}.

Definition set_config (v : Config) (x : State) : State :=
  {| config := v; results := results x; isChecking := isChecking x;
     isPaused := isPaused x; completedCount := completedCount x;
     totalTasks := totalTasks x; socket := socket x; statuses := statuses x;
     reconnectAttempts := reconnectAttempts x; current := current x; queue := queue x;
     resultBuffer := resultBuffer x; flushTimerId := flushTimerId x;
     sockets := sockets x; timers := timers x; next_timer := next_timer x;
     now := now x |}.

Definition set_results (v : category -> list item) (x : State) : State :=
  {| config := config x; results := v; isChecking := isChecking x;
     isPaused := isPaused x; completedCount := completedCount x;
     totalTasks := totalTasks x; socket := socket x; statuses := statuses x;
     reconnectAttempts := reconnectAttempts x; current := current x; queue := queue x;
     resultBuffer := resultBuffer x; flushTimerId := flushTimerId x;
     sockets := sockets x; timers := timers x; next_timer := next_timer x;
     now := now x |}.

Definition set_isChecking (v : bool) (x : State) : State :=
  {| config := config x; results := results x; isChecking := v; isPaused := isPaused x;
     completedCount := completedCount x; totalTasks := totalTasks x;
     socket := socket x; statuses := statuses x;
     reconnectAttempts := reconnectAttempts x; current := current x; queue := queue x;
     resultBuffer := resultBuffer x; flushTimerId := flushTimerId x;
     sockets := sockets x; timers := timers x; next_timer := next_timer x;
     now := now x |}.

Definition set_isPaused (v : bool) (x : State) : State :=
  {| config := config x; results := results x; isChecking := isChecking x;
     isPaused := v; completedCount := completedCount x; totalTasks := totalTasks x;
     socket := socket x; statuses := statuses x;
     reconnectAttempts := reconnectAttempts x; current := current x; queue := queue x;
     resultBuffer := resultBuffer x; flushTimerId := flushTimerId x;
     sockets := sockets x; timers := timers x; next_timer := next_timer x;
     now := now x |}.

Definition set_completedCount (v : nat) (x : State) : State :=
  {| config := config x; results := results x; isChecking := isChecking x;
     isPaused := isPaused x; completedCount := v; totalTasks := totalTasks x;
     socket := socket x; statuses := statuses x;
     reconnectAttempts := reconnectAttempts x; current := current x; queue := queue x;
     resultBuffer := resultBuffer x; flushTimerId := flushTimerId x;
     sockets := sockets x; timers := timers x; next_timer := next_timer x;
     now := now x |}.

Definition set_totalTasks (v : nat) (x : State) : State :=
  {| config := config x; results := results x; isChecking := isChecking x;
     isPaused := isPaused x; completedCount := completedCount x; totalTasks := v;
     socket := socket x; statuses := statuses x;
     reconnectAttempts := reconnectAttempts x; current := current x; queue := queue x;
     resultBuffer := resultBuffer x; flushTimerId := flushTimerId x;
     sockets := sockets x; timers := timers x; next_timer := next_timer x;
     now := now x |}.

Definition set_socket (v : option nat) (x : State) : State :=
  {| config := config x; results := results x; isChecking := isChecking x;
     isPaused := isPaused x; completedCount := completedCount x;
     totalTasks := totalTasks x; socket := v; statuses := statuses x;
     reconnectAttempts := reconnectAttempts x; current := current x; queue := queue x;
     resultBuffer := resultBuffer x; flushTimerId := flushTimerId x;
     sockets := sockets x; timers := timers x; next_timer := next_timer x;
     now := now x |}.

Definition set_statuses (v : list status) (x : State) : State :=
  {| config := config x; results := results x; isChecking := isChecking x;
     isPaused := isPaused x; completedCount := completedCount x;
     totalTasks := totalTasks x; socket := socket x; statuses := v;
     reconnectAttempts := reconnectAttempts x; current := current x; queue := queue x;
     resultBuffer := resultBuffer x; flushTimerId := flushTimerId x;
     sockets := sockets x; timers := timers x; next_timer := next_timer x;
     now := now x |}.

Definition set_reconnectAttempts (v : nat) (x : State) : State :=
  {| config := config x; results := results x; isChecking := isChecking x;
     isPaused := isPaused x; completedCount := completedCount x;
     totalTasks := totalTasks x; socket := socket x; statuses := statuses x;
     reconnectAttempts := v; current := current x; queue := queue x;
     resultBuffer := resultBuffer x; flushTimerId := flushTimerId x;
     sockets := sockets x; timers := timers x; next_timer := next_timer x;
     now := now x |}.

Definition set_current (v : option currentBatch) (x : State) : State :=
  {| config := config x; results := results x; isChecking := isChecking x;
     isPaused := isPaused x; completedCount := completedCount x;
     totalTasks := totalTasks x; socket := socket x; statuses := statuses x;
     reconnectAttempts := reconnectAttempts x; current := v; queue := queue x;
     resultBuffer := resultBuffer x; flushTimerId := flushTimerId x;
     sockets := sockets x; timers := timers x; next_timer := next_timer x;
     now := now x |}.

Definition set_queue (v : option jobQueue) (x : State) : State :=
  {| config := config x; results := results x; isChecking := isChecking x;
     isPaused := isPaused x; completedCount := completedCount x;
     totalTasks := totalTasks x; socket := socket x; statuses := statuses x;
     reconnectAttempts := reconnectAttempts x; current := current x; queue := v;
     resultBuffer := resultBuffer x; flushTimerId := flushTimerId x;
     sockets := sockets x; timers := timers x; next_timer := next_timer x;
     now := now x |}.

Definition set_resultBuffer (v : list entry) (x : State) : State :=
  {| config := config x; results := results x; isChecking := isChecking x;
     isPaused := isPaused x; completedCount := completedCount x;
     totalTasks := totalTasks x; socket := socket x; statuses := statuses x;
     reconnectAttempts := reconnectAttempts x; current := current x; queue := queue x;
     resultBuffer := v; flushTimerId := flushTimerId x; sockets := sockets x;
     timers := timers x; next_timer := next_timer x; now := now x |}.

Definition set_flushTimerId (v : option nat) (x : State) : State :=
  {| config := config x; results := results x; isChecking := isChecking x;
     isPaused := isPaused x; completedCount := completedCount x;
     totalTasks := totalTasks x; socket := socket x; statuses := statuses x;
     reconnectAttempts := reconnectAttempts x; current := current x; queue := queue x;
     resultBuffer := resultBuffer x; flushTimerId := v; sockets := sockets x;
     timers := timers x; next_timer := next_timer x; now := now x |}.

Definition set_sockets (v : list WebSocket) (x : State) : State :=
  {| config := config x; results := results x; isChecking := isChecking x;
     isPaused := isPaused x; completedCount := completedCount x;
     totalTasks := totalTasks x; socket := socket x; statuses := statuses x;
     reconnectAttempts := reconnectAttempts x; current := current x; queue := queue x;
     resultBuffer := resultBuffer x; flushTimerId := flushTimerId x; sockets := v;
     timers := timers x; next_timer := next_timer x; now := now x |}.

Definition set_timers (v : list timer) (x : State) : State :=
  {| config := config x; results := results x; isChecking := isChecking x;
     isPaused := isPaused x; completedCount := completedCount x;
     totalTasks := totalTasks x; socket := socket x; statuses := statuses x;
     reconnectAttempts := reconnectAttempts x; current := current x; queue := queue x;
     resultBuffer := resultBuffer x; flushTimerId := flushTimerId x;
     sockets := sockets x; timers := v; next_timer := next_timer x; now := now x |}.

Definition set_next_timer (v : nat) (x : State) : State :=
  {| config := config x; results := results x; isChecking := isChecking x;
     isPaused := isPaused x; completedCount := completedCount x;
     totalTasks := totalTasks x; socket := socket x; statuses := statuses x;
     reconnectAttempts := reconnectAttempts x; current := current x; queue := queue x;
     resultBuffer := resultBuffer x; flushTimerId := flushTimerId x;
     sockets := sockets x; timers := timers x; next_timer := v; now := now x |}.

Definition set_now (v : nat) (x : State) : State :=
  {| config := config x; results := results x; isChecking := isChecking x;
     isPaused := isPaused x; completedCount := completedCount x;
     totalTasks := totalTasks x; socket := socket x; statuses := statuses x;
     reconnectAttempts := reconnectAttempts x; current := current x; queue := queue x;
     resultBuffer := resultBuffer x; flushTimerId := flushTimerId x;
     sockets := sockets x; timers := timers x; next_timer := next_timer x; now := v |}.

(** *** Actions of the stores *)

(** An action of a store changes the state and returns or throws; what it
    did before an exception stays done. *)
Definition Act (A : Type) : Type := State -> result A * State.

Definition ret {A} (a : A) : Act A := fun st => (Ok a, st).
Definition throw {A} (e : string) : Act A := fun st => (Throw e, st).
Definition bind {A B} (m : Act A) (k : A -> Act B) : Act B :=
  fun st => match m st with
            | (Ok a, st') => k a st'
            | (Throw e, st') => (Throw e, st')
            end.
Definition lift {A} (r : result A) : Act A := fun st => (r, st).
Definition modify (f : State -> State) : Act unit := fun st => (Ok tt, f st).

Declare Scope store_scope.
Delimit Scope store_scope with store.
Notation "'let*' x := m 'in' k" := (bind m (fun x => k))
  (at level 10, x pattern, k at level 200) : store_scope.
Notation "m ;;; k" := (bind m (fun _ => k))
  (at level 100, right associativity) : store_scope.
Local Open Scope store_scope.

(** How an action ends, and the state it leaves; an exception that no one
    catches ends the event handler, and the page goes on from that state. *)
Definition outcome {A} (m : Act A) (st : State) : result A := fst (m st).
Definition after {A} (m : Act A) (st : State) : State := snd (m st).

(** The double quote. *)
Definition dquote : ascii := byte 34.

(** [text] between double quotes. *)
Definition quoted (text : string) : string :=
  String dquote (text +:+ String dquote "").

(** The [replace] of [escapeHtml]: the ampersand, the two angle brackets
    and the two quotes give way to their entities; on UTF-8 text. *)
Fixpoint escape (str : string) : string :=
  match str with
  | EmptyString => ""
  | String c rest =>
      (if Ascii.eqb c "&"%char then "&amp;"
       else if Ascii.eqb c "<"%char then "&lt;"
       else if Ascii.eqb c ">"%char then "&gt;"
       else if Ascii.eqb c dquote then "&quot;"
       else if Ascii.eqb c "'"%char then "&#39;"
       else String c "") +:+ escape rest
  end.

(** The token, then [inner] in parentheses inside a span of class
    [message]. *)
Definition message_span (safeToken inner : string) : string :=
  safeToken +:+ " <span class=" +:+ quoted "message" +:+ ">(" +:+ inner +:+ ")</span>".

(** The balance, inside a span of class [balance-${balClass}]. *)
Definition balance_span (balClass shown : string) : string :=
  "余额: <span class=" +:+ quoted ("balance-" +:+ balClass) +:+ ">" +:+ shown
  +:+ "</span>".

(** [hay.includes(needle)] *)
Fixpoint includes (needle hay : string) : bool :=
  String.prefix needle hay ||
  match hay with
  | EmptyString => false
  | String _ rest => includes needle rest
  end.

(** [v === n] for a number [n] *)
Definition is_num (v : value) (n : Z) : bool :=
  match v with VNum x => num_eqb x (num_of_Z n) | _ => false end.

Section Stores.
Context `{Host}.
(** [PROVIDERS], the table of provider descriptors ([providers.json]). *)
Variable PROVIDERS : string -> option Checkers.providerMeta.

(** *** The [results] store *)

(** [escapeHtml(text)] *)
Definition escapeHtml (text : value) : result string :=
  if nullish text then Ok ""
  else let? str := String_ text in Ok (escape str).

(** The class of a balance: high from 10 on, medium above 0, else low. *)
Definition balClass_of (bal : value) : result string :=
  let? high := ge_number bal (num_of_Z 10) in
  if high : bool then Ok "high"
  else
    let? medium := gt_number bal (num_of_Z 0) in
    Ok (if medium : bool then "medium" else "low").

(** [`$${res.balance.toFixed(2)}`] *)
Definition dollars (amount : value) : result string :=
  let? fixed := toFixed_ amount 2 in Ok ("$" +:+ fixed).

(** [`${res.balance} ${escapeHtml(res.currency)}`] *)
Definition with_currency (res : object) : result string :=
  let? amount := String_ (lookup_field "balance" res) in
  let? currency := escapeHtml (lookup_field "currency" res) in
  Ok (amount +:+ " " +:+ currency).

(** [displayTextFormatters.openrouter] *)
Definition displayTextFormatters_openrouter (res : object) : result string :=
  let? safeToken := escapeHtml (lookup_field "token" res) in
  let bal := lookup_field "balance" res in
  let? balClass := balClass_of bal in
  let? shown := escapeHtml bal in
  let? total := escapeHtml (lookup_field "totalBalance" res) in
  Ok (message_span safeToken (balance_span balClass (shown +:+ " / " +:+ total))).

(** [displayTextFormatters.deepseek] *)
Definition displayTextFormatters_deepseek (res : object) : result string :=
  let? safeToken := escapeHtml (lookup_field "token" res) in
  let bal := lookup_field "balance" res in
  let? balClass := balClass_of bal in
  let? balanceDisplay :=
    if is_str (lookup_field "currency" res) "USD"
    then dollars (lookup_field "balance" res)
    else with_currency res in
  let? shown := escapeHtml (VStr balanceDisplay) in
  let? granted := escapeHtml (lookup_field "grantedBalance" res) in
  let? toppedUp := escapeHtml (lookup_field "toppedUpBalance" res) in
  Ok (message_span safeToken
        (balance_span balClass shown +:+ " | 赠送: " +:+ granted
         +:+ " | 充值: " +:+ toppedUp)).

(** [displayTextFormatters.default] *)
Definition displayTextFormatters_default (res : object) : result string :=
  let? safeToken := escapeHtml (lookup_field "token" res) in
  let bal := lookup_field "balance" res in
  let? balClass := balClass_of bal in
  let? balanceDisplay := if bal is VUndefined then Ok "-" else String_ bal in
  let currency := lookup_field "currency" res in
  let? balanceDisplay :=
    if is_str currency "USD" then dollars (lookup_field "balance" res)
    else if truthy currency then with_currency res
    else Ok balanceDisplay in
  let totalGranted := lookup_field "totalGranted" res in
  let? extraInfo :=
    if totalGranted is VUndefined then Ok ""
    else
      let? grantedDisplay :=
        if is_str currency "USD"
        then (let? text := dollars totalGranted in Ok (VStr text))
        else Ok totalGranted in
      let? shown := escapeHtml grantedDisplay in
      Ok (" | 总额: " +:+ shown) in
  let expiresAt := lookup_field "expiresAt" res in
  let? extraInfo :=
    if expiresAt is VUndefined then Ok extraInfo
    else
      let? expiresDate :=
        if is_zero expiresAt then Ok "永不"
        else (let? ms := mul_number expiresAt (num_of_Z 1000) in
              Ok (Date_toLocaleDateString ms)) in
      let? shown := escapeHtml (VStr expiresDate) in
      Ok (extraInfo +:+ " | 过期: " +:+ shown) in
  let? shown := escapeHtml (VStr balanceDisplay) in
  Ok (message_span safeToken (balance_span balClass shown +:+ extraInfo)).

(** [displayTextFormatters.noBalance] *)
Definition displayTextFormatters_noBalance (res : object) : result string :=
  let? safeToken := escapeHtml (lookup_field "token" res) in
  Ok (message_span safeToken "状态: 有效").

(** [displayTextFormatters[provider]], for a provider name that no
    prototype defines. *)
Definition displayTextFormatters (provider : string)
  : option (object -> result string) :=
  if String.eqb provider "openrouter" then Some displayTextFormatters_openrouter
  else if String.eqb provider "deepseek" then Some displayTextFormatters_deepseek
  else if String.eqb provider "default" then Some displayTextFormatters_default
  else if String.eqb provider "noBalance" then Some displayTextFormatters_noBalance
  else None.

(** [getDisplayText(res, provider)] *)
Definition getDisplayText (res : object) (provider : string) : result string :=
  let? safeToken := escapeHtml (lookup_field "token" res) in
  if is_str (lookup_field "finalCategory" res) "duplicate"
  then Ok (message_span safeToken "重复")
  else if negb (truthy (lookup_field "isValid" res)) then
    let? safeMessage :=
      escapeHtml (js_or (lookup_field "message" res) (VStr "未知错误")) in
    Ok (message_span safeToken safeMessage)
  else
    match PROVIDERS provider with
    | None => Throw "Cannot read properties of undefined (reading 'hasBalance')"
    | Some meta =>
        if negb (Checkers.hasBalance meta) then displayTextFormatters_noBalance res
        else
          match displayTextFormatters provider with
          | Some formatter => formatter res
          | None => displayTextFormatters_default res
          end
    end.

(** The [details] of [buildResultItem], members in the order they are
    added. *)
Definition details_of (res : object) : object :=
  let when_truthy (k k' : string) :=
    if truthy (lookup_field k' res) then [(k, lookup_field k' res)] else [] in
  let when_defined (k : string) :=
    if lookup_field k res is VUndefined then [] else [(k, lookup_field k res)] in
  when_truthy "error_details" "rawError"
  ++ when_truthy "validation_response" "rawResponse"
  ++ when_truthy "balance_response" "rawBalanceResponse"
  ++ when_defined "totalGranted"
  ++ when_defined "expiresAt"
  ++ when_truthy "currency" "currency"
  ++ when_defined "grantedBalance".

(** [buildResultItem(res, order, provider)]; [None] is [null]. The final
    category of a result is a string the checker store has written. *)
Definition buildResultItem (res : object) (order : value) (provider : string)
  : result (option (category * item)) :=
  match category_of_name (lookup_field "finalCategory" res) with
  | None => Ok None
  | Some c =>
      let? displayText := getDisplayText res provider in
      let details := details_of res in
      let? token_text := String_ (lookup_field "token" res) in
      let? order_text := String_ order in
      Ok (Some (c,
                {| item_id := token_text +:+ "-" +:+ order_text;
                   item_token := lookup_field "token" res;
                   item_displayText := displayText;
                   item_balance := lookup_field "balance" res;
                   item_order := order;
                   item_details := if details is [] then None else Some details |}))
  end.

(** The first loop of [addResults]: what was built, in order, each with its
    category; the first exception ends the loop. *)
Fixpoint group_items (provider : string) (items : list entry)
  : result (list (category * item)) :=
  match items with
  | [] => Ok []
  | e :: items' =>
      let? built := buildResultItem (res e) (entry_order e) provider in
      let? grouped := group_items provider items' in
      Ok (match built with
          | Some b => b :: grouped
          | None => grouped
          end)
  end.

(** [addResults(items)]: nothing is stored before every item is built. *)
Definition addResults (items : list entry) : Act unit :=
  fun st =>
    match items with
    | [] => (Ok tt, st)
    | _ =>
        let provider := currentProvider (config st) in
        match group_items provider items with
        | Throw e => (Throw e, st)
        | Ok grouped =>
            (Ok tt,
             set_results
               (fun c => results st c ++ map snd (filter (fun ci => ci.1 = c) grouped))
               st)
        end
    end.

Definition clearResults (st : State) : State := set_results (fun _ => []) st.

(** *** [categorizeTokenError]; only the category is used by the store. *)

Definition quotaKeywords : list string :=
  ["insufficient"; "credit"; "quota"; "balance"; "billing"; "paid"; "top up"].

Definition categorizeTokenError (res : object) : result category :=
  if truthy (lookup_field "isValid" res) then Ok valid
  else
    let rawError := lookup_field "rawError" res in
    let message := lookup_field "message" res in
    let status := js_or (opt_get rawError "status") (vnum 0) in
    let text : result string :=
      if truthy message
      then (if message is VStr m then Ok m
            else Throw "toLowerCase is not a function")
      else Ok (if rawError is VUndefined then "" else JSON_stringify rawError) in
    match text with
    | Throw e => Throw e
    | Ok text =>
        let lowerCaseMessage := toLowerCase text in
        let errorContent := js_or (opt_get rawError "content") (VObj []) in
        let errorCode :=
          js_or (opt_get (opt_get errorContent "error") "code")
                (opt_get errorContent "code") in
        let errorType :=
          js_or (opt_get (opt_get errorContent "error") "type")
                (opt_get errorContent "type") in
        Ok (if is_num status 401 || is_str errorCode "invalid_api_key"
               || is_str errorType "invalid_api_key" then invalid
            else if is_str errorType "access_terminated" then invalid
            else if is_num status 402 then noQuota
            else if is_str errorCode "insufficient_quota"
                    || is_str errorType "insufficient_quota" then noQuota
            else if includes "doesn't have a free quota tier" lowerCaseMessage
                 then noQuota
            else if existsb (fun kw => includes kw lowerCaseMessage) quotaKeywords
                 then noQuota
            else if is_num status 429 then rateLimit
            else invalid)  (* the remaining tests only pick the wording *)
    end.

(** *** Timers *)

Definition setTimeout (cb : callback) (delay : nat) (st : State) : nat * State :=
  let id := next_timer st in
  (id, set_next_timer (S id)
         (set_timers (timers st ++ [{| timer_id := id; due := now st + delay;
                                       timer_callback := cb |}]) st)).

Definition clearTimeout (id : nat) (st : State) : State :=
  set_timers (filter (fun t => timer_id t <> id) (timers st)) st.

(** *** The [checker] store *)

Definition _postStatus (s : status) (st : State) : State :=
  set_statuses (statuses st ++ [s]) st.

(** [flushResultBuffer()]: the buffer is emptied and the timer cleared
    before the results are handed over. *)
Definition flushResultBuffer : Act unit :=
  fun st =>
    match resultBuffer st with
    | [] => (Ok tt, st)
    | itemsToAdd =>
        let st := set_resultBuffer [] st in
        let st :=
          match flushTimerId st with
          | Some id => set_flushTimerId None (clearTimeout id st)
          | None => st
          end in
        addResults itemsToAdd st
    end.

(** [bufferResult(res, order)] *)
Definition bufferResult (r : object) (order : value) : Act unit :=
  fun st =>
    let st :=
      set_resultBuffer (resultBuffer st ++ [{| res := r; entry_order := order |}]) st in
    if (BUFFER_MAX_SIZE <=? length (resultBuffer st))%nat then flushResultBuffer st
    else
      match flushTimerId st with
      | None =>
          let (id, st) := setTimeout CallFlush BUFFER_FLUSH_INTERVAL st in
          (Ok tt, set_flushTimerId (Some id) st)
      | Some _ => (Ok tt, st)
      end.

(** The final category [processResult] writes into a valid result of a
    provider with a balance. *)
Definition balance_category (balance : value) (threshold : number) : result category :=
  if is_zero balance then Ok zeroBalance
  else
    match lt_number balance threshold with
    | Throw e => Throw e
    | Ok true => Ok lowBalance
    | Ok false => Ok valid
    end.

(** The result as [processResult] hands it to the buffer. *)
Definition categorized (r : object) (st : State) : result object :=
  let? category := categorizeTokenError r in
  let r := set_field "finalCategory" (VStr (category_name category)) r in
  if truthy (lookup_field "isValid" r) then
    match PROVIDERS (currentProvider (config st)) with
    | None => Throw "Cannot read properties of undefined (reading 'hasBalance')"
    | Some meta =>
        if Checkers.hasBalance meta
        then
          let? c := balance_category (lookup_field "balance" r) (threshold (config st)) in
          Ok (set_field "finalCategory" (VStr (category_name c)) r)
        else Ok r
    end
  else Ok r.

(** [processResult(res)] *)
Definition processResult (r : object) : Act unit :=
  modify (fun st => set_completedCount (S (completedCount st)) st) ;;;
  let* r := (fun st => (categorized r st, st)) in
  bufferResult r (lookup_field "order" r).

(** [finishCheck()] *)
Definition finishCheck : Act unit :=
  flushResultBuffer ;;;
  modify (fun st =>
    let st := set_isChecking false st in
    let st := set_queue None st in
    let st := set_current None st in
    let summaryParts :=
      omap (fun c => let count := length (results st c) in
                     if (0 <? count)%nat then Some (c, count) else None) CATEGORIES in
    _postStatus (Finished summaryParts) st).

Definition new_WebSocket (pc : Checkers.providerConfig) (b : list key) (n : nat)
  : WebSocket :=
  {| ready := CONNECTING; onclose_set := true; l_providerConfig := pc; l_batch := b;
     l_concurrency := n; session := WorkerPool.new_TaskManager; delivered := 0;
     close_seen := false |}.

(** [_connectWebSocket(providerConfig, batch, concurrency)]: a new socket
    becomes [socket.value] and gets its listeners. *)
Definition _connectWebSocket (pc : Checkers.providerConfig) (b : list key) (n : nat)
    (st : State) : State :=
  let id := length (sockets st) in
  set_socket (Some id) (set_sockets (sockets st ++ [new_WebSocket pc b n]) st).

(** [processNextBatch()] *)
Definition processNextBatch : Act unit :=
  fun st =>
    if isPaused st then (Ok tt, st)
    else
      let st := set_reconnectAttempts 0 st in
      match queue st with
      | None => finishCheck st
      | Some jq =>
          match remainingKeys jq with
          | [] => finishCheck st
          | keys =>
              let b := take BATCH_SIZE keys in
              let remaining := drop BATCH_SIZE keys in
              let st :=
                set_current (Some {| batch := b;
                                     cb_providerConfig := jq_providerConfig jq;
                                     cb_concurrency := jq_concurrency jq |}) st in
              let st :=
                set_queue (Some {| remainingKeys := remaining;
                                   jq_providerConfig := jq_providerConfig jq;
                                   jq_concurrency := jq_concurrency jq |}) st in
              let st :=
                _postStatus (Processing (Z.of_nat (totalTasks st) - Z.of_nat (length remaining))
                                        (Z.of_nat (totalTasks st))) st in
              (Ok tt, _connectWebSocket (jq_providerConfig jq) b (jq_concurrency jq) st)
          end
      end.

Definition update_socket (id : nat) (f : WebSocket -> WebSocket) (st : State) : State :=
  set_sockets (alter f id (sockets st)) st.

(** [ws.close(1000, reason)] called by the page: no message is handled
    afterwards. *)
Definition ws_close (id : nat) (st : State) : State :=
  update_socket id (set_ready CLOSED) st.

(** [if (socket.value) { socket.value.onclose = null;
    socket.value.close(1000, ...); socket.value = null; }] *)
Definition drop_socket (st : State) : State :=
  match socket st with
  | Some id =>
      set_socket None (ws_close id (update_socket id (set_onclose_set false) st))
  | None => st
  end.

(** [stopCheck()] *)
Definition stopCheck : Act unit :=
  flushResultBuffer ;;;
  modify (fun st =>
    let st := set_isChecking false st in
    let st := set_isPaused false st in
    let st := set_queue None st in
    let st := set_current None st in
    let st := drop_socket st in
    _postStatus Stopped st).

(** [pauseCheck()] *)
Definition pauseCheck : Act unit :=
  fun st =>
    if negb (isChecking st) || isPaused st then (Ok tt, st)
    else
      (flushResultBuffer ;;;
       modify (fun st =>
         let st := set_isPaused true st in
         let st :=
           match current st, queue st with
           | Some cb, Some jq =>
               if (0 <? length (batch cb))%nat
               then set_queue (Some {| remainingKeys := batch cb ++ remainingKeys jq;
                                       jq_providerConfig := jq_providerConfig jq;
                                       jq_concurrency := jq_concurrency jq |}) st
               else st
           | _, _ => st
           end in
         let st := _postStatus Paused st in
         let st := drop_socket st in
         set_current None st)) st.

(** [resumeCheck()] *)
Definition resumeCheck : Act unit :=
  fun st =>
    if negb (isChecking st) || negb (isPaused st) then (Ok tt, st)
    else
      let st := set_isPaused false st in
      let st := _postStatus Resumed st in
      processNextBatch st.

(** The [forEach] of [startCheck]: the tokens seen so far, the keys to
    process and the results for the repeats. *)
Record sorting := {
  uniqueTokens : gset string;
  keysToProcess : list key;
  duplicateResults : list entry;
}.

Definition sort_key (acc : sorting) (keyObj : key) : sorting :=
  if decide (token keyObj ∈ uniqueTokens acc)
  then {| uniqueTokens := uniqueTokens acc;
          keysToProcess := keysToProcess acc;
          duplicateResults :=
            duplicateResults acc ++
            [{| res := [("token", VStr (token keyObj));
                        ("finalCategory", VStr "duplicate")];
                entry_order := vnum (Z.of_nat (order keyObj)) |}] |}
  else {| uniqueTokens := {[token keyObj]} ∪ uniqueTokens acc;
          keysToProcess := keysToProcess acc ++ [keyObj];
          duplicateResults := duplicateResults acc |}.

Definition sort_keys (allKeys : list key) : sorting :=
  fold_left sort_key allKeys
    {| uniqueTokens := ∅; keysToProcess := []; duplicateResults := [] |}.

(** [tokensRaw.map((token, index) => ({ token, order: index }))] *)
Definition allKeys_of (tokensRaw : list string) : list key :=
  imap (fun index token => {| token := token; order := index |}) tokensRaw.

(** [startCheck()] from the point where [tokensRaw] has been read. *)
Definition startCheck_with (tokensRaw : list string) : Act unit :=
  fun st =>
    if (MAX_KEYS_LIMIT <? Z.of_nat (length tokensRaw))%Z
    then (Ok tt, _postStatus TooManyKeys st)
    else
      let sorted := sort_keys (allKeys_of tokensRaw) in
      ((if (0 <? length (duplicateResults sorted))%nat
        then addResults (duplicateResults sorted) ;;;
             modify (_postStatus (FilteredDuplicates (length (duplicateResults sorted))))
        else ret tt) ;;;
       fun st =>
         match keysToProcess sorted with
         | [] => (Ok tt, _postStatus NothingToCheck st)
         | keys =>
             let st := set_isChecking true st in
             let st := set_isPaused false st in
             let st := set_totalTasks (length keys) st in
             let c := config st in
             match providerConfigs c (currentProvider c) with
             | None =>
                 (Throw "Cannot read properties of undefined (reading 'baseUrl')", st)
             | Some providerSettings =>
                 let providerConfig :=
                   {| Checkers.provider := VStr (currentProvider c);
                      Checkers.baseUrl := ps_baseUrl providerSettings;
                      Checkers.model := ps_model providerSettings;
                      Checkers.region := currentRegion c;
                      Checkers.enableStream := ps_enableStream providerSettings;
                      Checkers.validationPrompt := validationPrompt c;
                      Checkers.validationMaxTokens := validationMaxTokens c;
                      Checkers.validationMaxOutputTokens :=
                        validationMaxOutputTokens c |} in
                 let st :=
                   set_queue (Some {| remainingKeys := keys;
                                      jq_providerConfig := providerConfig;
                                      jq_concurrency := concurrency c |}) st in
                 let st := _postStatus (Starting (length keys)) st in
                 processNextBatch st
             end
         end) st.

(** [startCheck()] *)
Definition startCheck : Act unit :=
  fun st =>
    if String.eqb (trim (tokensInput (config st))) ""
    then (Ok tt, _postStatus EnterAtLeastOneKey st)
    else
      let st := set_queue None st in
      let st := clearResults st in
      let st := set_completedCount 0 st in
      startCheck_with (tokensRaw_of (tokensInput (config st))) st.

(** *** The listeners of a socket *)

Definition providerConfig_value (pc : Checkers.providerConfig) : value :=
  VObj [("provider", Checkers.provider pc);
        ("baseUrl", Checkers.baseUrl pc);
        ("model", Checkers.model pc);
        ("enableStream", Checkers.enableStream pc);
        ("region", Checkers.region pc);
        ("validationPrompt", Checkers.validationPrompt pc);
        ("validationMaxTokens", Checkers.validationMaxTokens pc);
        ("validationMaxOutputTokens", Checkers.validationMaxOutputTokens pc)].

(** The [data] of the [start] command as the session reads it. *)
Definition start_data (ws : WebSocket) : WorkerPool.initialData :=
  {| WorkerPool.tokens := VArr (map key_value (l_batch ws));
     WorkerPool.providerConfig :=
       Checkers.denoted (providerConfig_value (l_providerConfig ws));
     WorkerPool.initial_concurrency := l_concurrency ws |}.

(** [onopen] of socket [id]: the [start] command goes out on
    [socket.value]. Sending on a socket that is still connecting throws;
    a socket that is closing swallows the message; reading [send] of
    [null] throws. *)
Definition onopen (id : nat) : Act unit :=
  fun st =>
    match sockets st !! id, socket st with
    | Some ws, Some cur =>
        match ready <$> sockets st !! cur with
        | Some OPEN =>
            (Ok tt,
             update_socket cur
               (fun target =>
                  set_session (WorkerPool.start PROVIDERS (start_data ws) (session target))
                              target) st)
        | Some CONNECTING =>
            (Throw "Failed to execute 'send' on 'WebSocket': Still in CONNECTING state.",
             st)
        | _ => (Ok tt, st)
        end
    | Some _, None => (Throw "Cannot read properties of null (reading 'send')", st)
    | None, _ => (Ok tt, st)
    end.

(** A message of the session, parsed. *)
Inductive message :=
| ResultMessage (data : object)
| StatusMessage (text : string)
| ErrorMessage (text : string)
| DoneMessage (text : string).

(** What [ws.send(JSON.stringify(...))] of a callback puts on the wire. *)
Definition message_of (s : WorkerPool.signal) : message :=
  match s with
  | WorkerPool.OnResult payload =>
      ResultMessage (if Checkers.denoted (VObj payload) is VObj data then data else [])
  | WorkerPool.OnStatus m => StatusMessage m
  | WorkerPool.OnError m => ErrorMessage m
  | WorkerPool.OnDone m => DoneMessage m
  | WorkerPool.Caught m => ErrorMessage m
  end.

(** [k.order !== data.order] *)
Definition other_order (data : object) (k : key) : Prop :=
  is_num (lookup_field "order" data) (Z.of_nat (order k)) = false.

Global Instance other_order_dec data k : Decision (other_order data k).
Proof. unfold other_order. apply _. Defined.

(** [onmessage] *)
Definition onmessage (m : message) : Act unit :=
  match m with
  | ResultMessage data =>
      processResult data ;;;
      modify (fun st =>
        match current st with
        | Some cb =>
            set_current (Some {| batch := filter (other_order data) (batch cb);
                                 cb_providerConfig := cb_providerConfig cb;
                                 cb_concurrency := cb_concurrency cb |}) st
        | None => st
        end)
  | DoneMessage _ =>
      fun st =>
        let st := set_current None st in
        match socket st with
        | None => (Throw "Cannot read properties of null (reading 'close')", st)
        | Some cur =>
            let st := ws_close cur st in
            (Ok tt, snd (setTimeout CallProcessNextBatch 100 st))
        end
  | ErrorMessage text =>
      modify (_postStatus (BackendError (VStr text))) ;;; stopCheck
  | StatusMessage _ => ret tt
  end.

(** [onclose], given [event.code] *)
Definition onclose (code : Z) : Act unit :=
  fun st =>
    if negb (code =? 1000)%Z && isChecking st && negb (isPaused st) then
      if (reconnectAttempts st <? MAX_RECONNECT_ATTEMPTS)%nat
         && (if current st is Some cb then (0 <? length (batch cb))%nat else false)
      then
        let st := set_reconnectAttempts (S (reconnectAttempts st)) st in
        let st := _postStatus (Reconnecting (reconnectAttempts st)) st in
        (Ok tt, snd (setTimeout CallReconnect (1000 * reconnectAttempts st) st))
      else stopCheck (_postStatus ReconnectFailed st)
    else (Ok tt, st).

(** The arrow function [onclose] hands to [setTimeout]. *)
Definition reconnect : Act unit :=
  fun st =>
    if isChecking st && negb (isPaused st) then
      match current st with
      | Some cb =>
          (Ok tt,
           _connectWebSocket (cb_providerConfig cb) (batch cb) (cb_concurrency cb) st)
      | None => (Throw "Cannot read properties of null (reading 'providerConfig')", st)
      end
    else (Ok tt, st).

Definition run_callback (cb : callback) : Act unit :=
  match cb with
  | CallProcessNextBatch => processNextBatch
  | CallReconnect => reconnect
  | CallFlush => flushResultBuffer
  end.

(** *** Runs *)

(** What can happen next: an action of the user, time passing, a timer
    firing, a connection opening, something happening in a session, a
    message of a session reaching the page, a socket closing. *)
Inductive event :=
| StartCheck
| PauseCheck
| ResumeCheck
| StopCheck
| Elapse (ms : nat)
| Fire (id : nat)
| Opened (id : nat)
| Server (id : nat) (e : WorkerPool.event)
| Deliver (id : nat)
| Closed (id : nat) (code : Z).

(** One event; [None] when it cannot happen in this state. An exception of
    a handler is reported on the console, and the stores stay as the
    handler left them. *)
Definition step (e : event) (st : State) : option State :=
  match e with
  | StartCheck => Some (after startCheck st)
  | PauseCheck => Some (after pauseCheck st)
  | ResumeCheck => Some (after resumeCheck st)
  | StopCheck => Some (after stopCheck st)
  | Elapse ms => Some (set_now (now st + ms) st)
  | Fire id =>
      match List.find (fun t => (timer_id t =? id)%nat) (timers st) with
      | Some t =>
          if (due t <=? now st)%nat
          then Some (after (run_callback (timer_callback t)) (clearTimeout id st))
          else None
      | None => None
      end
  | Opened id =>
      match sockets st !! id with
      | Some ws =>
          if ready ws is CONNECTING
          then Some (after (onopen id) (update_socket id (set_ready OPEN) st))
          else None
      | None => None
      end
  | Server id e =>
      match sockets st !! id with
      | Some ws =>
          Some (update_socket id (set_session (WorkerPool.step e (session ws))) st)
      | None => None
      end
  | Deliver id =>
      match sockets st !! id with
      | Some ws =>
          match ready ws, WorkerPool.calls (session ws) !! delivered ws with
          | OPEN, Some s =>
              Some (after (onmessage (message_of s))
                      (update_socket id (set_delivered (S (delivered ws))) st))
          | _, _ => None
          end
      | None => None
      end
  | Closed id code =>
      match sockets st !! id with
      | Some ws =>
          if close_seen ws then None
          else
            let st := update_socket id (fun w => set_close_seen true (set_ready CLOSED w)) st in
            Some (if onclose_set ws then after (onclose code) st else st)
      | None => None
      end
  end.

Fixpoint run (evs : list event) (st : State) : option State :=
  match evs with
  | [] => Some st
  | e :: evs' =>
      match step e st with
      | Some st' => run evs' st'
      | None => None
      end
  end.

(** How many results the result store holds, over all categories. *)
Definition stored (st : State) : nat :=
  sum_list (map (fun c => length (results st c)) CATEGORIES).
End Stores.

(** The stores when the page has loaded. *)
Definition initial (c : Config) : State :=
  {| config := c; results := fun _ => []; isChecking := false; isPaused := false;
     completedCount := 0; totalTasks := 0; socket := None; statuses := [];
     reconnectAttempts := 0; current := None; queue := None; resultBuffer := [];
     flushTimerId := None; sockets := []; timers := []; next_timer := 0; now := 0 |}.

End Orchestrator.

(** ** Vocabulary of the statements *)

Module Spec.
Import JS Checkers.
Local Open Scope js_scope.

(** The requests a log holds, in order. *)
Definition fetches (log : list io) : list request :=
  omap (fun e => if e is IoFetch rq then Some rq else None) log.

(** What is done to the body stream, in order. *)
Definition stream_ops (log : list io) : list io :=
  List.filter (fun e => match e with
                        | IoGetReader | IoRead | IoCancel | IoReleaseLock => true
                        | _ => false
                        end) log.

(** What [handleApiError] keeps of a body text: the parsed value, or the raw
    text when it is not JSON. *)
Definition content_of (t : text) : value :=
  match parsed t with
  | Some v => v
  | None => VStr (raw t)
  end.

(** The error payload that makes the style-A strategy retry. *)
Definition retry_trigger (content : value) : bool :=
  let err := opt_get content "error" in
  is_str (opt_get err "code") "unsupported_parameter"
  && is_str (opt_get err "param") "max_tokens".

(** The members of the body of the retried request, given those of the
    first request. *)
Definition retried_body (pc : providerConfig) (body1 : object) : object :=
  members_with denoted
    (set_field "max_completion_tokens"
       (js_or (validationMaxOutputTokens pc) (vnum 16))
       (delete_field "max_tokens" body1)).

Definition with_body (o : options) (b : object) : options :=
  {| method := method o; headers := headers o; body := Some (VObj b) |}.

(** The strategy the retry runs with: the rewritten request, no [onFail]. *)
Definition retry_strategy (url : string) (o : options) (b : object) : strategy :=
  {| buildRequest := fun _ _ => Ok (url, with_body o b); onFail := None |}.

Definition is_valid (r : object) : value := lookup_field "isValid" r.

(** [n] slashes. *)
Fixpoint slashes (n : nat) : string :=
  match n with
  | 0 => ""
  | S n' => String "/"%char (slashes n')
  end.

(** [m] sends at most [n] requests, and what it returns satisfies [Q]. *)
Definition bounded {A} (m : M A) (n : nat) (Q : A -> Prop) : Prop :=
  forall log,
    let (o, log') := m log in
    (exists extra, fetches log' = fetches log ++ extra /\ length extra <= n)
    /\ (forall a, o = Ok a -> Q a).

(** A result names its token and carries a boolean [isValid]. *)
Definition well_formed (token : string) (r : object) : Prop :=
  lookup_field "token" r = VStr token
  /\ exists b, lookup_field "isValid" r = VBool b.

(** The members a balance adapter never writes. *)
Definition keeps_verdict (r : object) : Prop :=
  has_field "token" r = false /\ has_field "isValid" r = false.

Section Validation.
Context `{Host}.
Variable secureProxiedFetch : request -> fetch_outcome.

(** The adapter [_checkTokenTemplate] finds for a provider. *)
Definition found_adapter (meta : providerMeta)
  : option (string -> value -> value -> M object) :=
  balanceCheck meta ≫= (fun name =>
    if String.eqb name "" then None else balanceCheckers secureProxiedFetch name).

(** What a strategy's [onFail] may do: at most one request, and a result
    that is well formed. *)
Definition onFail_ok (token : string) (pc : providerConfig) (strat : strategy) : Prop :=
  forall f, onFail strat = Some f ->
    forall err,
      bounded (f err token pc) 1
        (fun o => forall r, o = Some r -> well_formed token r).
End Validation.

Section Rules.
Context `{Host}.

(** A rule applies when its value is truthy, and then renders it. *)
Definition when_truthy (v : value) (render : value -> result string)
  : result (option string) :=
  if truthy v then (let? m := render v in Ok (Some m)) else Ok None.

(** The rules of the error message in the order the specification gives
    them; a rule that applies yields its message, and a rule may throw
    where a conversion does. *)
Definition message_rules (status : Z) (content : value)
  : list (result (option string)) :=
  let error := opt_get content "error" in
  [ when_truthy (opt_get (opt_first (opt_get error "details")) "reason") String_;
    (if truthy (opt_get error "code")
     then (let? nan := isNaN (opt_get error "code") in
           if nan : bool then when_truthy (opt_get error "code") String_ else Ok None)
     else Ok None);
    when_truthy (opt_get error "message") String_;
    when_truthy (opt_get content "message") String_;
    when_truthy (opt_get (opt_get content "errors") "message") String_;
    when_truthy (opt_get content "detail")
      (fun d => if typeof_object d then Ok (JSON_stringify d) else String_ d);
    Ok (if decide (status = 401%Z) then Some "认证失败" else None);
    Ok (if decide (status = 429%Z) then Some "请求频繁" else None) ].

(** The fallback when no rule applies. *)
Definition fallback_message (status : Z) : string :=
  "HTTP " +:+ Number_toString (num_of_Z status).

(** The message of the first rule that applies, the fallback when none
    does; an exception met on the way is the outcome. *)
Fixpoint first_applicable (rules : list (result (option string))) (fallback : string)
  : result string :=
  match rules with
  | [] => Ok fallback
  | Throw e :: _ => Throw e
  | Ok (Some m) :: _ => Ok m
  | Ok None :: rules' => first_applicable rules' fallback
  end.
End Rules.

End Spec.

Module StoreSpec.
Import JS Orchestrator.

(** The keys [allKeys] holds from position [n] on. *)
Definition keys_from (n : nat) (l : list string) : list key :=
  imap (fun index token => {| token := token; order := n + index |}) l.

(** The keys of the raw list whose token did not occur before them. *)
Definition first_occurrences (tokensRaw : list string) : list key :=
  filter (fun k => token k ∉ take (order k) tokensRaw) (allKeys_of tokensRaw).

(** The keys of the raw list whose token occurred before them. *)
Definition later_occurrences (tokensRaw : list string) : list key :=
  filter (fun k => token k ∈ take (order k) tokensRaw) (allKeys_of tokensRaw).

(** The result [startCheck] emits for a repeated key. *)
Definition duplicate_entry (k : key) : entry :=
  {| res := [("token", VStr (token k)); ("finalCategory", VStr "duplicate")];
     entry_order := vnum (Z.of_nat (order k)) |}.

(** What the result store keeps of it. *)
Definition duplicate_item `{Host} (k : key) : item :=
  {| item_id := token k +:+ "-" +:+ Number_toString (num_of_Z (Z.of_nat (order k)));
     item_token := VStr (token k);
     item_displayText := message_span (escape (token k)) "重复";
     item_balance := VUndefined;
     item_order := vnum (Z.of_nat (order k));
     item_details := None |}.

(** The keys of the batch in flight and those still in the job queue. *)
Definition in_flight (st : State) : list key :=
  match current st with Some cb => batch cb | None => [] end.

Definition waiting (st : State) : list key :=
  match queue st with Some jq => remainingKeys jq | None => [] end.

(** The characters that open or close markup or a quoted attribute. *)
Definition is_markup (c : ascii) : bool :=
  Ascii.eqb c "<"%char || Ascii.eqb c ">"%char || Ascii.eqb c dquote
  || Ascii.eqb c "'"%char.

Fixpoint has_markup (s : string) : bool :=
  match s with
  | EmptyString => false
  | String c rest => is_markup c || has_markup rest
  end.

(** A text with neither such a character nor an ampersand. *)
Fixpoint is_plain (s : string) : bool :=
  match s with
  | EmptyString => true
  | String c rest => negb (is_markup c) && negb (Ascii.eqb c "&"%char) && is_plain rest
  end.

(** The credentials of which no result of [ds] speaks. *)
Definition without_result (ds : list object) (k : key) : Prop :=
  Forall (fun d => other_order d k) ds.

Global Instance without_result_dec ds k : Decision (without_result ds k).
Proof. unfold without_result. apply _. Defined.

Section Deliveries.
Context `{Host}.
Variable PROVIDERS : string -> option Checkers.providerMeta.

(** The stores after the results [ds] have reached the page, in order. *)
Definition deliver_results (ds : list object) (st : State) : State :=
  fold_left (fun st d => after (onmessage PROVIDERS (ResultMessage d)) st) ds st.

(** Those of them whose handler returned. *)
Fixpoint handled_results (ds : list object) (st : State) : list object :=
  match ds with
  | [] => []
  | d :: ds' =>
      let rest := handled_results ds' (after (onmessage PROVIDERS (ResultMessage d)) st) in
      if outcome (onmessage PROVIDERS (ResultMessage d)) st is Ok _
      then d :: rest
      else rest
  end.
End Deliveries.

(** What holds of the result buffer between two events: it stays below its
    capacity; it is empty exactly when no flush is scheduled; the scheduled
    flush is a pending timer that is due within the flush interval; timer
    ids are not reused. *)
Record buffer_inv (st : State) : Prop := {
  buf_below : length (resultBuffer st) < BUFFER_MAX_SIZE;
  buf_empty : resultBuffer st = [] <-> flushTimerId st = None;
  buf_timer : forall id, flushTimerId st = Some id ->
              exists t, t ∈ timers st /\ timer_id t = id
                        /\ timer_callback t = CallFlush
                        /\ due t <= now st + BUFFER_FLUSH_INTERVAL;
  buf_fresh : Forall (fun t => timer_id t < next_timer st) (timers st);
  buf_nodup : NoDup (map timer_id (timers st));
}.

(** The part of the state the buffer invariant reads, the clock apart. *)
Definition buffer_view (st : State) :=
  (resultBuffer st, flushTimerId st, timers st, next_timer st).

(** An action that keeps the invariant, however it ends. *)
Definition preserves {A} (m : Act A) : Prop :=
  forall st, buffer_inv st -> buffer_inv (after m st).

(** An action that leaves buffer, timers and clock alone. *)
Definition frames {A} (m : Act A) : Prop :=
  forall st, buffer_view (after m st) = buffer_view st /\ now (after m st) = now st.

(** The status [stopCheck] posts. *)
Definition is_stopped (s : status) : bool :=
  match s with Stopped => true | _ => false end.

(** The timers that will reconnect. *)
Definition reconnect_timers (st : State) : list timer :=
  filter (fun t => timer_callback t = CallReconnect) (timers st).

End StoreSpec.

Module PoolSpec.
Import JS WorkerPool.


End PoolSpec.

(** ** Concrete inputs *)

Module Sample.
Import JS Checkers.

Definition is_digit (c : ascii) : bool :=
  let n := nat_of_ascii c in ((48 <=? n) && (n <=? 57))%nat.

Fixpoint digits_value (s : string) (acc : Z) : option Z :=
  match s with
  | EmptyString => Some acc
  | String c rest =>
      if is_digit c
      then digits_value rest (10 * acc + Z.of_nat (nat_of_ascii c - 48))%Z
      else None
  end.

Definition read_integer (s : string) : number :=
  match s with
  | EmptyString => NaN
  | _ => match digits_value s 0 with Some z => num_of_Z z | None => NaN end
  end.

Definition write_number (n : number) : string :=
  match n with
  | NaN => "NaN"
  | PosInf => "Infinity"
  | NegInf => "-Infinity"
  | Fin q => pretty (Qnum q / Z.pos (Qden q))%Z
  end.

Definition arith (op : Q -> Q -> Q) (a b : number) : number :=
  match a, b with
  | Fin x, Fin y => Fin (Qred (op x y))
  | _, _ => NaN
  end.

Definition lower (c : ascii) : ascii :=
  let n := nat_of_ascii c in
  if ((65 <=? n) && (n <=? 90))%nat then ascii_of_nat (n + 32) else c.

Fixpoint lower_string (s : string) : string :=
  match s with
  | EmptyString => ""
  | String c rest => String (lower c) (lower_string rest)
  end.

(** A host for the examples: exact on the unsigned decimal integers and the
    ASCII letters they use; JSON text and dates are not inspected by any of
    them. *)
Global Instance host : Host :=
  {| Number_toString := write_number;
     StringToNumber := read_integer;
     parseFloat := read_integer;
     Number_toFixed := fun n _ => write_number n;
     Number_sub := arith Qminus;
     Number_div := arith Qdiv;
     Number_mul := arith Qmult;
     JSON_stringify := fun _ => "{}";
     toLowerCase := lower_string;
     Date_toLocaleDateString := fun _ => "1/1/1970" |}.


(** A provider of style A with a balance adapter, and its configuration. *)
Definition openrouter : providerMeta :=
  {| apiStyle := Some "openai"; balanceCheck := Some "checkOpenRouterBalance";
     hasBalance := true |}.

Definition settings (stream : bool) : providerConfig :=
  {| provider := VStr "openrouter";
     baseUrl := VStr "https://openrouter.ai/api/v1";
     model := VStr "openai/gpt-4o";
     region := VStr "wnam";
     enableStream := VBool stream;
     validationPrompt := VStr "You just need to reply Hi.";
     validationMaxTokens := vnum 1;
     validationMaxOutputTokens := vnum 16 |}.

Definition json_text (v : value) : text := {| raw := "{...}"; parsed := Some v |}.

(** A value that has no text: an object with a member named [toString]. *)
Definition unprintable : value := VObj [("toString", vnum 1)].

(** A 200 response whose stream yields a first chunk. *)
Definition completion : response :=
  {| status := 200;
     rtext := Ok (json_text (VObj [("id", VStr "chatcmpl-1")]));
     rstream := Some {| first_read := ReadChunk; cancel_rejects := None |} |}.

(** A 200 response whose stream ends at once. *)
Definition empty_stream : response :=
  {| status := 200;
     rtext := Ok {| raw := ""; parsed := None |};
     rstream := Some {| first_read := ReadDone; cancel_rejects := None |} |}.

(** The 400 response of a model that does not take [max_tokens]. *)
Definition unsupported : response :=
  {| status := 400;
     rtext := Ok (json_text
                    (VObj [("error",
                             VObj [("message", VStr "Unsupported parameter: 'max_tokens'");
                                   ("type", VStr "invalid_request_error");
                                   ("param", VStr "max_tokens");
                                   ("code", VStr "unsupported_parameter")])]));
     rstream := None |}.

(** The same refusal, with a detail whose reason has no text. *)
Definition unsupported_unprintable_text : text :=
  json_text
    (VObj [("error",
             VObj [("message", VStr "Unsupported parameter: 'max_tokens'");
                   ("type", VStr "invalid_request_error");
                   ("param", VStr "max_tokens");
                   ("code", VStr "unsupported_parameter");
                   ("details", VArr [VObj [("reason", unprintable)]])])]).

Definition unsupported_unprintable : response :=
  {| status := 400; rtext := Ok unsupported_unprintable_text; rstream := None |}.

(** A 500 response whose error message has no text. *)
Definition unprintable_message : response :=
  {| status := 500;
     rtext := Ok (json_text (VObj [("error", VObj [("message", unprintable)])]));
     rstream := None |}.

(** A 429 response with a numeric code, a message and a detail reason. *)
Definition exhausted_text : text :=
  json_text
    (VObj [("error",
             VObj [("code", vnum 429);
                   ("message", VStr "Resource has been exhausted");
                   ("status", VStr "RESOURCE_EXHAUSTED");
                   ("details", VArr [VObj [("reason", VStr "RATE_LIMIT_EXCEEDED")]])])]).

Definition exhausted : response :=
  {| status := 429; rtext := Ok exhausted_text; rstream := None |}.

(** A 429 response with a numeric code and a message. *)
Definition throttled_text : text :=
  json_text
    (VObj [("error", VObj [("code", vnum 429); ("message", VStr "Too many requests")])]).

Definition throttled : response :=
  {| status := 429; rtext := Ok throttled_text; rstream := None |}.

(** A 502 response whose body is not JSON. *)
Definition bad_gateway_text : text := {| raw := "Bad Gateway"; parsed := None |}.

Definition bad_gateway : response :=
  {| status := 502; rtext := Ok bad_gateway_text; rstream := None |}.

Definition unauthorized_text : text :=
  json_text (VObj [("error",
                    VObj [("message", VStr "Incorrect API key provided");
                          ("code", VStr "invalid_api_key")])]).

(** A 401 response with the usual error body. *)
Definition unauthorized : response :=
  {| status := 401; rtext := Ok unauthorized_text; rstream := None |}.

Definition chat_url : string := "https://openrouter.ai/api/v1/chat/completions".

(** The first request of a style-A validation with [settings false]. *)
Definition chat_options (token : string) : options :=
  POST [("Content-Type", "application/json"); ("Authorization", "Bearer " +:+ token)]
    (VObj [("model", VStr "openai/gpt-4o");
           ("messages",
             VArr [VObj [("role", VStr "user");
                         ("content", VStr "You just need to reply Hi.")]]);
           ("max_tokens", vnum 1);
           ("stream", VBool false)]).

Definition chat_request (token : string) : request :=
  {| rq_url := chat_url; rq_options := chat_options token; rq_region := VStr "wnam" |}.

Definition sends_max_tokens (rq : request) : bool :=
  match body (rq_options rq) with
  | Some (VObj fs) => has_field "max_tokens" fs
  | _ => false
  end.

(** An upstream that accepts the key, while the request for its credits
    fails in transit. *)
Definition upstream_without_credits (rq : request) : fetch_outcome :=
  if String.eqb (rq_url rq) chat_url then FetchReturns completion
  else FetchThrows "fetch failed".

(** An upstream that refuses [max_tokens] with a detail reason that has
    no text. *)
Definition upstream_unprintable (rq : request) : fetch_outcome :=
  FetchReturns unsupported_unprintable.

(** An upstream that refuses [max_tokens], whatever else is sent. *)
Definition upstream_refusing_max_tokens (rq : request) : fetch_outcome :=
  if sends_max_tokens rq then FetchReturns unsupported else FetchReturns unauthorized.


(** The provider table of the examples. *)
Definition providers (name : string) : option providerMeta :=
  if String.eqb name "openrouter" then Some openrouter
  else if String.eqb name "openai"
       then Some {| apiStyle := Some "openai"; balanceCheck := None; hasBalance := false |}
       else None.

(** The configuration store with [input] in the input box. *)
Definition config (input : string) : Orchestrator.Config :=
  {| Orchestrator.tokensInput := input;
     Orchestrator.currentProvider := "openrouter";
     Orchestrator.currentRegion := VStr "wnam";
     Orchestrator.providerConfigs := fun name =>
       if String.eqb name "openrouter"
       then Some {| Orchestrator.ps_baseUrl := VStr "https://openrouter.ai/api/v1";
                    Orchestrator.ps_model := VStr "openai/gpt-4o";
                    Orchestrator.ps_enableStream := VBool false |}
       else None;
     Orchestrator.threshold := num_of_Z 1;
     Orchestrator.concurrency := 10;
     Orchestrator.validationPrompt := VStr "You just need to reply Hi.";
     Orchestrator.validationMaxTokens := vnum 1;
     Orchestrator.validationMaxOutputTokens := vnum 16 |}.

(** The input box holding [n] times the token [t]. *)
Fixpoint repeated (n : nat) (t : string) : string :=
  match n with
  | 0 => ""
  | S n' => t +:+ "," +:+ repeated n' t
  end.

(** The stores of a freshly loaded page with [input] in the input box. *)
Definition page (input : string) : Orchestrator.State :=
  Orchestrator.initial (config input).




Definition accepted (t : string) : result object :=
  Ok [("token", VStr t); ("isValid", VBool true)].

(** One key is validated, and its result has reached the page; the done
    message has not. *)
Definition result_before_close : list Orchestrator.event :=
  [Orchestrator.StartCheck; Orchestrator.Opened 0;
   Orchestrator.Server 0 (WorkerPool.Settle 0 (accepted "k1"));
   Orchestrator.Deliver 0].

(** One key; the connection drops, and the user pauses and resumes while the
    timer of the first reconnection attempt is waiting. *)
Definition stale_reconnect : list Orchestrator.event :=
  [Orchestrator.StartCheck; Orchestrator.Opened 0;
   Orchestrator.Closed 0 1006;     (* attempt 1 is announced, timer 0 is set *)
   Orchestrator.PauseCheck; Orchestrator.ResumeCheck;
   Orchestrator.Opened 1;          (* the socket of the resumed run *)
   Orchestrator.Elapse 1000; Orchestrator.Fire 0;
   Orchestrator.Opened 2;          (* the socket of the reconnection *)
   Orchestrator.Server 2 (WorkerPool.Settle 0 (accepted "k1")); Orchestrator.Deliver 2;
   Orchestrator.Server 1 (WorkerPool.Settle 0 (accepted "k1")); Orchestrator.Deliver 1;
   Orchestrator.Server 1 (WorkerPool.Tick 0); Orchestrator.Deliver 1;
   Orchestrator.Elapse 100; Orchestrator.Fire 2].


(** The stores when the result of the only key waits in the buffer. *)
Definition result_buffered : Orchestrator.State :=
  default (page "k1") (Orchestrator.run providers result_before_close (page "k1")).

(** The stores when a run over two keys has started. *)
Definition two_keys_started : Orchestrator.State :=
  Orchestrator.after (Orchestrator.startCheck providers) (page "k1,k2").

(** The result of the first of them, as it reaches the page. *)
Definition first_result : object :=
  [("token", VStr "k1"); ("isValid", VBool true); ("order", vnum 0)].



End Sample.

(** * Properties *)

(** ** Objects *)

Module JSFacts.
Import JS Checkers.

Lemma lookup_set_field k v fs : lookup_field k (set_field k v fs) = v.
Proof.
  induction fs as [|[k' v'] fs IH]; cbn.
  - rewrite String.eqb_refl. reflexivity.
  - destruct (String.eqb k k') eqn:E; cbn; rewrite E; [reflexivity | exact IH].
Qed.

Lemma has_field_cons k k' v fs :
  has_field k ((k', v) :: fs) = String.eqb k k' || has_field k fs.
Proof. reflexivity. Qed.

Lemma has_field_delete k fs : has_field k (delete_field k fs) = false.
Proof.
  induction fs as [|[k' v'] fs IH]; [reflexivity|].
  cbn [delete_field]. destruct (String.eqb k k') eqn:E; [exact IH|].
  rewrite has_field_cons, E, IH. reflexivity.
Qed.

Lemma has_field_set_other k k' v fs :
  String.eqb k k' = false -> has_field k (set_field k' v fs) = has_field k fs.
Proof.
  intros E. induction fs as [|[k2 v2] fs IH]; cbn [set_field].
  - rewrite has_field_cons, E. reflexivity.
  - destruct (String.eqb k' k2) eqn:E2; rewrite !has_field_cons; [reflexivity|].
    rewrite IH. reflexivity.
Qed.

Lemma has_field_members f k fs :
  has_field k fs = false -> has_field k (members_with f fs) = false.
Proof.
  induction fs as [|[k' v'] fs IH]; [reflexivity|].
  rewrite has_field_cons. intros [E Hfs]%orb_false_iff.
  destruct v'; cbn [members_with]; rewrite ?has_field_cons, ?E; auto.
Qed.

Lemma lookup_members f k v fs :
  lookup_field k fs = v -> v <> VUndefined ->
  lookup_field k (members_with f fs) = f v.
Proof.
  intros Hl Hv. induction fs as [|[k' v'] fs IH]; cbn in *.
  - congruence.
  - destruct (String.eqb k k') eqn:E.
    + subst v'. destruct v; cbn; rewrite ?E; congruence.
    + destruct v'; cbn; rewrite ?E; auto.
Qed.

Lemma js_or_defined a b : b <> VUndefined -> js_or a b <> VUndefined.
Proof.
  unfold js_or. intros Hb. destruct (truthy a) eqn:E; [|exact Hb].
  intros ->. discriminate.
Qed.

Lemma lookup_set_field_other k k' v fs :
  String.eqb k k' = false -> lookup_field k (set_field k' v fs) = lookup_field k fs.
Proof.
  intros E. induction fs as [|[k2 v2] fs IH]; cbn [set_field lookup_field].
  - rewrite E. reflexivity.
  - destruct (String.eqb k' k2) eqn:E2; cbn [lookup_field].
    + apply String.eqb_eq in E2. subst k2. rewrite E. reflexivity.
    + rewrite IH. reflexivity.
Qed.

End JSFacts.

(** ** The validator *)

Module CheckersFacts.
Import JS Checkers Spec JSFacts.
Local Open Scope js_scope.
Local Open Scope io_scope.


(** *** Runs of the validator *)

Lemma fetches_app l l' : fetches (l ++ l') = fetches l ++ fetches l'.
Proof. unfold fetches. apply omap_app. Qed.

Lemma parse_or_raw t :
  match JSON_parse t with Ok v => v | Throw _ => VStr (raw t) end = content_of t.
Proof. unfold JSON_parse, content_of. destruct (parsed t); reflexivity. Qed.

Lemma openai_body `{Host} token pc url options :
  openai_buildRequest token pc = Ok (url, options) ->
  exists body1, body options = Some (VObj body1).
Proof.
  unfold openai_buildRequest. destruct (normalizeBaseUrl _); [|discriminate].
  intros [= <- <-]. cbn. eauto.
Qed.

(** *** Base addresses *)

Lemma strip_trailing_slashes_nil s :
  strip_trailing_slashes s = "" -> exists n, s = slashes n.
Proof.
  induction s as [|c s IH]; cbn [strip_trailing_slashes]; [exists 0; reflexivity|].
  destruct (Ascii.eqb c "/"%char) eqn:Ec; cbn [andb]; [|discriminate].
  destruct (String.eqb (strip_trailing_slashes s) "") eqn:Es; [|discriminate].
  apply String.eqb_eq in Es. apply Ascii.eqb_eq in Ec. subst c.
  destruct (IH Es) as [n ->]. intros _. exists (S n). reflexivity.
Qed.

Lemma strip_trailing_slashes_spec s :
  let b := strip_trailing_slashes s in
  (exists n, s = b +:+ slashes n)
  /\ (forall r, b <> r +:+ "/")
  /\ strip_trailing_slashes b = b.
Proof.
  induction s as [|c s (Hn & He & Hi)]; cbn [strip_trailing_slashes].
  - split; [exists 0; reflexivity|]. split; [|reflexivity].
    intros [|? ?]; discriminate.
  - destruct (Ascii.eqb c "/"%char && String.eqb (strip_trailing_slashes s) "") eqn:E.
    + apply andb_true_iff in E as [Ec Es].
      apply Ascii.eqb_eq in Ec. apply String.eqb_eq in Es. subst c.
      destruct (strip_trailing_slashes_nil _ Es) as [n ->].
      split; [exists (S n); reflexivity|]. split; [|reflexivity].
      intros [|? ?]; discriminate.
    + split; [|split].
      * destruct Hn as [n Hn]. exists n.
        change (String c s = String c (strip_trailing_slashes s +:+ slashes n)).
        f_equal. exact Hn.
      * intros [|a r]; cbn.
        -- intros [= -> Hs]. rewrite Hs in E. discriminate.
        -- intros [= -> Hs]. exact (He r Hs).
      * cbn [strip_trailing_slashes]. rewrite Hi, E. reflexivity.
Qed.

(** X1. [normalizeBaseUrl] takes the trailing slashes off a string, all of
    them and nothing else, so that normalizing twice changes nothing more;
    called on anything but a string it throws. *)
Theorem normalizeBaseUrl_strips (url : value) :
  match url with
  | VStr s =>
      exists b n,
        normalizeBaseUrl url = Ok b
        /\ s = b +:+ slashes n
        /\ (forall r, b <> r +:+ "/")
        /\ normalizeBaseUrl (VStr b) = Ok b
  | _ => exists e, normalizeBaseUrl url = Throw e
  end.
Proof.
  destruct url as [| | | |s| |]; cbn [normalizeBaseUrl]; eauto.
  destruct (strip_trailing_slashes_spec s) as ((n & Hn) & He & Hi).
  exists (strip_trailing_slashes s), n. rewrite Hi. auto.
Qed.

(** *** Counting requests *)

Lemma lookup_Object_assign k source : forall target,
  has_field k source = false ->
  lookup_field k (Object_assign target source) = lookup_field k target.
Proof.
  unfold Object_assign.
  induction source as [|[k' v] source IH]; intros target; [reflexivity|].
  rewrite has_field_cons. intros [E Hs]%orb_false_iff.
  cbn [fold_left fst snd]. rewrite IH by exact Hs.
  apply lookup_set_field_other, E.
Qed.

(** Splits on the innermost scrutinee of the goal. *)
Ltac break_match :=
  match goal with
  | |- context [match ?x with _ => _ end] =>
      lazymatch x with
      | context [match _ with _ => _ end] => fail
      | _ => destruct x eqn:?
      end
  end.

(** *** Rules for [bounded] *)

Lemma bounded_weaken {A} (m : M A) n n' (P Q : A -> Prop) :
  bounded m n P -> n <= n' -> (forall a, P a -> Q a) -> bounded m n' Q.
Proof.
  intros Hm Hn HPQ log. specialize (Hm log). destruct (m log) as [o log'].
  destruct Hm as [(extra & He & Hl) Ha]. split; [exists extra; split; [exact He|lia]|].
  intros a Ho. auto.
Qed.

Lemma bounded_ret {A} (a : A) (Q : A -> Prop) : Q a -> bounded (ret a) 0 Q.
Proof.
  intros Ha log. cbn. split; [exists []; rewrite app_nil_r; auto|].
  intros a' [= <-]. exact Ha.
Qed.

Lemma bounded_throw {A} e (Q : A -> Prop) : bounded (throw e) 0 Q.
Proof.
  intros log. cbn. split; [exists []; rewrite app_nil_r; auto|]. discriminate.
Qed.

Lemma bounded_lift {A} (r : result A) (Q : A -> Prop) :
  (forall a, r = Ok a -> Q a) -> bounded (lift r) 0 Q.
Proof.
  intros Hr log. cbn. split; [exists []; rewrite app_nil_r; auto|]. exact Hr.
Qed.

Lemma bounded_emit e :
  (if e is IoFetch _ then False else True) -> bounded (emit e) 0 (fun _ => True).
Proof.
  intros He log. cbn. split; [|auto].
  exists []. rewrite fetches_app, app_nil_r. destruct e; cbn; try contradiction;
    rewrite app_nil_r; auto.
Qed.

Lemma bounded_bind {A B} (m : M A) (k : A -> M B) n1 n2 n (P : A -> Prop) (Q : B -> Prop) :
  bounded m n1 P -> (forall a, P a -> bounded (k a) n2 Q) -> n1 + n2 <= n ->
  bounded (bind m k) n Q.
Proof.
  intros Hm Hk Hn log. unfold bind. specialize (Hm log).
  destruct (m log) as [[a|e] log1]; destruct Hm as [(x1 & He1 & Hl1) Ha].
  - specialize (Hk a (Ha a eq_refl) log1). destruct (k a log1) as [o log2].
    destruct Hk as [(x2 & He2 & Hl2) Hb]. split; [|exact Hb].
    exists (x1 ++ x2). rewrite He2, He1, <- app_assoc, length_app. split; [reflexivity|lia].
  - split; [exists x1; split; [exact He1|lia]|]. discriminate.
Qed.

Lemma bounded_try_catch {A} (m : M A) h n1 n2 n (Q : A -> Prop) :
  bounded m n1 Q -> (forall e, bounded (h e) n2 Q) -> n1 + n2 <= n ->
  bounded (try_catch m h) n Q.
Proof.
  intros Hm Hh Hn log. unfold try_catch. specialize (Hm log).
  destruct (m log) as [[a|e] log1]; destruct Hm as [(x1 & He1 & Hl1) Ha].
  - split; [exists x1; split; [exact He1|lia]|exact Ha].
  - specialize (Hh e log1). destruct (h e log1) as [o log2].
    destruct Hh as [(x2 & He2 & Hl2) Hb]. split; [|exact Hb].
    exists (x1 ++ x2). rewrite He2, He1, <- app_assoc, length_app. split; [reflexivity|lia].
Qed.

Lemma bounded_try_finally {A} (m : M A) f n1 n2 n (Q : A -> Prop) :
  bounded m n1 Q -> bounded f n2 (fun _ => True) -> n1 + n2 <= n ->
  bounded (try_finally m f) n Q.
Proof.
  intros Hm Hf Hn log. unfold try_finally. specialize (Hm log).
  destruct (m log) as [o log1]. destruct Hm as [(x1 & He1 & Hl1) Ha].
  specialize (Hf log1). destruct (f log1) as [[[]|e] log2];
    destruct Hf as [(x2 & He2 & Hl2) _];
    (split; [exists (x1 ++ x2); rewrite He2, He1, <- app_assoc, length_app;
             split; [reflexivity|lia]|]); [exact Ha|discriminate].
Qed.

Section Facts.
Context `{Host}.
Variable secureProxiedFetch : request -> fetch_outcome.

(** The outcome of [handleApiError] does not depend on the log, which gets
    one entry. *)
Lemma handleApiError_log response log :
  handleApiError response log = (fst (run (handleApiError response)), log ++ [IoText]).
Proof.
  cbv [handleApiError response_text bind emit lift ret run]. cbn [app].
  destruct (rtext response) as [t|e]; [|reflexivity].
  match goal with
  | |- context [match ?m with Ok _ => _ | Throw _ => _ end] => destruct m
  end; reflexivity.
Qed.

(** A strategy without [onFail], run for a provider without balance
    adapter, sends exactly one request. *)
Lemma template_plain_fetches token pc strat url options log :
  buildRequest strat token pc = Ok (url, options) ->
  onFail strat = None ->
  fetches (snd (_checkTokenTemplate secureProxiedFetch token no_meta pc strat log))
  = fetches log ++ [{| rq_url := url; rq_options := options; rq_region := region pc |}].
Proof.
  intros Hb Hf.
  cbv [_checkTokenTemplate stream_block response_json
       getReader reader_read reader_cancel_caught reader_releaseLock fetch
       try_catch try_finally bind ret throw emit lift].
  rewrite Hb, Hf. cbn [balanceCheck no_meta mbind option_bind].
  destruct (secureProxiedFetch _) as [e|r]; cbn [snd].
  - rewrite fetches_app. reflexivity.
  - destruct (ok r).
    + destruct (truthy (enableStream pc)).
      * destruct (rstream r) as [rd|]; cbn.
        -- destruct (first_read rd), (cancel_rejects rd); cbn;
             rewrite <- ?app_assoc, !fetches_app; cbn; rewrite ?app_nil_r; reflexivity.
        -- rewrite fetches_app. reflexivity.
      * unfold JSON_parse.
        destruct (rtext r) as [t|e]; [destruct (parsed t)|]; cbn;
          rewrite <- ?app_assoc, !fetches_app; cbn; rewrite ?app_nil_r; reflexivity.
    + rewrite handleApiError_log.
      destruct (fst (run (handleApiError r))); cbn;
        rewrite <- ?app_assoc, !fetches_app; cbn; rewrite ?app_nil_r; reflexivity.
Qed.

Lemma openai_onFail_run err token pc url options body1 log :
  openai_buildRequest token pc = Ok (url, options) ->
  body options = Some (VObj body1) ->
  openai_onFail secureProxiedFetch err token pc log =
  if retry_trigger (rawError_content err)
  then
    let (r, log') :=
      _checkTokenTemplate secureProxiedFetch token no_meta pc
        (retry_strategy url options (retried_body pc body1)) log in
    match r with Ok a => (Ok (Some a), log') | Throw e => (Throw e, log') end
  else (Ok None, log).
Proof.
  intros Hb Hbody. unfold openai_onFail.
  fold (retry_trigger (rawError_content err)).
  destruct (retry_trigger _); [|reflexivity].
  cbv [bind lift ret]. rewrite Hb, Hbody. reflexivity.
Qed.

Lemma checkToken_openai token meta pc :
  apiStyle meta = Some "openai" ->
  checkToken secureProxiedFetch token meta pc
  = _checkTokenTemplate secureProxiedFetch token meta pc (openai secureProxiedFetch).
Proof. unfold checkToken. intros ->. reflexivity. Qed.

(** C3. In a style-A validation whose first response is not 2xx, the
    [onFail] hook, given the error [handleApiError] extracts, retries
    exactly when the error body carries code "unsupported_parameter" for
    parameter "max_tokens": then exactly two requests are sent whatever the
    second response is, the second to the same address with [max_tokens]
    removed from the body and [max_completion_tokens] set to
    [validationMaxOutputTokens || 16]; for every other error payload, and
    when no error can be extracted, the first request is the only one. *)
Theorem openai_onFail_retries_once token meta pc url options r1 :
  apiStyle meta = Some "openai" ->
  openai_buildRequest token pc = Ok (url, options) ->
  secureProxiedFetch {| rq_url := url; rq_options := options; rq_region := region pc |}
    = FetchReturns r1 ->
  ok r1 = false ->
  let rq1 := {| rq_url := url; rq_options := options; rq_region := region pc |} in
  let log := snd (run (checkToken secureProxiedFetch token meta pc)) in
  match fst (run (handleApiError r1)) with
  | Ok error =>
      if retry_trigger (rawError_content error)
      then exists body1,
          body options = Some (VObj body1)
          /\ fetches log =
              [rq1; {| rq_url := url;
                       rq_options := with_body options (retried_body pc body1);
                       rq_region := region pc |}]
          /\ has_field "max_tokens" (retried_body pc body1) = false
          /\ lookup_field "max_completion_tokens" (retried_body pc body1)
             = denoted (js_or (validationMaxOutputTokens pc) (vnum 16))
      else fetches log = [rq1]
  | Throw _ => fetches log = [rq1]
  end.
Proof.
  intros Hstyle Hb Hn Hok rq1 log.
  destruct (openai_body _ _ _ _ Hb) as [body1 Hbody].
  assert (Hlog : log =
    snd (match fst (run (handleApiError r1)) with
         | Ok error =>
             let (r, log') :=
               (if retry_trigger (rawError_content error)
                then
                  let (r, log') :=
                    _checkTokenTemplate secureProxiedFetch token no_meta pc
                      (retry_strategy url options (retried_body pc body1))
                      [IoFetch rq1; IoText] in
                  match r with
                  | Ok a => (Ok (Some a), log')
                  | Throw e => (Throw e, log')
                  end
                else (Ok None, [IoFetch rq1; IoText])) in
             (Ok (), log')
         | Throw _ => (Ok (), [IoFetch rq1; IoText])
         end)).
  { subst log rq1. unfold run at 1. rewrite (checkToken_openai _ _ _ Hstyle).
    unfold _checkTokenTemplate at 1.
    cbv [try_catch bind lift fetch emit ret throw].
    cbn [buildRequest onFail openai app]. rewrite Hb, Hn, Hok. cbn [app].
    rewrite handleApiError_log.
    destruct (fst (run (handleApiError r1))) as [error|e]; [|reflexivity].
    rewrite (openai_onFail_run _ _ _ _ _ _ _ Hb Hbody). cbn [app].
    destruct (retry_trigger (rawError_content error)); [|reflexivity].
    destruct (_checkTokenTemplate secureProxiedFetch token no_meta pc _ _)
      as [[a|e] log']; reflexivity. }
  rewrite Hlog. clear Hlog.
  destruct (fst (run (handleApiError r1))) as [error|e]; [|reflexivity].
  destruct (retry_trigger (rawError_content error)); [|reflexivity].
  exists body1. split; [assumption|]. split; [|split].
  - pose proof (template_plain_fetches token pc
                  (retry_strategy url options (retried_body pc body1))
                  url (with_body options (retried_body pc body1))
                  [IoFetch rq1; IoText] eq_refl eq_refl) as Hf.
    destruct (_checkTokenTemplate secureProxiedFetch token no_meta pc _ _)
      as [[a|e] log']; cbn [snd] in *; rewrite Hf; reflexivity.
  - apply has_field_members. rewrite has_field_set_other by reflexivity.
    apply has_field_delete.
  - apply lookup_members; [apply lookup_set_field|].
    apply js_or_defined. discriminate.
Qed.

(** A rule guarded by the truthiness of its value, at the head of the
    rules. *)
Lemma first_applicable_when_truthy v render rules fallback :
  first_applicable (when_truthy v render :: rules) fallback
  = if truthy v then render v else first_applicable rules fallback.
Proof.
  unfold when_truthy. destruct (truthy v); [destruct (render v)|]; reflexivity.
Qed.

(** A rule that does not apply is passed over. *)
Lemma first_applicable_skip rules fallback :
  first_applicable (Ok None :: rules) fallback = first_applicable rules fallback.
Proof. reflexivity. Qed.

(** A rule guarded by the status, at the head of the rules. *)
Lemma first_applicable_status (status code : Z) m rules fallback :
  first_applicable (Ok (if decide (status = code) then Some m else None) :: rules) fallback
  = if (status =? code)%Z then Ok m else first_applicable rules fallback.
Proof.
  destruct (Z.eqb_spec status code);
    [rewrite decide_True by assumption|rewrite decide_False by assumption]; reflexivity.
Qed.

(** C6. [handleApiError] reads the body once. When reading it throws, so
    does [handleApiError]. Otherwise it returns the message of the first
    applicable rule, in the order: nested detail reason, non-numeric error
    code, error message, top-level message, [errors.message], detail (as
    JSON text when it is an object), the fixed message of status 401, the
    fixed message of status 429, and at last "HTTP" with the status; where
    converting the value of a rule throws, so does [handleApiError]. Its
    [rawError] holds the status and the parsed body, or the raw text when
    the body is not JSON. So a detail reason that is a string other than
    the empty one is the message whatever else the body holds; without
    details, an error code that is a string no number is written as is the
    message; a code that is a number is passed over for the error message;
    and a body that is not JSON gets the message of its status. *)
Theorem handleApiError_first_applicable_rule (response : response) :
  snd (run (handleApiError response)) = [IoText]
  /\ match rtext response with
     | Throw e => fst (run (handleApiError response)) = Throw e
     | Ok t =>
         let content := content_of t in
         let outcome := fst (run (handleApiError response)) in
         let error_with (m : string) :=
           Ok {| message := m;
                 rawError_status := status response;
                 rawError_content := content |} in
         outcome
         = (let? m := first_applicable (message_rules (status response) content)
                        (fallback_message (status response)) in
            error_with m)
         /\ (parsed t = None -> content = VStr (raw t))
         /\ (forall fs e d rest s,
             content = VObj fs -> lookup_field "error" fs = VObj e ->
             lookup_field "details" e = VArr (VObj d :: rest) ->
             lookup_field "reason" d = VStr s -> s <> "" ->
             outcome = error_with s)
         /\ (forall fs e c,
             content = VObj fs -> lookup_field "error" fs = VObj e ->
             lookup_field "details" e = VUndefined ->
             lookup_field "code" e = VStr c -> c <> "" -> StringToNumber c = NaN ->
             outcome = error_with c)
         /\ (forall fs e n m,
             content = VObj fs -> lookup_field "error" fs = VObj e ->
             lookup_field "details" e = VUndefined ->
             lookup_field "code" e = VNum n -> num_isNaN n = false ->
             lookup_field "message" e = VStr m -> m <> "" ->
             outcome = error_with m)
         /\ (parsed t = None ->
             outcome
             = error_with (if (status response =? 401)%Z then "认证失败"
                           else if (status response =? 429)%Z then "请求频繁"
                           else fallback_message (status response)))
     end.
Proof.
  split.
  { unfold run. rewrite handleApiError_log. reflexivity. }
  destruct (rtext response) as [t|e] eqn:Ht.
  2:{ unfold run, handleApiError, response_text, bind, emit, lift, ret.
      cbn [app]. rewrite Ht. reflexivity. }
  cbv zeta. set (content := content_of t).
  assert (Hmain : fst (run (handleApiError response))
                  = (let? m := first_applicable (message_rules (status response) content)
                                 (fallback_message (status response)) in
                     Ok {| message := m;
                           rawError_status := status response;
                           rawError_content := content |})).
  { unfold run, handleApiError, response_text, bind, emit, lift, ret.
    cbn [app]. rewrite Ht, !parse_or_raw. fold content.
    match goal with
    | |- fst (match ?m with Ok _ => _ | Throw _ => _ end) = _ =>
        assert (Hm : m = first_applicable (message_rules (status response) content)
                           (fallback_message (status response)))
    end.
    { unfold message_rules, fallback_message.
      rewrite first_applicable_when_truthy.
      destruct (truthy (opt_get (opt_first (opt_get (opt_get content "error") "details"))
                          "reason")); [reflexivity|].
      destruct (truthy (opt_get (opt_get content "error") "code")) eqn:Hcode.
      - destruct (isNaN _) as [[|]|e]; cbn [and_then].
        + rewrite first_applicable_when_truthy, Hcode. reflexivity.
        + rewrite first_applicable_skip, !first_applicable_when_truthy,
            !first_applicable_status. reflexivity.
        + reflexivity.
      - rewrite first_applicable_skip, !first_applicable_when_truthy,
          !first_applicable_status. reflexivity. }
    rewrite Hm. destruct (first_applicable _ _); reflexivity. }
  assert (Hne : forall s : string, s <> "" -> truthy (VStr s) = true).
  { intros s Hs. cbn. rewrite (proj2 (String.eqb_neq _ _) Hs). reflexivity. }
  split; [exact Hmain|]. split; [|split; [|split; [|split]]].
  - unfold content, content_of. intros ->. reflexivity.
  - intros fs e d rest s Hc He Hd Hr Hs. rewrite Hmain. unfold message_rules.
    rewrite first_applicable_when_truthy, Hc. cbn [opt_get].
    rewrite He. cbn [opt_get]. rewrite Hd. cbn [opt_first opt_get]. rewrite Hr.
    rewrite (Hne s Hs). reflexivity.
  - intros fs e c Hc He Hd Hcode Hs Hnan. rewrite Hmain. unfold message_rules.
    rewrite first_applicable_when_truthy, Hc. cbn [opt_get].
    rewrite He. cbn [opt_get]. rewrite Hd, Hcode. cbn [opt_first opt_get].
    change (truthy VUndefined) with false. cbv iota.
    rewrite (Hne c Hs). unfold isNaN, ToNumber. rewrite Hnan. cbn [and_then num_isNaN].
    rewrite first_applicable_when_truthy, (Hne c Hs). reflexivity.
  - intros fs e n m Hc He Hd Hcode Hn Hm Hs. rewrite Hmain. unfold message_rules.
    rewrite first_applicable_when_truthy, Hc. cbn [opt_get].
    rewrite He. cbn [opt_get]. rewrite Hd, Hcode, Hm. cbn [opt_first opt_get].
    change (truthy VUndefined) with false. cbv iota.
    unfold isNaN, ToNumber. cbn [and_then]. rewrite Hn.
    destruct (truthy (VNum n));
      rewrite ?first_applicable_skip, first_applicable_when_truthy, (Hne m Hs);
      reflexivity.
  - intros Hp. rewrite Hmain. unfold message_rules.
    assert (Hraw : content = VStr (raw t))
      by (unfold content, content_of; rewrite Hp; reflexivity).
    rewrite Hraw. cbn [opt_get opt_first truthy].
    rewrite !first_applicable_when_truthy. cbn [truthy].
    rewrite first_applicable_skip, !first_applicable_when_truthy. cbn [truthy].
    rewrite !first_applicable_status.
    destruct (status response =? 401)%Z; [reflexivity|].
    destruct (status response =? 429)%Z; reflexivity.
Qed.

(** What the streaming branch does to the body stream and what it hands
    on, for each outcome of the first read: one read, then the reader is
    cancelled and released, also when the read fails. *)
Lemma stream_block_run token response result rd :
  rstream response = Some rd ->
  let (outcome, log) := run (stream_block token response result) in
  stream_ops log = [IoGetReader; IoRead; IoCancel; IoReleaseLock]
  /\ outcome =
     match first_read rd with
     | ReadRejects e => Throw e
     | ReadDone => Ok (inl (invalid_result token "验证失败 (流提前结束)" []))
     | ReadChunk => Ok (inr (set_field "rawResponse" stream_note result))
     end.
Proof.
  intros Hrd.
  cbv [run stream_block getReader reader_read reader_cancel_caught reader_releaseLock
       try_finally bind ret throw emit].
  rewrite Hrd. destruct (first_read rd), (cancel_rejects rd); cbn; split; reflexivity.
Qed.

(** *** Every validation returns *)

Lemma bounded_fetch url o region :
  bounded (fetch secureProxiedFetch url o region) 1
    (fun r => secureProxiedFetch {| rq_url := url; rq_options := o; rq_region := region |}
              = FetchReturns r).
Proof.
  intros log. cbv [fetch bind emit throw ret].
  destruct (secureProxiedFetch _) as [e|r];
    (split; [eexists [_]; split; [rewrite fetches_app; reflexivity|cbn; lia]|]);
    [discriminate|intros a [= <-]; reflexivity].
Qed.

Lemma bounded_handleApiError response (Q : api_error -> Prop) :
  (forall e, Q e) -> bounded (handleApiError response) 0 Q.
Proof.
  intros HQ log. rewrite handleApiError_log. split; [|auto].
  exists []. rewrite fetches_app. split; [reflexivity|cbn; lia].
Qed.

Ltac adapter_tac :=
  intros log;
  cbv [checkOpenRouterBalance checkSiliconFlowBalance checkDeepSeekBalance
       checkMoonshotBalance checkNewAPIBalance
       bind lift ret throw emit fetch response_json];
  repeat break_match; subst;
  (split;
   [ first [ exists []; rewrite app_nil_r; split; [reflexivity|cbn; lia]
           | eexists [_]; split;
             [rewrite <- ?app_assoc, !fetches_app; cbn; rewrite ?app_nil_r; reflexivity
             |cbn; lia] ]
   | let Hr := fresh "Hr" in
     intro; intro Hr; try discriminate Hr; injection Hr as <-; split; reflexivity ]).

Lemma balanceCheckers_bounded name checker token base region :
  balanceCheckers secureProxiedFetch name = Some checker ->
  bounded (checker token base region) 1 keeps_verdict.
Proof.
  unfold balanceCheckers.
  repeat (destruct (String.eqb name _); [intros [= <-]; adapter_tac|]).
  discriminate.
Qed.

Lemma invalid_result_well_formed token m extra :
  well_formed token (invalid_result token m extra).
Proof. split; [reflexivity|]. exists false. reflexivity. Qed.

Lemma fresh_result_well_formed token k v :
  String.eqb "token" k = false -> String.eqb "isValid" k = false ->
  well_formed token (set_field k v [("token", VStr token); ("isValid", VBool true)]).
Proof.
  intros Et Ev. split; [|exists true]; rewrite lookup_set_field_other by assumption;
    reflexivity.
Qed.

Lemma Object_assign_well_formed token r b :
  well_formed token r -> keeps_verdict b -> well_formed token (Object_assign r b).
Proof.
  intros [Ht [v Hv]] [Hbt Hbv]. split; [|exists v]; rewrite lookup_Object_assign; auto.
Qed.

Lemma bounded_stream_block token response :
  bounded (stream_block token response [("token", VStr token); ("isValid", VBool true)]) 0
    (fun x => match x with inl r | inr r => well_formed token r end).
Proof.
  intros log. unfold stream_block.
  cbv [getReader reader_read reader_cancel_caught reader_releaseLock
       try_finally bind ret throw emit].
  destruct (rstream response) as [rd|].
  - destruct (first_read rd), (cancel_rejects rd);
      (split;
       [exists []; rewrite <- ?app_assoc, !fetches_app; cbn; rewrite ?app_nil_r;
        split; [reflexivity|lia]|]);
      intros x Hx; try discriminate Hx; injection Hx as <-.
    all: cbv beta iota;
      first [apply invalid_result_well_formed
            | split; [reflexivity|exists true; reflexivity]].
  - split; [exists []; rewrite app_nil_r; split; [reflexivity|cbn; lia]|]. discriminate.
Qed.

Lemma bounded_response_json response (Q : value -> Prop) :
  (forall v, Q v) -> bounded (response_json response) 0 Q.
Proof.
  intros HQ log. cbv [response_json bind emit lift].
  destruct (rtext response) as [t|e]; (split; [|auto]);
    exists []; rewrite fetches_app; cbn; split; (reflexivity || lia).
Qed.

Lemma found_adapter_bounded meta checker token base region :
  found_adapter secureProxiedFetch meta = Some checker ->
  bounded (checker token base region) 1 keeps_verdict.
Proof.
  unfold found_adapter. destruct (balanceCheck meta) as [name|]; [|discriminate].
  cbn. destruct (String.eqb name ""); [discriminate|].
  apply balanceCheckers_bounded.
Qed.

Lemma template_bounded token meta pc strat k :
  onFail_ok token pc strat ->
  (onFail strat <> None -> 1 <= k) ->
  (found_adapter secureProxiedFetch meta <> None -> 1 <= k) ->
  bounded (_checkTokenTemplate secureProxiedFetch token meta pc strat) (1 + k)
    (well_formed token).
Proof.
  intros Hf Hkf Hkb. unfold _checkTokenTemplate.
  apply (bounded_try_catch _ _ (1 + k) 0);
    [|intros e; apply bounded_ret, invalid_result_well_formed|lia].
  apply (bounded_bind _ _ 0 (1 + k) _ (fun _ => True));
    [apply bounded_lift; auto| |lia].
  intros [url options] _.
  apply (bounded_bind _ _ 1 k _ (fun _ => True));
    [eapply bounded_weaken; [apply bounded_fetch|lia|auto]| |lia].
  intros response _. destruct (ok response).
  - apply (bounded_bind _ _ 0 k _
             (fun x => match x with inl r | inr r => well_formed token r end)); [| |lia].
    + destruct (truthy (enableStream pc)); [apply bounded_stream_block|].
      apply (bounded_bind _ _ 0 0 _ (fun _ => True)); [| |lia].
      * apply (bounded_try_catch _ _ 0 0); [|intros e; apply bounded_ret; auto|lia].
        apply bounded_response_json. auto.
      * intros rawResponse _. apply bounded_ret.
        apply fresh_result_well_formed; reflexivity.
    + intros [early|result] Hwf; [eapply bounded_weaken; [apply bounded_ret, Hwf|lia|auto]|].
      fold (found_adapter secureProxiedFetch meta).
      destruct (found_adapter secureProxiedFetch meta) as [checker|] eqn:Ea.
      * apply (bounded_bind _ _ 1 0 _ keeps_verdict);
          [eapply found_adapter_bounded, Ea| |specialize (Hkb ltac:(discriminate)); lia].
        intros b Hb. apply bounded_ret, Object_assign_well_formed; assumption.
      * eapply bounded_weaken; [apply bounded_ret, Hwf|lia|auto].
  - apply (bounded_bind _ _ 0 k _ (fun _ => True));
      [apply bounded_handleApiError; auto| |lia].
    intros error _.
    apply (bounded_bind _ _ k 0 _ (fun o => forall r, o = Some r -> well_formed token r));
      [| |lia].
    + destruct (onFail strat) as [f|] eqn:Ef.
      * eapply bounded_weaken; [apply (Hf f Ef)|apply Hkf; discriminate|auto].
      * apply (bounded_weaken _ 0 _ (fun o => o = None));
          [apply bounded_ret; reflexivity|lia|intros a -> r Hr; discriminate Hr].
    + intros [r|] Hr; apply bounded_ret; [auto|apply invalid_result_well_formed].
Qed.

Lemma template_total token meta pc strat log :
  exists r log', _checkTokenTemplate secureProxiedFetch token meta pc strat log = (Ok r, log').
Proof.
  unfold _checkTokenTemplate, try_catch.
  match goal with
  | |- context [match ?b with (_, _) => _ end] => destruct b as [[a|e] log1]
  end; cbn; eauto.
Qed.

Lemma openai_onFail_ok token pc : onFail_ok token pc (openai secureProxiedFetch).
Proof.
  intros f [= <-] err. unfold openai_onFail.
  destruct (_ && _); [|apply (bounded_weaken _ 0 _ (fun o => o = None));
                       [apply bounded_ret; reflexivity|lia
                       |intros a -> r Hr; discriminate Hr]].
  apply (bounded_bind _ _ 0 1 _ (fun _ => True)); [apply bounded_lift; auto| |lia].
  intros [url options] _.
  destruct (body options) as [[| | | | | |newBody]|];
    try (apply (bounded_weaken _ 0 _ (fun _ => False));
         [apply bounded_throw|lia|contradiction]).
  cbv zeta. apply (bounded_bind _ _ 1 0 _ (well_formed token)); [| |lia].
  - apply (template_bounded _ _ _ _ 0);
      [intros f Ef; discriminate Ef|intros E; contradiction E; reflexivity
      |intros E; contradiction E; reflexivity].
  - intros r Hr. apply bounded_ret. congruence.
Qed.

Lemma no_onFail_ok token pc strat : onFail strat = None -> onFail_ok token pc strat.
Proof. intros E f Ef. congruence. Qed.

(** X2. [checkToken] never throws: whatever the upstream does, it returns
    a result that names the token and carries a boolean [isValid], after
    at most two requests. *)
Theorem checkToken_always_returns token meta pc :
  exists r log,
    run (checkToken secureProxiedFetch token meta pc) = (Ok r, log)
    /\ well_formed token r
    /\ length (fetches log) <= 2.
Proof.
  assert (Ht : forall strat, onFail_ok token pc strat ->
            exists r log,
              run (_checkTokenTemplate secureProxiedFetch token meta pc strat) = (Ok r, log)
              /\ well_formed token r /\ length (fetches log) <= 2).
  { intros strat Hok. unfold run.
    destruct (template_total token meta pc strat []) as (r & log & Hrun).
    pose proof (template_bounded token meta pc strat 1 Hok ltac:(auto) ltac:(auto) [])
      as Hb.
    rewrite Hrun in Hb. destruct Hb as [(extra & He & Hl) Hwf].
    exists r, log. split; [exact Hrun|]. split; [auto|].
    rewrite He. cbn. lia. }
  unfold checkToken.
  repeat (destruct (String.eqb _ _);
          [apply Ht; first [apply openai_onFail_ok | apply no_onFail_ok; reflexivity]|]).
  do 2 eexists. split; [reflexivity|]. split; [|cbn; lia].
  split; [reflexivity|exists false; reflexivity].
Qed.

End Facts.

(** C2. A key that the upstream accepts (200), checked for a provider with a
    balance adapter whose request fails in transit, comes back invalid: the
    exception of the adapter reaches the catch-all of the template. *)
Lemma balance_exception_downgrades :
  fst (run (checkToken Sample.upstream_without_credits "sk-or-1"
              Sample.openrouter (Sample.settings false)))
  = Ok [("token", VStr "sk-or-1"); ("isValid", VBool false);
        ("message", VStr "网络错误或未知异常");
        ("rawError", VObj [("content", VStr "fetch failed")]);
        ("error", VBool true)].
Proof. reflexivity. Qed.

(** C5. With streaming enabled, a 200 response whose first read yields a
    chunk is reported invalid when the balance adapter throws afterwards;
    the stream itself was read once, cancelled and released. *)
Lemma stream_chunk_then_balance_exception :
  let (outcome, log) :=
    run (checkToken Sample.upstream_without_credits "sk-or-1"
           Sample.openrouter (Sample.settings true)) in
  (exists r, outcome = Ok r /\ is_valid r = VBool false)
  /\ stream_ops log = [IoGetReader; IoRead; IoCancel; IoReleaseLock].
Proof. cbn. split; [eexists; split; reflexivity | reflexivity]. Qed.

Lemma openai_onFail_retries_once_witness :
  exists body1,
    body (Sample.chat_options "sk-or-1") = Some (VObj body1)
    /\ fetches (snd (run (checkToken Sample.upstream_refusing_max_tokens "sk-or-1"
                            Sample.openrouter (Sample.settings false))))
       = [Sample.chat_request "sk-or-1";
          {| rq_url := Sample.chat_url;
             rq_options :=
               with_body (Sample.chat_options "sk-or-1")
                 (retried_body (Sample.settings false) body1);
             rq_region := VStr "wnam" |}]
    /\ has_field "max_tokens" (retried_body (Sample.settings false) body1) = false
    /\ lookup_field "max_completion_tokens" (retried_body (Sample.settings false) body1)
       = vnum 16.
Proof.
  exact (openai_onFail_retries_once Sample.upstream_refusing_max_tokens "sk-or-1"
           Sample.openrouter (Sample.settings false) Sample.chat_url
           (Sample.chat_options "sk-or-1") Sample.unsupported
           eq_refl eq_refl eq_refl eq_refl).
Defined.

(** C3, as worded, fails for an error body that carries the trigger next
    to a detail reason that has no text: [handleApiError] throws on the
    reason, [onFail] is not called, and the first request is the only one;
    the key is reported with the message of the catch-all. *)
Lemma unsupported_parameter_without_retry :
  apiStyle Sample.openrouter = Some "openai"
  /\ ok Sample.unsupported_unprintable = false
  /\ retry_trigger (content_of Sample.unsupported_unprintable_text) = true
  /\ (exists e, fst (run (handleApiError Sample.unsupported_unprintable)) = Throw e)
  /\ fetches (snd (run (checkToken Sample.upstream_unprintable "sk-or-1"
                          Sample.openrouter (Sample.settings false))))
     = [Sample.chat_request "sk-or-1"]
  /\ (exists e,
      fst (run (checkToken Sample.upstream_unprintable "sk-or-1"
                  Sample.openrouter (Sample.settings false)))
      = Ok [("token", VStr "sk-or-1"); ("isValid", VBool false);
            ("message", VStr "网络错误或未知异常");
            ("rawError", VObj [("content", VStr e)]);
            ("error", VBool true)]).
Proof. repeat split; try reflexivity; eexists; reflexivity. Qed.

(** C6, as worded, fails for a body whose first applicable value has no
    text: with such a detail reason, or such an error message when no rule
    before it applies, [handleApiError] throws and derives no message. *)
Lemma unprintable_value_has_no_message :
  ok Sample.unsupported_unprintable = false
  /\ (exists e, fst (run (handleApiError Sample.unsupported_unprintable)) = Throw e)
  /\ ok Sample.unprintable_message = false
  /\ (exists e, fst (run (handleApiError Sample.unprintable_message)) = Throw e).
Proof. repeat split; try reflexivity; eexists; reflexivity. Qed.

Lemma handleApiError_first_applicable_rule_witness :
  fst (run (handleApiError Sample.exhausted))
  = Ok {| message := "RATE_LIMIT_EXCEEDED"; rawError_status := 429;
          rawError_content := content_of Sample.exhausted_text |}
  /\ fst (run (handleApiError Sample.throttled))
     = Ok {| message := "Too many requests"; rawError_status := 429;
             rawError_content := content_of Sample.throttled_text |}
  /\ fst (run (handleApiError Sample.unauthorized))
     = Ok {| message := "invalid_api_key"; rawError_status := 401;
             rawError_content := content_of Sample.unauthorized_text |}
  /\ fst (run (handleApiError Sample.bad_gateway))
     = Ok {| message := "HTTP 502"; rawError_status := 502;
             rawError_content := VStr "Bad Gateway" |}.
Proof.
  split; [|split; [|split]].
  - refine (proj1 (proj2 (proj2 (proj2
              (handleApiError_first_applicable_rule Sample.exhausted))))
              _ _ _ _ _ eq_refl eq_refl eq_refl eq_refl _).
    discriminate.
  - refine (proj1 (proj2 (proj2 (proj2 (proj2 (proj2
              (handleApiError_first_applicable_rule Sample.throttled))))))
              _ _ _ _ eq_refl eq_refl eq_refl eq_refl eq_refl eq_refl _).
    discriminate.
  - refine (proj1 (proj2 (proj2 (proj2 (proj2
              (handleApiError_first_applicable_rule Sample.unauthorized)))))
              _ _ _ eq_refl eq_refl eq_refl eq_refl _ eq_refl).
    discriminate.
  - exact (proj2 (proj2 (proj2 (proj2 (proj2 (proj2
              (handleApiError_first_applicable_rule Sample.bad_gateway))))))
              eq_refl).
Defined.

End CheckersFacts.

(** ** The worker pool *)

Module WorkerPoolFacts.
Import JS WorkerPool PoolSpec.















End WorkerPoolFacts.

(** ** The stores *)

Module StoreFacts.
Import JS Orchestrator StoreSpec JSFacts.
Local Open Scope js_scope.
Local Open Scope store_scope.

(** *** Sorting the raw keys *)

Lemma keys_from_cons n t l :
  keys_from n (t :: l) = {| token := t; order := n |} :: keys_from (S n) l.
Proof.
  unfold keys_from. cbn [imap]. rewrite Nat.add_0_r. f_equal.
  apply imap_ext. intros i x _. cbn. f_equal. lia.
Qed.

Lemma sort_keys_from (l : list string) : forall (pre : list string) (acc : sorting),
  (forall x, x ∈ uniqueTokens acc <-> x ∈ pre) ->
  let full := pre ++ l in
  let sorted := fold_left sort_key (keys_from (length pre) l) acc in
  keysToProcess sorted
  = keysToProcess acc
    ++ filter (fun k => token k ∉ take (order k) full) (keys_from (length pre) l)
  /\ duplicateResults sorted
    = duplicateResults acc
      ++ map duplicate_entry
           (filter (fun k => token k ∈ take (order k) full) (keys_from (length pre) l)).
Proof.
  induction l as [|t l IH]; intros pre acc Hacc full sorted.
  - subst sorted. cbn. rewrite !app_nil_r. split; reflexivity.
  - subst sorted. rewrite keys_from_cons. cbn [fold_left].
    assert (Htake : take (length pre) full = pre)
      by (subst full; rewrite take_app_length; reflexivity).
    assert (Hlen : S (length pre) = length (pre ++ [t])) by (rewrite length_app; cbn; lia).
    assert (Hfull : full = (pre ++ [t]) ++ l) by (subst full; rewrite <- app_assoc; reflexivity).
    rewrite !filter_cons. cbn [token order]. rewrite Htake.
    rewrite Hlen, Hfull.
    unfold sort_key at 2 4. cbn [token order].
    destruct (decide (t ∈ uniqueTokens acc)) as [Hin|Hnin].
    + assert (t ∈ pre) by (apply Hacc; exact Hin).
      destruct (IH (pre ++ [t])
                  {| uniqueTokens := uniqueTokens acc;
                     keysToProcess := keysToProcess acc;
                     duplicateResults := duplicateResults acc ++ [duplicate_entry {| token := t; order := length pre |}] |})
        as [IHk IHd].
      { cbn. intros x. rewrite Hacc, elem_of_app, list_elem_of_singleton.
        split; [tauto | intros [?| ->]; assumption]. }
      rewrite decide_False by (intros Hn; apply Hn; assumption).
      rewrite decide_True by assumption.
      split; [exact IHk|].
      cbn [map]. etransitivity; [exact IHd|]. cbn [duplicateResults].
      rewrite <- app_assoc. reflexivity.
    + assert (t ∉ pre) by (intros Hp; apply Hnin, Hacc, Hp).
      destruct (IH (pre ++ [t])
                  {| uniqueTokens := {[t]} ∪ uniqueTokens acc;
                     keysToProcess := keysToProcess acc ++ [{| token := t; order := length pre |}];
                     duplicateResults := duplicateResults acc |})
        as [IHk IHd].
      { cbn. intros x.
        rewrite elem_of_union, elem_of_singleton, Hacc, elem_of_app, list_elem_of_singleton.
        tauto. }
      rewrite decide_True by assumption.
      rewrite decide_False by assumption.
      split; [|exact IHd].
      etransitivity; [exact IHk|]. cbn [keysToProcess].
      rewrite <- app_assoc. reflexivity.
Qed.

Lemma sort_keys_spec (tokensRaw : list string) :
  keysToProcess (sort_keys (allKeys_of tokensRaw)) = first_occurrences tokensRaw
  /\ duplicateResults (sort_keys (allKeys_of tokensRaw))
    = map duplicate_entry (later_occurrences tokensRaw).
Proof.
  apply (sort_keys_from tokensRaw []
           {| uniqueTokens := ∅; keysToProcess := []; duplicateResults := [] |}).
  cbn. intros x. rewrite elem_of_empty, elem_of_nil. tauto.
Qed.

Section Stores.
Context `{Host}.
Variable PROVIDERS : string -> option Checkers.providerMeta.

Lemma bind_run {A B} (m : Act A) (k : A -> Act B) st :
  bind m k st
  = match m st with
    | (Ok a, st') => k a st'
    | (Throw e, st') => (Throw e, st')
    end.
Proof. reflexivity. Qed.

(** *** The result store *)


(** The item of a repeated key is always built. *)
Lemma build_duplicate provider k :
  buildResultItem PROVIDERS (res (duplicate_entry k)) (entry_order (duplicate_entry k))
    provider
  = Ok (Some (duplicate, duplicate_item k)).
Proof. reflexivity. Qed.

Lemma group_duplicates provider (l : list key) :
  group_items PROVIDERS provider (map duplicate_entry l)
  = Ok (map (fun k => (duplicate, duplicate_item k)) l).
Proof.
  induction l as [|k l IH]; [reflexivity|].
  cbn [map group_items]. rewrite build_duplicate, IH. reflexivity.
Qed.

Lemma bucket_of_duplicates (l : list key) c :
  map snd (filter (fun ci : category * item => ci.1 = c)
             (map (fun k => (duplicate, duplicate_item k)) l))
  = if decide (c = duplicate) then map duplicate_item l else [].
Proof.
  induction l as [|k l IH]; [destruct (decide _); reflexivity|].
  cbn [map]. rewrite filter_cons. cbn [fst].
  destruct (decide (duplicate = c)) as [<-|Hne].
  - rewrite decide_True in * by reflexivity. cbn [map snd]. f_equal. exact IH.
  - rewrite decide_False in * by congruence. exact IH.
Qed.

(** Storing the results of repeated keys never throws. *)
Lemma addResults_duplicates d ds st :
  addResults PROVIDERS (map duplicate_entry (d :: ds)) st
  = (Ok tt,
     set_results
       (fun c => results st c
                 ++ map snd (filter (fun ci : category * item => ci.1 = c)
                               (map (fun k => (duplicate, duplicate_item k)) (d :: ds))))
       st).
Proof.
  unfold addResults.
  change (map duplicate_entry (d :: ds))
    with (duplicate_entry d :: map duplicate_entry ds) at 1.
  cbv iota. rewrite group_duplicates. reflexivity.
Qed.


Lemma has_markup_app a b : has_markup (a +:+ b) = has_markup a || has_markup b.
Proof.
  induction a as [|c a IH]; [reflexivity|].
  change (String c a +:+ b) with (String c (a +:+ b)).
  cbn [has_markup]. rewrite IH, orb_assoc. reflexivity.
Qed.

Lemma escape_has_no_markup s : has_markup (escape s) = false.
Proof.
  induction s as [|c s IH]; [reflexivity|].
  cbn [escape]. rewrite has_markup_app, IH, orb_false_r.
  destruct (Ascii.eqb c "&"%char) eqn:E1; [reflexivity|].
  destruct (Ascii.eqb c "<"%char) eqn:E2; [reflexivity|].
  destruct (Ascii.eqb c ">"%char) eqn:E3; [reflexivity|].
  destruct (Ascii.eqb c dquote) eqn:E4; [reflexivity|].
  destruct (Ascii.eqb c "'"%char) eqn:E5; [reflexivity|].
  cbn [has_markup]. unfold is_markup. rewrite E2, E3, E4, E5. reflexivity.
Qed.

Lemma escape_plain s : is_plain s = true -> escape s = s.
Proof.
  induction s as [|c s IH]; [reflexivity|].
  cbn [is_plain escape]. unfold is_markup.
  intros [[Hm Ha%negb_true_iff]%andb_true_iff Hs]%andb_true_iff.
  apply negb_true_iff in Hm.
  apply orb_false_iff in Hm as [[[E2 E3]%orb_false_iff E4]%orb_false_iff E5].
  rewrite Ha, E2, E3, E4, E5, (IH Hs). reflexivity.
Qed.

(** X3. What [escapeHtml] returns holds no angle bracket and no quote, so
    it can stand inside markup and inside a quoted attribute; a text
    without these characters and without ampersand comes back as it is;
    [null] and [undefined] give the empty text; and [escapeHtml] throws
    only where the conversion of its argument to a string does. *)
Theorem escapeHtml_has_no_markup (text : value) :
  match escapeHtml text with
  | Ok safe => has_markup safe = false
  | Throw e => String_ text = Throw e
  end
  /\ (forall s, is_plain s = true -> escapeHtml (VStr s) = Ok s)
  /\ escapeHtml VNull = Ok ""
  /\ escapeHtml VUndefined = Ok "".
Proof.
  split; [|split; [|split; reflexivity]].
  - unfold escapeHtml. destruct (nullish text); [reflexivity|].
    destruct (String_ text) as [str|e]; cbn [and_then]; [|reflexivity].
    apply escape_has_no_markup.
  - intros s Hs. unfold escapeHtml. cbn. rewrite (escape_plain s Hs). reflexivity.
Qed.

(** *** The buffer *)

(** A flush leaves the buffer empty and the run as it is, whether it throws
    or not; when it throws, nothing of it is stored. *)
Lemma flushResultBuffer_keeps st :
  let st' := after (flushResultBuffer PROVIDERS) st in
  isChecking st' = isChecking st /\ isPaused st' = isPaused st
  /\ queue st' = queue st /\ current st' = current st /\ socket st' = socket st
  /\ sockets st' = sockets st /\ statuses st' = statuses st
  /\ reconnectAttempts st' = reconnectAttempts st
  /\ config st' = config st /\ completedCount st' = completedCount st
  /\ resultBuffer st' = []
  /\ (forall e, outcome (flushResultBuffer PROVIDERS) st = Throw e ->
      results st' = results st).
Proof.
  unfold after, outcome, flushResultBuffer, addResults.
  destruct (resultBuffer st) as [|x items] eqn:Eb.
  - cbn. rewrite Eb. repeat split; reflexivity.
  - cbv zeta.
    destruct (group_items PROVIDERS _ (x :: items));
      destruct (flushTimerId (set_resultBuffer [] st)); cbn;
      repeat split; try reflexivity; discriminate.
Qed.


(** Flushing an empty buffer does nothing. *)
Lemma flushResultBuffer_empty st :
  resultBuffer st = [] -> flushResultBuffer PROVIDERS st = (Ok tt, st).
Proof. unfold flushResultBuffer. intros ->. reflexivity. Qed.

(** Posting a status and flushing do not meet. *)
Lemma flushResultBuffer_postStatus s st :
  flushResultBuffer PROVIDERS (_postStatus s st)
  = (outcome (flushResultBuffer PROVIDERS) st,
     _postStatus s (after (flushResultBuffer PROVIDERS) st)).
Proof.
  unfold after, outcome, flushResultBuffer, addResults.
  cbn [resultBuffer _postStatus set_statuses].
  destruct (resultBuffer st) as [|x items]; [reflexivity|].
  cbn. destruct (flushTimerId st); cbn; destruct (and_then _ _); reflexivity.
Qed.

(** Buffering a result leaves the run as it is, whether the flush it may
    cause throws or not. *)
Lemma bufferResult_keeps r o st :
  let st' := after (bufferResult PROVIDERS r o) st in
  isChecking st' = isChecking st /\ isPaused st' = isPaused st
  /\ queue st' = queue st /\ current st' = current st /\ socket st' = socket st
  /\ sockets st' = sockets st /\ statuses st' = statuses st
  /\ reconnectAttempts st' = reconnectAttempts st
  /\ config st' = config st /\ completedCount st' = completedCount st.
Proof.
  unfold after, bufferResult.
  set (st1 := set_resultBuffer _ st).
  destruct (_ <=? _)%nat.
  - destruct (flushResultBuffer_keeps st1) as (A & B & C & D & E & F & G & I & J & K & _).
    unfold after in *. rewrite A, B, C, D, E, F, G, I, J, K. subst st1.
    repeat split; reflexivity.
  - destruct (flushTimerId st1); subst st1; cbn; repeat split; reflexivity.
Qed.



(** *** The stores after [startCheck] *)

Local Opaque BATCH_SIZE.

(** A first batch is cut from a queue that is not empty. *)
Lemma processNextBatch_starts st jq k ks :
  isPaused st = false ->
  queue st = Some jq ->
  remainingKeys jq = k :: ks ->
  let b := take BATCH_SIZE (k :: ks) in
  let remaining := drop BATCH_SIZE (k :: ks) in
  processNextBatch PROVIDERS st
  = (Ok tt,
     _connectWebSocket (jq_providerConfig jq) b (jq_concurrency jq)
       (_postStatus (Processing (Z.of_nat (totalTasks st) - Z.of_nat (length remaining))
                                (Z.of_nat (totalTasks st)))
          (set_queue (Some {| remainingKeys := remaining;
                              jq_providerConfig := jq_providerConfig jq;
                              jq_concurrency := jq_concurrency jq |})
             (set_current (Some {| batch := b;
                                   cb_providerConfig := jq_providerConfig jq;
                                   cb_concurrency := jq_concurrency jq |})
                (set_reconnectAttempts 0 st))))).
Proof.
  intros Hp Hq Hk. unfold processNextBatch. rewrite Hp.
  cbn [queue set_reconnectAttempts]. rewrite Hq, Hk. reflexivity.
Qed.

Lemma results_postStatus s st : results (_postStatus s st) = results st.
Proof. reflexivity. Qed.

(** The stores when [startCheck] ends, for an input that is not blank and
    does not exceed the ceiling. *)
Lemma startCheck_stores st :
  trim (tokensInput (config st)) <> "" ->
  let raw := tokensRaw_of (tokensInput (config st)) in
  (Z.of_nat (length raw) <= MAX_KEYS_LIMIT)%Z ->
  let st' := after (startCheck PROVIDERS) st in
  (forall c, results st' c
             = if decide (c = duplicate)
               then map duplicate_item (later_occurrences raw) else [])
  /\ match first_occurrences raw,
           providerConfigs (config st) (currentProvider (config st)) with
     | k :: ks, Some ps =>
         outcome (startCheck PROVIDERS) st = Ok tt
         /\ isChecking st' = true /\ isPaused st' = false
         /\ (TooManyKeys ∉ drop (length (statuses st)) (statuses st'))
         /\ totalTasks st' = length (k :: ks)
         /\ in_flight st' = take BATCH_SIZE (k :: ks)
         /\ waiting st' = drop BATCH_SIZE (k :: ks)
         /\ queue st' <> None
         /\ socket st' = Some (length (sockets st))
         /\ exists pc,
             sockets st'
             = sockets st
               ++ [new_WebSocket pc (take BATCH_SIZE (k :: ks)) (concurrency (config st))]
     | k :: ks, None =>
         isChecking st' = true /\ queue st' = None /\ current st' = current st
         /\ sockets st' = sockets st
     | [], _ =>
         outcome (startCheck PROVIDERS) st = Ok tt
         /\ isChecking st' = isChecking st /\ queue st' = None /\ current st' = current st
         /\ sockets st' = sockets st
     end.
Proof.
  intros Hne raw Hlim st'. subst st'. unfold after, outcome, startCheck.
  rewrite (proj2 (String.eqb_neq _ _) Hne).
  unfold startCheck_with. cbn [config set_completedCount clearResults set_results set_queue].
  fold raw.
  rewrite (proj2 (Z.ltb_ge _ _) Hlim).
  destruct (sort_keys_spec raw) as [-> ->].
  set (st0 := set_completedCount 0 (clearResults (set_queue None st))).
  set (first := if (0 <? length (map duplicate_entry (later_occurrences raw)))%nat
                then addResults PROVIDERS (map duplicate_entry (later_occurrences raw)) ;;;
                     modify (_postStatus
                               (FilteredDuplicates
                                  (length (map duplicate_entry (later_occurrences raw)))))
                else ret tt).
  assert (Hfirst : exists st1,
             first st0 = (Ok tt, st1)
             /\ (forall c, results st1 c
                           = if decide (c = duplicate)
                             then map duplicate_item (later_occurrences raw) else [])
             /\ isChecking st1 = isChecking st /\ queue st1 = None
             /\ current st1 = current st /\ sockets st1 = sockets st
             /\ config st1 = config st /\ isPaused st1 = isPaused st
             /\ ((exists n, statuses st1 = statuses st ++ [FilteredDuplicates n])
                 \/ statuses st1 = statuses st)).
  { subst first. destruct (later_occurrences raw) as [|d ds] eqn:El.
    - exists st0. cbn. split; [reflexivity|].
      split; [intros c; destruct (decide _); reflexivity|]. eauto 12.
    - change ((0 <? length (map duplicate_entry (d :: ds)))%nat) with true.
      cbv iota. unfold bind, modify. rewrite addResults_duplicates.
      eexists. split; [reflexivity|].
      split; [intros c; rewrite results_postStatus; cbn [results set_results];
              rewrite bucket_of_duplicates; reflexivity|].
      cbn. eauto 12. }
  destruct Hfirst as (st1 & Efirst & Hres & Hc & Hq & Hcur & Hso & Hcfg & Hp & Hst).
  assert (Hbind : forall k : unit -> Act unit, bind first k st0 = k tt st1)
    by (intros k; unfold bind; rewrite Efirst; reflexivity).
  rewrite !Hbind.
  destruct (first_occurrences raw) as [|k ks] eqn:Ef.
  - split; [exact Hres|]. cbn. repeat split; assumption.
  - cbn [config set_totalTasks set_isPaused set_isChecking]. rewrite Hcfg.
    destruct (providerConfigs (config st) (currentProvider (config st))) as [ps|].
    + erewrite processNextBatch_starts; [| reflexivity | reflexivity | reflexivity].
      split; [exact Hres|].
      cbn. rewrite Hso.
      split; [reflexivity|]. split; [reflexivity|]. split; [reflexivity|].
      split; [|repeat split; eauto].
      destruct Hst as [[n ->] | ->]; rewrite <- ?app_assoc, drop_app_length;
        cbn; intros Hin;
        repeat (apply elem_of_cons in Hin as [Hin|Hin]; [discriminate|]);
        apply elem_of_nil in Hin; exact Hin.
    + split; [exact Hres|]. cbn. auto.
Qed.

Lemma blank_input_has_no_token input : trim input = "" -> tokensRaw_of input = [].
Proof. unfold tokensRaw_of. intros ->. reflexivity. Qed.

Lemma first_occurrences_cons t l :
  exists ks, first_occurrences (t :: l) = {| token := t; order := 0 |} :: ks.
Proof.
  unfold first_occurrences, allKeys_of. cbn [imap]. rewrite filter_cons.
  cbn [token order take]. rewrite decide_True by apply not_elem_of_nil. eauto.
Qed.

(** The stores when [startCheck] refuses the input. *)
Lemma startCheck_refuses st :
  let raw := tokensRaw_of (tokensInput (config st)) in
  (MAX_KEYS_LIMIT < Z.of_nat (length raw))%Z ->
  startCheck PROVIDERS st
  = (Ok tt,
     _postStatus TooManyKeys (set_completedCount 0 (clearResults (set_queue None st)))).
Proof.
  intros raw Hlim. unfold startCheck.
  destruct (String.eqb_spec (trim (tokensInput (config st))) "") as [Hb|Hb].
  - exfalso. subst raw. rewrite (blank_input_has_no_token _ Hb) in Hlim.
    unfold MAX_KEYS_LIMIT in Hlim. cbn in Hlim. lia.
  - unfold startCheck_with.
    cbn [config set_completedCount clearResults set_results set_queue]. fold raw.
    rewrite (proj2 (Z.ltb_lt _ _) Hlim). reflexivity.
Qed.

(** C7. On an input that is not blank and within the ceiling, [startCheck]
    sorts the raw keys by token before any batch is formed: every later
    occurrence of a token is stored at once in the bucket "duplicate" with
    its own order and the display text of a repeat, and nothing else is
    stored; with the settings of the provider at hand [startCheck] returns,
    the first occurrences, with their original orders, are what the batch in
    flight and the job queue hold, and the only socket created is still
    connecting. For the input k1, k1, k2 the bucket "duplicate" holds
    exactly one result, of order 1. *)
Theorem startCheck_deduplicates st :
  trim (tokensInput (config st)) <> "" ->
  let raw := tokensRaw_of (tokensInput (config st)) in
  (Z.of_nat (length raw) <= MAX_KEYS_LIMIT)%Z ->
  let st' := after (startCheck PROVIDERS) st in
  results st' duplicate = map duplicate_item (later_occurrences raw)
  /\ (forall c, c <> duplicate -> results st' c = [])
  /\ (forall ps, providerConfigs (config st) (currentProvider (config st)) = Some ps ->
      first_occurrences raw <> [] ->
      in_flight st' ++ waiting st' = first_occurrences raw
      /\ in_flight st' = take BATCH_SIZE (first_occurrences raw)
      /\ (exists pc,
          sockets st'
          = sockets st ++ [new_WebSocket pc (in_flight st') (concurrency (config st))])
      /\ outcome (startCheck PROVIDERS) st = Ok tt)
  /\ (raw = ["k1"; "k1"; "k2"] ->
      results st' duplicate
      = [{| item_id := "k1-" +:+ Number_toString (num_of_Z 1);
            item_token := VStr "k1";
            item_displayText := message_span "k1" "重复";
            item_balance := VUndefined;
            item_order := vnum 1;
            item_details := None |}]).
Proof.
  intros Hne raw Hlim st'.
  destruct (startCheck_stores st Hne Hlim) as [Hres Hrun]. fold raw st' in Hres, Hrun.
  assert (Hdup : results st' duplicate = map duplicate_item (later_occurrences raw)).
  { rewrite Hres. rewrite decide_True by reflexivity. reflexivity. }
  split; [exact Hdup|]. split; [|split].
  - intros c Hc. rewrite Hres. rewrite decide_False by assumption. reflexivity.
  - intros ps Hps Hkeys. rewrite Hps in Hrun.
    destruct (first_occurrences raw) as [|k ks]; [congruence|].
    destruct Hrun as (Hok & _ & _ & _ & _ & Hfl & Hw & _ & _ & pc & Hso).
    rewrite Hfl, Hw, take_drop. repeat split; eauto.
  - intros Hraw. rewrite Hdup, Hraw. reflexivity.
Qed.

(** C9. [startCheck] accepts a raw list of exactly 50,000 keys: no refusal is
    posted, the run is on, and with the settings of the provider at hand
    the job queue exists and the first batch is in flight on a new socket.
    It refuses a longer list before anything else: the refusal is posted,
    [isChecking] is what it was, there is no job queue, no batch, no new
    socket or timer, and nothing is stored. *)
Theorem startCheck_ceiling st :
  let raw := tokensRaw_of (tokensInput (config st)) in
  let st' := after (startCheck PROVIDERS) st in
  (Z.of_nat (length raw) = MAX_KEYS_LIMIT ->
   isChecking st' = true
   /\ (forall ps, providerConfigs (config st) (currentProvider (config st)) = Some ps ->
       (TooManyKeys ∉ drop (length (statuses st)) (statuses st'))
       /\ queue st' <> None
       /\ in_flight st' = take BATCH_SIZE (first_occurrences raw)
       /\ length (sockets st') = S (length (sockets st))
       /\ outcome (startCheck PROVIDERS) st = Ok tt))
  /\ ((MAX_KEYS_LIMIT < Z.of_nat (length raw))%Z ->
      statuses st' = statuses st ++ [TooManyKeys]
      /\ isChecking st' = isChecking st
      /\ queue st' = None
      /\ current st' = current st
      /\ sockets st' = sockets st
      /\ timers st' = timers st
      /\ (forall c, results st' c = [])
      /\ outcome (startCheck PROVIDERS) st = Ok tt).
Proof.
  intros raw st'. split.
  - intros Hlen.
    assert (Hne : trim (tokensInput (config st)) <> "").
    { intros Hb. subst raw. rewrite (blank_input_has_no_token _ Hb) in Hlen.
      unfold MAX_KEYS_LIMIT in Hlen. cbn in Hlen. lia. }
    assert (Hlim : (Z.of_nat (length raw) <= MAX_KEYS_LIMIT)%Z) by lia.
    destruct (startCheck_stores st Hne Hlim) as [_ Hrun]. fold raw st' in Hrun.
    destruct raw as [|t l] eqn:Eraw.
    { unfold MAX_KEYS_LIMIT in Hlen. cbn in Hlen. lia. }
    destruct (first_occurrences_cons t l) as [ks Hks]. rewrite Hks in *.
    destruct (providerConfigs (config st) (currentProvider (config st))) as [ps|].
    + destruct Hrun as (Hok & Hc & _ & Hst & _ & Hfl & Hw & Hq & _ & pc & Hso).
      split; [exact Hc|]. intros ps' _. repeat split; auto.
      rewrite Hso, length_app. cbn. lia.
    + destruct Hrun as (Hc & _). split; [exact Hc|]. intros ps' Hps. discriminate.
  - intros Hlim. subst st'. unfold after, outcome. rewrite (startCheck_refuses st Hlim).
    cbn. repeat split; reflexivity.
Qed.

(** *** Handling a result *)

(** The outcome of a flush is that of building its items. *)
Lemma flushResultBuffer_outcome st :
  outcome (flushResultBuffer PROVIDERS) st
  = match resultBuffer st with
    | [] => Ok tt
    | items =>
        match group_items PROVIDERS (currentProvider (config st)) items with
        | Ok _ => Ok tt
        | Throw e => Throw e
        end
    end.
Proof.
  unfold outcome, flushResultBuffer, addResults.
  destruct (resultBuffer st) as [|x items]; [reflexivity|].
  cbv zeta.
  assert (Hcfg : config (match flushTimerId (set_resultBuffer [] st) with
                         | Some id => set_flushTimerId None
                                        (clearTimeout id (set_resultBuffer [] st))
                         | None => set_resultBuffer [] st
                         end) = config st)
    by (cbn; destruct (flushTimerId st); reflexivity).
  rewrite Hcfg. destruct (group_items _ _ _); reflexivity.
Qed.


(** What [processResult] does, given the result it categorizes. *)
Lemma processResult_run r st :
  let counted := set_completedCount (S (completedCount st)) st in
  processResult PROVIDERS r st
  = match categorized PROVIDERS r counted with
    | Ok r' => bufferResult PROVIDERS r' (lookup_field "order" r') counted
    | Throw e => (Throw e, counted)
    end.
Proof.
  unfold processResult, bind, modify. cbv zeta.
  destruct (categorized PROVIDERS r _); reflexivity.
Qed.

(** Handling a result leaves the run as it is and counts the result; the
    credential it speaks of leaves the batch in flight when the handler
    returns, and stays when it throws. *)
Lemma onmessage_result d st :
  let st' := after (onmessage PROVIDERS (ResultMessage d)) st in
  isChecking st' = isChecking st /\ isPaused st' = isPaused st
  /\ queue st' = queue st /\ socket st' = socket st
  /\ sockets st' = sockets st /\ statuses st' = statuses st
  /\ reconnectAttempts st' = reconnectAttempts st
  /\ config st' = config st
  /\ completedCount st' = S (completedCount st)
  /\ match outcome (onmessage PROVIDERS (ResultMessage d)) st with
     | Ok _ => in_flight st' = filter (other_order d) (in_flight st)
     | Throw _ => current st' = current st
     end.
Proof.
  unfold after, outcome, onmessage. rewrite bind_run, processResult_run.
  set (counted := set_completedCount (S (completedCount st)) st).
  destruct (categorized PROVIDERS d counted) as [r|e];
    [|subst counted; cbn; repeat split; reflexivity].
  destruct (bufferResult_keeps r (lookup_field "order" r) counted)
    as (A & B & C & D & E & F & G & I & J & K).
  unfold after in *.
  destruct (bufferResult PROVIDERS r (lookup_field "order" r) counted)
    as [[[]|e] st2]; cbn [fst snd] in *.
  - unfold modify, in_flight. cbn [fst snd].
    change (current counted) with (current st) in D. rewrite <- D.
    destruct (current st2) as [cb|] eqn:Ecur; cbn;
      rewrite ?Ecur, ?A, ?B, ?C, ?E, ?F, ?G, ?I, ?J, ?K; subst counted;
      repeat split; reflexivity.
  - rewrite A, B, C, D, E, F, G, I, J, K. subst counted. repeat split; reflexivity.
Qed.

Lemma filter_without_nil (l : list key) : filter (without_result []) l = l.
Proof.
  induction l as [|k l IH]; [reflexivity|].
  rewrite filter_cons_True by apply Forall_nil_2. rewrite IH. reflexivity.
Qed.

Lemma filter_without_cons d ds (l : list key) :
  filter (without_result ds) (filter (other_order d) l)
  = filter (without_result (d :: ds)) l.
Proof.
  induction l as [|k l IH]; [reflexivity|].
  destruct (decide (other_order d k)) as [Hd|Hd].
  - rewrite (filter_cons_True (other_order d)) by exact Hd.
    destruct (decide (without_result ds k)) as [Hds|Hds].
    + rewrite !filter_cons_True; [|apply Forall_cons; split; assumption|exact Hds].
      rewrite IH. reflexivity.
    + rewrite !filter_cons_False; [exact IH| |exact Hds].
      intros Hall. apply Forall_cons in Hall as [_ Hall]. contradiction.
  - rewrite (filter_cons_False (other_order d)) by exact Hd.
    rewrite filter_cons_False; [exact IH|].
    intros Hall. apply Forall_cons in Hall as [Hall _]. contradiction.
Qed.

(** After results have reached the page, the batch in flight holds the
    credentials of which no handled result speaks. *)
Lemma deliver_results_batch ds : forall st,
  let st' := deliver_results PROVIDERS ds st in
  isChecking st' = isChecking st /\ isPaused st' = isPaused st
  /\ reconnectAttempts st' = reconnectAttempts st
  /\ sockets st' = sockets st
  /\ in_flight st'
     = filter (without_result (handled_results PROVIDERS ds st)) (in_flight st).
Proof.
  induction ds as [|d ds IH]; intros st.
  - cbn. rewrite filter_without_nil. repeat split; reflexivity.
  - specialize (IH (after (onmessage PROVIDERS (ResultMessage d)) st)).
    destruct (onmessage_result d st) as (A & B & _ & _ & E & _ & G & _ & _ & Hb).
    cbv zeta in *.
    change (deliver_results PROVIDERS (d :: ds) st)
      with (deliver_results PROVIDERS ds (after (onmessage PROVIDERS (ResultMessage d)) st)).
    destruct IH as (A' & B' & G' & E' & Hb').
    rewrite A', B', G', E', Hb', A, B, G, E.
    split; [reflexivity|]. split; [reflexivity|]. split; [reflexivity|].
    split; [reflexivity|].
    cbn [handled_results].
    destruct (outcome (onmessage PROVIDERS (ResultMessage d)) st) as [[]|e].
    + rewrite Hb, filter_without_cons. reflexivity.
    + unfold in_flight. rewrite Hb. reflexivity.
Qed.


(** *** Categories *)

(** What [categorizeTokenError] makes of a result: "valid" exactly for a
    truthy [isValid], else one of "invalid", "noQuota" and "rateLimit"; it
    throws only on a message that is truthy and not a string. *)
Lemma categorizeTokenError_verdict r :
  match categorizeTokenError r with
  | Ok c =>
      if truthy (lookup_field "isValid" r) then c = valid
      else c = invalid \/ c = noQuota \/ c = rateLimit
  | Throw _ =>
      truthy (lookup_field "isValid" r) = false
      /\ truthy (lookup_field "message" r) = true
      /\ forall m, lookup_field "message" r <> VStr m
  end.
Proof.
  unfold categorizeTokenError.
  destruct (truthy (lookup_field "isValid" r)); [reflexivity|].
  destruct (truthy (lookup_field "message" r)) eqn:Em.
  - destruct (lookup_field "message" r); try (repeat split; congruence).
    repeat match goal with
           | |- context [if ?b then _ else _] => destruct b
           end; auto.
  - repeat match goal with
           | |- context [if ?b then _ else _] => destruct b
           end; auto.
Qed.

(** X7. The final category [processResult] gives a result, when it gives
    one: "valid", "lowBalance" or "zeroBalance" for a result whose [isValid]
    is truthy, and "invalid", "noQuota" or "rateLimit" for any other, never
    "duplicate"; no other member of the result is touched. So a key the
    validator rejected is never shown among the valid ones, whatever the
    balance, the threshold and the provider. *)
Theorem categorized_verdict r st :
  match categorized PROVIDERS r st with
  | Ok r' =>
      (exists c,
        lookup_field "finalCategory" r' = VStr (category_name c)
        /\ if truthy (lookup_field "isValid" r)
           then c = valid \/ c = lowBalance \/ c = zeroBalance
           else c = invalid \/ c = noQuota \/ c = rateLimit)
      /\ forall k, String.eqb k "finalCategory" = false ->
                   lookup_field k r' = lookup_field k r
  | Throw _ => True
  end.
Proof.
  unfold categorized.
  pose proof (categorizeTokenError_verdict r) as Hc.
  destruct (categorizeTokenError r) as [c|e]; cbn [and_then]; [|exact I].
  rewrite lookup_set_field_other by reflexivity.
  destruct (truthy (lookup_field "isValid" r)).
  - subst c. destruct (PROVIDERS _) as [meta|]; [|exact I].
    destruct (Checkers.hasBalance meta).
    + unfold balance_category.
      destruct (is_zero _); [|destruct (lt_number _ _) as [[|]|]]; cbn [and_then];
        try exact I;
        (split; [eexists; split; [apply lookup_set_field|auto]|]);
        intros k Hk; rewrite !lookup_set_field_other by exact Hk; reflexivity.
    + split; [exists valid; split; [apply lookup_set_field|auto]|].
      intros k Hk. rewrite lookup_set_field_other by exact Hk. reflexivity.
  - split; [exists c; split; [apply lookup_set_field|exact Hc]|].
    intros k Hk. rewrite lookup_set_field_other by exact Hk. reflexivity.
Qed.

(** *** Closing sockets *)

Lemma drop_socket_keeps st :
  let st' := drop_socket st in
  isChecking st' = isChecking st /\ isPaused st' = isPaused st
  /\ queue st' = queue st /\ current st' = current st /\ socket st' = None
  /\ statuses st' = statuses st /\ reconnectAttempts st' = reconnectAttempts st.
Proof.
  unfold drop_socket. destruct (socket st) eqn:E; cbn; repeat split; auto.
Qed.

(** [stopCheck] ends the run and says so when its flush returns; when the
    flush throws, [stopCheck] ends there. *)
Lemma stopCheck_stops st :
  let st' := after (stopCheck PROVIDERS) st in
  match outcome (flushResultBuffer PROVIDERS) st with
  | Ok _ =>
      outcome (stopCheck PROVIDERS) st = Ok tt
      /\ isChecking st' = false /\ isPaused st' = false /\ queue st' = None
      /\ current st' = None /\ socket st' = None
      /\ statuses st' = statuses st ++ [Stopped]
  | Throw e =>
      outcome (stopCheck PROVIDERS) st = Throw e
      /\ st' = after (flushResultBuffer PROVIDERS) st
  end.
Proof.
  unfold after, outcome, stopCheck, bind, modify.
  destruct (flushResultBuffer_keeps st) as (Hc & Hp & Hq & Hcu & Hso & Hss & Hst & _).
  unfold after in *.
  destruct (flushResultBuffer PROVIDERS st) as [[[]|e] st1]; cbn [fst snd] in *;
    [|split; reflexivity].
  set (st2 := set_current None (set_queue None (set_isPaused false (set_isChecking false st1)))).
  destruct (drop_socket_keeps st2) as (Dc & Dp & Dq & Dcu & Dso & Dst & Dr).
  cbn [_postStatus set_statuses isChecking isPaused queue current socket statuses].
  rewrite Dc, Dp, Dq, Dcu, Dso, Dst. subst st2. cbn. rewrite Hst.
  repeat split; reflexivity.
Qed.

Lemma in_flight_empty st :
  in_flight st = [] ->
  (if current st is Some cb then (0 <? length (batch cb))%nat else false) = false.
Proof. unfold in_flight. destruct (current st) as [cb|]; [intros ->|]; reflexivity. Qed.

Lemma in_flight_nonempty st :
  in_flight st <> [] ->
  (if current st is Some cb then (0 <? length (batch cb))%nat else false) = true.
Proof.
  unfold in_flight. destruct (current st) as [cb|]; [|congruence].
  destruct (batch cb); [congruence|reflexivity].
Qed.

(** What [onclose] does on an abnormal close of an active run when an
    attempt is left and the batch in flight is not empty. *)
Lemma onclose_schedules st code :
  code <> 1000%Z -> isChecking st = true -> isPaused st = false ->
  (reconnectAttempts st < MAX_RECONNECT_ATTEMPTS)%nat -> in_flight st <> [] ->
  onclose PROVIDERS code st
  = (Ok tt,
     snd (setTimeout CallReconnect (1000 * S (reconnectAttempts st))
            (_postStatus (Reconnecting (S (reconnectAttempts st)))
               (set_reconnectAttempts (S (reconnectAttempts st)) st)))).
Proof.
  intros Hcode Hc Hp Hn Hb. unfold onclose.
  rewrite (proj2 (Z.eqb_neq _ _) Hcode), Hc, Hp. cbn [negb andb].
  rewrite (proj2 (Nat.ltb_lt _ _) Hn), (in_flight_nonempty st Hb). reflexivity.
Qed.

(** What it does when no attempt is left or nothing is in flight. *)
Lemma onclose_gives_up st code :
  code <> 1000%Z -> isChecking st = true -> isPaused st = false ->
  (MAX_RECONNECT_ATTEMPTS <= reconnectAttempts st)%nat \/ in_flight st = [] ->
  onclose PROVIDERS code st = stopCheck PROVIDERS (_postStatus ReconnectFailed st).
Proof.
  intros Hcode Hc Hp Hn. unfold onclose.
  rewrite (proj2 (Z.eqb_neq _ _) Hcode), Hc, Hp. cbn [negb andb].
  destruct Hn as [Hn|Hb].
  - rewrite (proj2 (Nat.ltb_ge _ _) Hn). reflexivity.
  - rewrite (in_flight_empty st Hb), andb_false_r. reflexivity.
Qed.

Lemma flushResultBuffer_creates_nothing st :
  next_timer (after (flushResultBuffer PROVIDERS) st) = next_timer st.
Proof.
  unfold after, flushResultBuffer, addResults.
  destruct (resultBuffer st) as [|x items]; [reflexivity|].
  cbv zeta. destruct (group_items PROVIDERS _ (x :: items));
    destruct (flushTimerId (set_resultBuffer [] st)); reflexivity.
Qed.

Lemma drop_socket_creates_nothing st :
  length (sockets (drop_socket st)) = length (sockets st)
  /\ next_timer (drop_socket st) = next_timer st.
Proof.
  unfold drop_socket, ws_close, update_socket.
  destruct (socket st); cbn; rewrite ?length_alter; split; reflexivity.
Qed.

(** The stores when [onclose] gives up: the failure is posted and the run
    is stopped, unless the flush of [stopCheck] throws; then the failure is
    all that is posted and the run stays on. Neither a timer nor a socket is
    created. *)
Lemma onclose_aborts st code :
  code <> 1000%Z -> isChecking st = true -> isPaused st = false ->
  (MAX_RECONNECT_ATTEMPTS <= reconnectAttempts st)%nat \/ in_flight st = [] ->
  let st' := after (onclose PROVIDERS code) st in
  length (sockets st') = length (sockets st)
  /\ next_timer st' = next_timer st
  /\ match outcome (flushResultBuffer PROVIDERS) st with
     | Ok _ =>
         outcome (onclose PROVIDERS code) st = Ok tt
         /\ isChecking st' = false /\ queue st' = None /\ current st' = None
         /\ socket st' = None
         /\ statuses st' = statuses st ++ [ReconnectFailed; Stopped]
     | Throw e =>
         outcome (onclose PROVIDERS code) st = Throw e
         /\ isChecking st' = true
         /\ statuses st' = statuses st ++ [ReconnectFailed]
         /\ resultBuffer st' = []
         /\ results st' = results st
     end.
Proof.
  intros Hcode Hc Hp Hn st'. subst st'.
  change (after (onclose PROVIDERS code) st) with (snd (onclose PROVIDERS code st)).
  change (outcome (onclose PROVIDERS code) st) with (fst (onclose PROVIDERS code st)).
  rewrite (onclose_gives_up st code Hcode Hc Hp Hn).
  assert (Hrun : stopCheck PROVIDERS (_postStatus ReconnectFailed st)
                 = match outcome (flushResultBuffer PROVIDERS) st with
                   | Ok _ =>
                       (Ok tt,
                        _postStatus Stopped
                          (drop_socket
                             (set_current None
                                (set_queue None
                                   (set_isPaused false
                                      (set_isChecking false
                                         (_postStatus ReconnectFailed
                                            (after (flushResultBuffer PROVIDERS) st))))))))
                   | Throw e =>
                       (Throw e,
                        _postStatus ReconnectFailed (after (flushResultBuffer PROVIDERS) st))
                   end).
  { unfold stopCheck. rewrite bind_run, flushResultBuffer_postStatus.
    destruct (outcome (flushResultBuffer PROVIDERS) st) as [[]|e]; reflexivity. }
  rewrite Hrun. clear Hrun.
  destruct (flushResultBuffer_keeps st)
    as (Fc & Fp & Fq & Fcu & Fso & Fss & Fst & Fr & Fcfg & Fcc & Fb & Fth).
  pose proof (flushResultBuffer_creates_nothing st) as Fn.
  destruct (outcome (flushResultBuffer PROVIDERS) st) as [[]|e] eqn:Eflush; cbn [fst snd].
  - match goal with
    | |- context [drop_socket ?s] =>
        destruct (drop_socket_keeps s) as (Dc & Dp & Dq & Dcu & Dso & Dst & Dr);
        destruct (drop_socket_creates_nothing s) as (Dl & Dn)
    end.
    cbn [_postStatus set_statuses isChecking queue current socket statuses sockets
         next_timer].
    rewrite Dl, Dn, Dc, Dq, Dcu, Dso, Dst. cbn. rewrite Fss, Fn, Fst, <- app_assoc.
    repeat split; reflexivity.
  - cbn [_postStatus set_statuses isChecking statuses resultBuffer results sockets
         next_timer].
    rewrite Fss, Fn, Fc, Fst, Fb, (Fth e eq_refl), Hc. repeat split; reflexivity.
Qed.

(** An abnormal close followed by the callback of its timer: the run stays
    on, one more attempt is counted, and one more socket carries the batch
    that was in flight. *)
Lemma close_then_reconnect st code :
  code <> 1000%Z -> isChecking st = true -> isPaused st = false ->
  (reconnectAttempts st < MAX_RECONNECT_ATTEMPTS)%nat -> in_flight st <> [] ->
  let st' := after reconnect (after (onclose PROVIDERS code) st) in
  isChecking st' = true /\ isPaused st' = false
  /\ reconnectAttempts st' = S (reconnectAttempts st)
  /\ in_flight st' = in_flight st
  /\ queue st' = queue st
  /\ socket st' = Some (length (sockets st))
  /\ resultBuffer st' = resultBuffer st
  /\ config st' = config st
  /\ outcome reconnect (after (onclose PROVIDERS code) st) = Ok tt
  /\ exists pc n,
      sockets st' = sockets st ++ [new_WebSocket pc (in_flight st) n].
Proof.
  intros Hcode Hc Hp Hn Hb st'. subst st'. unfold after, outcome.
  rewrite (onclose_schedules st code Hcode Hc Hp Hn Hb).
  unfold reconnect, in_flight in *. cbn. rewrite Hc, Hp. cbn.
  destruct (current st) as [cb|] eqn:Ecur; [|congruence].
  cbn. rewrite ?Ecur. repeat split; eauto.
Qed.

(** *** The buffer between two events *)

Ltac state_simpl :=
  cbn [config results isChecking isPaused completedCount totalTasks socket statuses
       reconnectAttempts current queue resultBuffer flushTimerId sockets timers
       next_timer now
       set_config set_results set_isChecking set_isPaused set_completedCount
       set_totalTasks set_socket set_statuses set_reconnectAttempts set_current
       set_queue set_resultBuffer set_flushTimerId set_sockets set_timers
       set_next_timer set_now fst snd] in *.

Lemma buffer_inv_view st st' :
  buffer_view st' = buffer_view st -> now st <= now st' ->
  buffer_inv st -> buffer_inv st'.
Proof.
  unfold buffer_view. intros [= Hb Hf Ht Hn] Hnow [I1 I2 I3 I4 I5].
  split; rewrite ?Hb, ?Hf, ?Ht, ?Hn; auto.
  intros id Hid. destruct (I3 id Hid) as (t & Hin & Hti & Hcb & Hdue).
  exists t. repeat split; auto. lia.
Qed.

Lemma NoDup_filter_map {A B} (f : A -> B) (P : A -> Prop) `{forall x, Decision (P x)} l :
  NoDup (map f l) -> NoDup (map f (filter P l)).
Proof.
  induction l as [|x l IH]; [auto|]. cbn [map]. intros [Hx Hl]%NoDup_cons.
  rewrite filter_cons. destruct (decide (P x)); [|auto].
  cbn [map]. apply NoDup_cons. split; [|auto].
  intros Hin. apply Hx. apply list_elem_of_fmap in Hin as (y & -> & Hy).
  apply list_elem_of_fmap. exists y. split; [reflexivity|].
  apply list_elem_of_filter in Hy. tauto.
Qed.

Lemma Forall_filter_keeps {A} (P Q : A -> Prop) `{forall x, Decision (Q x)} l :
  Forall P l -> Forall P (filter Q l).
Proof.
  rewrite !Forall_forall. intros Hl x Hx. apply list_elem_of_filter in Hx. apply Hl, Hx.
Qed.

Lemma same_timer (ts : list timer) t t' :
  NoDup (map timer_id ts) -> t ∈ ts -> t' ∈ ts -> timer_id t = timer_id t' -> t = t'.
Proof.
  induction ts as [|x ts IH]; [intros _ Hin; inversion Hin|].
  cbn [map]. intros [Hx Hts]%NoDup_cons Ht Ht' Hid.
  apply elem_of_cons in Ht as [->|Ht]; apply elem_of_cons in Ht' as [->|Ht']; auto.
  - exfalso. apply Hx. rewrite Hid. apply list_elem_of_fmap. eauto.
  - exfalso. apply Hx. rewrite <- Hid. apply list_elem_of_fmap. eauto.
Qed.

(** *** Rules *)

Lemma frames_preserves {A} (m : Act A) : frames m -> preserves m.
Proof.
  intros Hm st I. destruct (Hm st) as [Hv Hn].
  apply (buffer_inv_view st); [exact Hv|lia|exact I].
Qed.

Lemma frames_ret {A} (a : A) : frames (ret a).
Proof. intros st. split; reflexivity. Qed.

Lemma frames_throw {A} e : frames (throw (A := A) e).
Proof. intros st. split; reflexivity. Qed.

Lemma frames_lift {A} (r : result A) : frames (lift r).
Proof. intros st. split; reflexivity. Qed.

Lemma frames_modify f :
  (forall st, buffer_view (f st) = buffer_view st /\ now (f st) = now st) ->
  frames (modify f).
Proof. intros Hf st. exact (Hf st). Qed.

Lemma frames_bind {A B} (m : Act A) (k : A -> Act B) :
  frames m -> (forall a, frames (k a)) -> frames (bind m k).
Proof.
  intros Hm Hk st. unfold after, bind. specialize (Hm st). unfold after in Hm.
  destruct (m st) as [[a|e] st1]; cbn [snd] in *; [|exact Hm].
  specialize (Hk a st1). unfold after in Hk. destruct Hk as [Hv Hn], Hm as [Hv' Hn'].
  split; congruence.
Qed.

Lemma preserves_bind {A B} (m : Act A) (k : A -> Act B) :
  preserves m -> (forall a, preserves (k a)) -> preserves (bind m k).
Proof.
  intros Hm Hk st I. unfold after, bind. specialize (Hm st I). unfold after in Hm.
  destruct (m st) as [[a|e] st1]; cbn [snd] in *; [|exact Hm].
  exact (Hk a st1 Hm).
Qed.

Lemma setTimeout_keeps cb d st :
  Forall (fun t => timer_id t < next_timer st) (timers st) ->
  NoDup (map timer_id (timers st)) ->
  let st' := snd (setTimeout cb d st) in
  Forall (fun t => timer_id t < next_timer st') (timers st')
  /\ NoDup (map timer_id (timers st')).
Proof.
  intros I4 I5. unfold setTimeout. state_simpl. split.
  - apply Forall_app. split.
    + eapply Forall_impl; [exact I4|]. cbn. intros; lia.
    + repeat constructor.
  - rewrite map_app. apply NoDup_app. split; [exact I5|].
    split; [|cbn; repeat constructor; apply not_elem_of_nil].
    intros x Hx. cbn. rewrite list_elem_of_singleton. intros ->.
    apply list_elem_of_fmap in Hx as (t & Ht & Hin).
    rewrite Forall_forall in I4. specialize (I4 t Hin). lia.
Qed.

Lemma setTimeout_buffer_inv cb d st :
  buffer_inv st -> buffer_inv (snd (setTimeout cb d st)).
Proof.
  intros [I1 I2 I3 I4 I5].
  destruct (setTimeout_keeps cb d st I4 I5) as [K4 K5].
  split; [exact I1|exact I2| |exact K4|exact K5].
  intros id Hid. destruct (I3 id Hid) as (t & Hin & Ht).
  exists t. split; [|exact Ht].
  unfold setTimeout. state_simpl. apply elem_of_app. left. exact Hin.
Qed.

Lemma clearTimeout_keeps id st :
  Forall (fun t => timer_id t < next_timer st) (timers st) ->
  NoDup (map timer_id (timers st)) ->
  Forall (fun t => timer_id t < next_timer st) (timers (clearTimeout id st))
  /\ NoDup (map timer_id (timers (clearTimeout id st))).
Proof.
  intros I4 I5. unfold clearTimeout. state_simpl. split.
  - apply Forall_filter_keeps, I4.
  - apply NoDup_filter_map, I5.
Qed.

Lemma empty_buffer_inv st :
  resultBuffer st = [] -> flushTimerId st = None ->
  Forall (fun t => timer_id t < next_timer st) (timers st) ->
  NoDup (map timer_id (timers st)) ->
  buffer_inv st.
Proof.
  intros Eb Ef I4 I5. split; auto.
  - rewrite Eb. unfold BUFFER_MAX_SIZE. cbn. lia.
  - tauto.
  - intros id Hid. congruence.
Qed.

Lemma addResults_frames items : frames (addResults PROVIDERS items).
Proof.
  intros st. unfold after, addResults. destruct items; [split; reflexivity|].
  destruct (group_items _ _ _); split; reflexivity.
Qed.

(** A flush of a buffer that is not empty sets up the invariant, whether
    it returns or throws. *)
Lemma flushResultBuffer_sets_up st :
  resultBuffer st <> [] ->
  Forall (fun t => timer_id t < next_timer st) (timers st) ->
  NoDup (map timer_id (timers st)) ->
  buffer_inv (after (flushResultBuffer PROVIDERS) st).
Proof.
  intros Hne I4 I5. unfold after, flushResultBuffer.
  destruct (resultBuffer st) eqn:Eb; [congruence|].
  match goal with
  | |- buffer_inv (snd (addResults _ ?items ?s)) =>
      destruct (addResults_frames items s) as [Hv Hn]; unfold after in Hv, Hn;
      apply (buffer_inv_view s); [exact Hv|rewrite Hn; lia|]
  end.
  state_simpl.
  destruct (flushTimerId st) as [id|] eqn:Ef; state_simpl.
  - destruct (clearTimeout_keeps id (set_resultBuffer [] st) I4 I5).
    apply empty_buffer_inv; auto.
  - apply empty_buffer_inv; auto.
Qed.

Lemma flushResultBuffer_preserves : preserves (flushResultBuffer PROVIDERS).
Proof.
  intros st I. destruct (resultBuffer st) eqn:Eb.
  - unfold after. rewrite flushResultBuffer_empty by exact Eb. exact I.
  - apply flushResultBuffer_sets_up; [congruence|apply I|apply I].
Qed.

Lemma bufferResult_preserves r o : preserves (bufferResult PROVIDERS r o).
Proof.
  intros st I. unfold after, bufferResult.
  set (st1 := set_resultBuffer (resultBuffer st ++ [{| res := r; entry_order := o |}]) st).
  assert (Hne : resultBuffer st1 <> []).
  { subst st1. state_simpl. destruct (resultBuffer st); discriminate. }
  destruct (BUFFER_MAX_SIZE <=? _)%nat eqn:E.
  - apply flushResultBuffer_sets_up; [exact Hne|apply I|apply I].
  - apply Nat.leb_gt in E. destruct I as [I1 I2 I3 I4 I5].
    destruct (flushTimerId st1) as [id|] eqn:Ef.
    + subst st1. split; state_simpl; rewrite ?Ef;
        [exact E| |intros id' [= <-]; exact (I3 id Ef)|exact I4|exact I5].
      split; [intros Hb; destruct (resultBuffer st); discriminate|discriminate].
    + destruct (setTimeout_keeps CallFlush BUFFER_FLUSH_INTERVAL st1 I4 I5) as [K4 K5].
      unfold setTimeout in *. state_simpl.
      split; state_simpl; [exact E| |  |exact K4|exact K5].
      * split; [intros Hb; destruct (resultBuffer st); discriminate|discriminate].
      * intros id [= <-]. eexists. split.
        -- apply elem_of_app. right. apply list_elem_of_singleton. reflexivity.
        -- cbn. repeat split; lia.
Qed.

Lemma clearTimeout_buffer_inv id st :
  buffer_inv st -> flushTimerId st <> Some id -> buffer_inv (clearTimeout id st).
Proof.
  intros [I1 I2 I3 I4 I5] Hid.
  destruct (clearTimeout_keeps id st I4 I5) as [K4 K5].
  split; [exact I1|exact I2| |exact K4|exact K5].
  intros id' Hid'. destruct (I3 id' Hid') as (t & Hin & Hti & Ht).
  exists t. split; [|auto]. unfold clearTimeout. state_simpl.
  apply list_elem_of_filter. split; [|exact Hin]. intros E. apply Hid.
  change (flushTimerId st = Some id') in Hid'. congruence.
Qed.

(** A step that changes neither buffer nor timers nor clock. *)
Ltac framed :=
  match goal with
  | I : buffer_inv ?st |- buffer_inv ?st' =>
      apply (buffer_inv_view st);
        [reflexivity|first [apply Nat.eq_le_incl; reflexivity | cbn; lia]|exact I]
  end.

Lemma drop_socket_view st :
  buffer_view (drop_socket st) = buffer_view st /\ now (drop_socket st) = now st.
Proof. unfold drop_socket. destruct (socket st); split; reflexivity. Qed.

Lemma processResult_preserves r : preserves (processResult PROVIDERS r).
Proof.
  unfold processResult. apply preserves_bind.
  - apply frames_preserves, frames_modify. intros st. split; reflexivity.
  - intros _. apply preserves_bind.
    + apply frames_preserves. intros st. split; reflexivity.
    + intros r'. apply bufferResult_preserves.
Qed.

Lemma finishCheck_preserves : preserves (finishCheck PROVIDERS).
Proof.
  unfold finishCheck. apply preserves_bind; [apply flushResultBuffer_preserves|].
  intros _. apply frames_preserves, frames_modify. intros st. split; reflexivity.
Qed.

Lemma processNextBatch_preserves : preserves (processNextBatch PROVIDERS).
Proof.
  intros st I. unfold after, processNextBatch.
  destruct (isPaused st); [exact I|].
  assert (I' : buffer_inv (set_reconnectAttempts 0 st)) by framed.
  cbn [queue set_reconnectAttempts].
  destruct (queue st) as [jq|]; [|apply finishCheck_preserves, I'].
  destruct (remainingKeys jq); [apply finishCheck_preserves, I'|].
  cbn [snd]. framed.
Qed.

Lemma stopCheck_preserves : preserves (stopCheck PROVIDERS).
Proof.
  unfold stopCheck. apply preserves_bind; [apply flushResultBuffer_preserves|].
  intros _. apply frames_preserves, frames_modify. intros st.
  match goal with
  | |- context [drop_socket ?s] => destruct (drop_socket_view s) as [Hv Hn]
  end.
  split; [exact Hv|exact Hn].
Qed.

Lemma pauseCheck_preserves : preserves (pauseCheck PROVIDERS).
Proof.
  intros st I. unfold after, pauseCheck.
  destruct (negb (isChecking st) || isPaused st); [exact I|].
  revert st I. apply preserves_bind; [apply flushResultBuffer_preserves|].
  intros _. apply frames_preserves, frames_modify. intros st.
  change (current (set_isPaused true st)) with (current st).
  change (queue (set_isPaused true st)) with (queue st).
  destruct (current st) as [cb|]; [destruct (queue st) as [jq|];
    [destruct (0 <? length (batch cb))%nat|]|];
    match goal with
    | |- context [drop_socket ?s] => destruct (drop_socket_view s) as [Hv Hn]
    end;
    (split; [exact Hv|exact Hn]).
Qed.

Lemma resumeCheck_preserves : preserves (resumeCheck PROVIDERS).
Proof.
  intros st I. unfold after, resumeCheck.
  destruct (negb (isChecking st) || negb (isPaused st)); [exact I|].
  apply processNextBatch_preserves. framed.
Qed.

Lemma startCheck_preserves : preserves (startCheck PROVIDERS).
Proof.
  intros st I. unfold after, startCheck.
  destruct (String.eqb _ _); [cbn [snd]; framed|].
  cbv zeta.
  match goal with
  | |- context [startCheck_with _ ?raw _] => generalize raw; intros tokensRaw
  end.
  set (st0 := set_completedCount 0 (clearResults (set_queue None st))).
  assert (I0 : buffer_inv st0) by (subst st0; framed).
  clearbody st0. clear I st. revert st0 I0.
  unfold startCheck_with. intros st I.
  destruct (MAX_KEYS_LIMIT <? _)%Z; [cbn [snd]; framed|].
  revert st I. apply preserves_bind.
  - destruct (0 <? _)%nat; [|apply frames_preserves, frames_ret].
    apply frames_preserves, frames_bind; [apply addResults_frames|].
    intros _. apply frames_modify. intros st. split; reflexivity.
  - intros _ st I. unfold after.
    destruct (keysToProcess _); [cbn [snd]; framed|].
    cbn [config set_totalTasks set_isPaused set_isChecking].
    destruct (providerConfigs _ _); [|cbn [snd]; framed].
    apply processNextBatch_preserves. framed.
Qed.

Lemma onmessage_preserves m : preserves (onmessage PROVIDERS m).
Proof.
  destruct m; cbn [onmessage].
  - apply preserves_bind; [apply processResult_preserves|].
    intros _. apply frames_preserves, frames_modify. intros st.
    destruct (current st); split; reflexivity.
  - apply frames_preserves, frames_ret.
  - apply preserves_bind; [|intros _; apply stopCheck_preserves].
    apply frames_preserves, frames_modify. intros st. split; reflexivity.
  - intros st I. unfold after. cbn [socket set_current].
    destruct (socket st); cbn [snd]; [|framed].
    apply setTimeout_buffer_inv. framed.
Qed.

Lemma onclose_preserves code : preserves (onclose PROVIDERS code).
Proof.
  intros st I. unfold after, onclose.
  destruct (negb (code =? 1000)%Z && isChecking st && negb (isPaused st)); [|exact I].
  destruct (_ && _).
  - cbn [snd]. apply setTimeout_buffer_inv. framed.
  - apply stopCheck_preserves. framed.
Qed.

Lemma reconnect_preserves : preserves reconnect.
Proof.
  intros st I. unfold after, reconnect.
  destruct (isChecking st && negb (isPaused st)); [|exact I].
  destruct (current st); cbn [snd]; [framed|exact I].
Qed.

Lemma onopen_preserves id : preserves (onopen PROVIDERS id).
Proof.
  intros st I. unfold after, onopen.
  destruct (sockets st !! id); [|exact I].
  destruct (socket st) as [cur|]; [|exact I].
  destruct (ready <$> sockets st !! cur) as [[| |]|]; cbn [snd]; try exact I. framed.
Qed.

Lemma run_callback_preserves cb : preserves (run_callback PROVIDERS cb).
Proof.
  destruct cb; cbn [run_callback];
    [apply processNextBatch_preserves|apply reconnect_preserves
    |apply flushResultBuffer_preserves].
Qed.

Lemma step_buffer_inv e st st' :
  buffer_inv st -> step PROVIDERS e st = Some st' -> buffer_inv st'.
Proof.
  intros I. destruct e; cbn [step].
  - intros [= <-]. apply startCheck_preserves, I.
  - intros [= <-]. apply pauseCheck_preserves, I.
  - intros [= <-]. apply resumeCheck_preserves, I.
  - intros [= <-]. apply stopCheck_preserves, I.
  - intros [= <-]. framed.
  - destruct (List.find _ (timers st)) as [t|] eqn:Et; [|discriminate].
    destruct (due t <=? now st)%nat; [|discriminate]. intros [= <-].
    apply find_some in Et as [Hin Heq]. apply Nat.eqb_eq in Heq.
    apply list_elem_of_In in Hin.
    destruct (decide (flushTimerId st = Some id)) as [Hf|Hf].
    + destruct (buf_timer _ I id Hf) as (t' & Hin' & Hid' & Hcb' & _).
      assert (t = t') by (eapply same_timer; eauto using buf_nodup; congruence).
      subst t'. rewrite Hcb'. cbn [run_callback].
      destruct (clearTimeout_keeps id st (buf_fresh _ I) (buf_nodup _ I)) as [K4 K5].
      apply flushResultBuffer_sets_up; [|exact K4|exact K5].
      unfold clearTimeout. state_simpl. intros Eb.
      apply (buf_empty _ I) in Eb. congruence.
    + apply run_callback_preserves, clearTimeout_buffer_inv; assumption.
  - destruct (sockets st !! id) as [ws|]; [|discriminate].
    destruct (ready ws); try discriminate. intros [= <-].
    apply onopen_preserves. framed.
  - destruct (sockets st !! id) as [ws|]; [|discriminate]. intros [= <-]. framed.
  - destruct (sockets st !! id) as [ws|]; [|discriminate].
    destruct (ready ws); try discriminate.
    destruct (WorkerPool.calls (session ws) !! delivered ws); [|discriminate].
    intros [= <-]. apply onmessage_preserves. framed.
  - destruct (sockets st !! id) as [ws|]; [|discriminate].
    destruct (close_seen ws); [discriminate|]. intros [= <-].
    destruct (onclose_set ws); [apply onclose_preserves|]; framed.
Qed.

(** The invariant holds when the page has loaded. *)
Lemma initial_buffer_inv c : buffer_inv (initial c).
Proof.
  split; cbn; [unfold BUFFER_MAX_SIZE; lia|tauto|discriminate|constructor|constructor].
Qed.

(** X6. Between two events of a run that starts from a state in which the
    buffer invariant holds, as it does on a freshly loaded page, the result
    buffer holds fewer results than its capacity, and whenever it holds one
    the flush is scheduled: the timer [flushTimerId] names is pending, will
    call [flushResultBuffer], and is due within the flush interval. This
    holds whatever the events are and whichever handlers throw. *)
Theorem buffered_results_have_a_flush_pending evs : forall st st',
  buffer_inv st -> run PROVIDERS evs st = Some st' ->
  buffer_inv st'
  /\ (resultBuffer st' <> [] ->
      exists t, t ∈ timers st' /\ timer_callback t = CallFlush
                /\ due t <= now st' + BUFFER_FLUSH_INTERVAL
                /\ flushTimerId st' = Some (timer_id t)).
Proof.
  assert (Hinv : forall st st', buffer_inv st -> run PROVIDERS evs st = Some st' ->
                                buffer_inv st').
  { induction evs as [|e evs IH]; intros st st' I; cbn [run].
    - intros [= <-]. exact I.
    - destruct (step PROVIDERS e st) as [st1|] eqn:Es; [|discriminate].
      apply IH. exact (step_buffer_inv e st st1 I Es). }
  intros st st' I Hrun. pose proof (Hinv st st' I Hrun) as I'.
  split; [exact I'|]. intros Hne.
  destruct (flushTimerId st') as [id|] eqn:Ef.
  - destruct (buf_timer _ I' id Ef) as (t & Hin & Hid & Hcb & Hdue).
    exists t. subst id. auto.
  - apply (buf_empty _ I') in Ef. contradiction.
Qed.

(** *** Pausing and resuming *)

(** What [pauseCheck] does to an active run: after the flush, the batch in
    flight goes back to the head of the queue and the socket is let go. *)
Lemma pauseCheck_run st jq :
  isChecking st = true -> isPaused st = false -> queue st = Some jq ->
  let st1 := after (pauseCheck PROVIDERS) st in
  match outcome (flushResultBuffer PROVIDERS) st with
  | Ok _ =>
      outcome (pauseCheck PROVIDERS) st = Ok tt
      /\ isChecking st1 = true /\ isPaused st1 = true /\ socket st1 = None
      /\ current st1 = None
      /\ queue st1 = Some {| remainingKeys := in_flight st ++ remainingKeys jq;
                             jq_providerConfig := jq_providerConfig jq;
                             jq_concurrency := jq_concurrency jq |}
      /\ statuses st1 = statuses st ++ [Paused]
      /\ resultBuffer st1 = []
  | Throw e =>
      outcome (pauseCheck PROVIDERS) st = Throw e
      /\ st1 = after (flushResultBuffer PROVIDERS) st
  end.
Proof.
  intros Hc Hp Hq st1. subst st1. unfold after, outcome, pauseCheck.
  rewrite Hc, Hp. cbn [negb orb]. rewrite bind_run.
  destruct (flushResultBuffer_keeps st)
    as (Fc & Fp & Fq & Fcu & Fso & Fss & Fst & Fr & Fcfg & Fcc & Fb & _).
  unfold after in *.
  destruct (flushResultBuffer PROVIDERS st) as [[[]|e] sf]; cbn [fst snd] in *;
    [|split; reflexivity].
  unfold modify. cbn [fst snd].
  change (current (set_isPaused true sf)) with (current sf).
  change (queue (set_isPaused true sf)) with (queue sf).
  rewrite Fcu, Fq, Hq. unfold in_flight.
  destruct (current st) as [cb|]; [destruct (batch cb) as [|k ks]|];
    cbn [length Nat.ltb Nat.leb app];
    match goal with
    | |- context [drop_socket ?s] =>
        destruct (drop_socket_keeps s) as (Dc & Dp & Dq & Dcu & Dso & Dst & Dr);
        assert (Db : resultBuffer (drop_socket s) = resultBuffer s)
          by (unfold drop_socket; destruct (socket s); reflexivity)
    end;
    cbn [set_current isChecking isPaused socket current queue statuses resultBuffer];
    rewrite Dc, Dp, Dso, Dq, Dst, Db; cbn; rewrite Fc, Fst, Fb, ?Fq, Hc, ?Hq;
    destruct jq; repeat split; reflexivity.
Qed.

(** X5. Pausing an active run and resuming it neither loses nor repeats a
    credential: the batch in flight and the queue together hold the same
    keys in the same order as before. When the flush of [pauseCheck]
    returns, the run is paused without socket and with the whole batch
    back at the head of the queue, and [resumeCheck] cuts the next batch
    from there. *)
Theorem pause_then_resume_keeps_the_keys st jq :
  isChecking st = true -> isPaused st = false -> queue st = Some jq ->
  let st1 := after (pauseCheck PROVIDERS) st in
  let st2 := after (resumeCheck PROVIDERS) st1 in
  in_flight st2 ++ waiting st2 = in_flight st ++ waiting st
  /\ (outcome (flushResultBuffer PROVIDERS) st = Ok tt ->
      isPaused st1 = true /\ socket st1 = None /\ in_flight st1 = []
      /\ waiting st1 = in_flight st ++ waiting st
      /\ statuses st1 = statuses st ++ [Paused]
      /\ isPaused st2 = false
      /\ in_flight st2 = take BATCH_SIZE (in_flight st ++ waiting st)
      /\ waiting st2 = drop BATCH_SIZE (in_flight st ++ waiting st)).
Proof.
  intros Hc Hp Hq st1 st2.
  pose proof (pauseCheck_run st jq Hc Hp Hq) as Hpause. cbv zeta in Hpause.
  fold st1 in Hpause.
  assert (Hw : waiting st = remainingKeys jq) by (unfold waiting; rewrite Hq; reflexivity).
  destruct (outcome (flushResultBuffer PROVIDERS) st) as [[]|e] eqn:Eflush.
  - destruct Hpause as (_ & P1 & P2 & P3 & P4 & P5 & P6 & P7).
    assert (Hresume :
      in_flight st2 = take BATCH_SIZE (in_flight st ++ waiting st)
      /\ waiting st2 = drop BATCH_SIZE (in_flight st ++ waiting st)
      /\ isPaused st2 = false).
    { subst st2. unfold after, resumeCheck. rewrite P1, P2. cbn [negb orb].
      unfold processNextBatch.
      cbn [isPaused _postStatus set_statuses set_isPaused set_reconnectAttempts queue].
      rewrite P5. cbn [remainingKeys]. rewrite Hw.
      destruct (in_flight st ++ remainingKeys jq) as [|k ks] eqn:Ek.
      - unfold finishCheck. rewrite bind_run, flushResultBuffer_empty by exact P7.
        rewrite take_nil, drop_nil. cbn. repeat split; reflexivity.
      - cbn. repeat split; reflexivity. }
    destruct Hresume as (R1 & R2 & R3).
    split; [rewrite R1, R2, take_drop; reflexivity|].
    intros _. unfold in_flight at 1, waiting at 1. rewrite P4, P5. cbn [remainingKeys].
    rewrite Hw in *. repeat split; first [assumption|reflexivity].
  - destruct Hpause as (_ & E1).
    assert (E2 : st2 = st1).
    { subst st2. unfold after at 1, resumeCheck.
      destruct (flushResultBuffer_keeps st) as (_ & Fp & _).
      rewrite E1, Fp, Hp, orb_true_r. reflexivity. }
    split; [|discriminate].
    rewrite E2, E1. unfold in_flight, waiting.
    destruct (flushResultBuffer_keeps st) as (_ & _ & Fq & Fcu & _).
    rewrite Fq, Fcu. reflexivity.
Qed.

(** C4. While a run is active and not paused, an abnormal close of the
    session is answered as follows. If fewer than three attempts have been
    made for the batch and the batch in flight is not empty, attempt N is
    counted and announced and a timer of N seconds is set, whose callback
    connects again with the batch in flight; nothing else changes. If three
    attempts have been made, or nothing is in flight, no timer and no
    socket is created and the failure is posted; the run is then stopped,
    unless the flush of the buffered results throws, which leaves the run
    on. [processNextBatch] puts the counter back to 0. Every result the
    page handles takes its credential out of the batch in flight, so that
    the socket of a reconnection carries exactly the credentials of the
    batch of which no handled result speaks; a result whose handling
    throws leaves the batch as it is. Hence, from a fresh batch, three
    closures in a row are each followed by a reconnection and the fourth
    is not. *)
Theorem onclose_reconnects_at_most_three_times st code :
  code <> 1000%Z -> isChecking st = true -> isPaused st = false ->
  let n := reconnectAttempts st in
  let st' := after (onclose PROVIDERS code) st in
  ((n < MAX_RECONNECT_ATTEMPTS)%nat -> in_flight st <> [] ->
   outcome (onclose PROVIDERS code) st = Ok tt
   /\ reconnectAttempts st' = S n /\ isChecking st' = true /\ isPaused st' = false
   /\ current st' = current st /\ queue st' = queue st /\ sockets st' = sockets st
   /\ statuses st' = statuses st ++ [Reconnecting (S n)]
   /\ timers st' = timers st ++ [{| timer_id := next_timer st;
                                    due := now st + 1000 * S n;
                                    timer_callback := CallReconnect |}]
   /\ in_flight (after reconnect st') = in_flight st
   /\ exists pc m,
       sockets (after reconnect st') = sockets st ++ [new_WebSocket pc (in_flight st) m])
  /\ ((MAX_RECONNECT_ATTEMPTS <= n)%nat \/ in_flight st = [] ->
      length (sockets st') = length (sockets st)
      /\ next_timer st' = next_timer st
      /\ match outcome (flushResultBuffer PROVIDERS) st with
         | Ok _ =>
             isChecking st' = false /\ queue st' = None /\ current st' = None
             /\ socket st' = None
             /\ statuses st' = statuses st ++ [ReconnectFailed; Stopped]
             /\ after reconnect st' = st'
         | Throw _ =>
             isChecking st' = true
             /\ statuses st' = statuses st ++ [ReconnectFailed]
             /\ resultBuffer st' = []
             /\ results st' = results st
         end)
  /\ reconnectAttempts (after (processNextBatch PROVIDERS) st) = 0
  /\ (forall ds,
      let st1 := deliver_results PROVIDERS ds st in
      let unresolved :=
        filter (without_result (handled_results PROVIDERS ds st)) (in_flight st) in
      isChecking st1 = true /\ isPaused st1 = false /\ reconnectAttempts st1 = n
      /\ in_flight st1 = unresolved
      /\ ((n < MAX_RECONNECT_ATTEMPTS)%nat -> unresolved <> [] ->
          exists pc m,
            sockets (after reconnect (after (onclose PROVIDERS code) st1))
            = sockets st ++ [new_WebSocket pc unresolved m]))
  /\ (forall d e,
      outcome (onmessage PROVIDERS (ResultMessage d)) st = Throw e ->
      in_flight (after (onmessage PROVIDERS (ResultMessage d)) st) = in_flight st)
  /\ (forall c2 c3 c4,
      n = 0 -> in_flight st <> [] ->
      c2 <> 1000%Z -> c3 <> 1000%Z -> c4 <> 1000%Z ->
      let s1 := after reconnect (after (onclose PROVIDERS code) st) in
      let s2 := after reconnect (after (onclose PROVIDERS c2) s1) in
      let s3 := after reconnect (after (onclose PROVIDERS c3) s2) in
      let s4 := after (onclose PROVIDERS c4) s3 in
      isChecking s3 = true /\ reconnectAttempts s3 = 3
      /\ in_flight s3 = in_flight st
      /\ length (sockets s3) = length (sockets st) + 3
      /\ length (sockets s4) = length (sockets s3)
      /\ next_timer s4 = next_timer s3
      /\ match outcome (flushResultBuffer PROVIDERS) st with
         | Ok _ =>
             isChecking s4 = false
             /\ exists older, statuses s4 = older ++ [ReconnectFailed; Stopped]
         | Throw _ =>
             isChecking s4 = true
             /\ exists older, statuses s4 = older ++ [ReconnectFailed]
         end).
Proof.
  intros Hcode Hc Hp n st'. split; [|split; [|split; [|split; [|split]]]].
  - intros Hn Hb.
    destruct (close_then_reconnect st code Hcode Hc Hp Hn Hb)
      as (_ & _ & _ & Hfl & _ & _ & _ & _ & _ & Hso).
    subst st'. unfold after, outcome in *.
    rewrite (onclose_schedules st code Hcode Hc Hp Hn Hb) in *.
    cbn. rewrite Hc, Hp. repeat split; auto.
  - intros Hn.
    destruct (onclose_aborts st code Hcode Hc Hp Hn) as (Hl & Ht & Hm). fold st' in Hl, Ht, Hm.
    split; [exact Hl|]. split; [exact Ht|].
    destruct (outcome (flushResultBuffer PROVIDERS) st) as [[]|e].
    + destruct Hm as (_ & Sc & Sq & Scu & Sso & Sst). repeat split; auto.
      unfold after, reconnect. rewrite Sc. reflexivity.
    + destruct Hm as (_ & Sc & Sst & Sb & Sr). repeat split; auto.
  - unfold after, processNextBatch. rewrite Hp.
    destruct (flushResultBuffer_keeps (set_reconnectAttempts 0 st))
      as (_ & _ & _ & _ & _ & _ & _ & Hr & _).
    assert (Hfin : reconnectAttempts (snd (finishCheck PROVIDERS (set_reconnectAttempts 0 st)))
                   = 0).
    { unfold finishCheck. rewrite bind_run. unfold after in Hr.
      destruct (flushResultBuffer PROVIDERS (set_reconnectAttempts 0 st))
        as [[[]|e] st1]; cbn in *; exact Hr. }
    destruct (queue (set_reconnectAttempts 0 st)) as [jq|] eqn:Eq; [|exact Hfin].
    destruct (remainingKeys jq); [exact Hfin|reflexivity].
  - intros ds st1 unresolved.
    destruct (deliver_results_batch ds st) as (A & B & G & E & Hb).
    fold st1 unresolved in A, B, G, E, Hb. rewrite Hc in A. rewrite Hp in B.
    split; [exact A|]. split; [exact B|]. split; [exact G|]. split; [exact Hb|].
    intros Hn Hne.
    destruct (close_then_reconnect st1 code Hcode A B)
      as (_ & _ & _ & _ & _ & _ & _ & _ & _ & pc & m & Hso);
      [rewrite G; exact Hn|rewrite Hb; exact Hne|].
    exists pc, m. rewrite Hso, E, Hb. reflexivity.
  - intros d e He.
    destruct (onmessage_result d st) as (_ & _ & _ & _ & _ & _ & _ & _ & _ & Hb).
    rewrite He in Hb. unfold in_flight. rewrite Hb. reflexivity.
  - intros c2 c3 c4 Hn0 Hb H2 H3 H4 s1 s2 s3 s4. subst n.
    destruct (close_then_reconnect st code Hcode Hc Hp)
      as (C1 & P1 & R1 & F1 & _ & _ & B1 & G1 & _ & pc1 & m1 & S1);
      [rewrite Hn0; unfold MAX_RECONNECT_ATTEMPTS; lia | exact Hb |].
    fold s1 in C1, P1, R1, F1, B1, G1, S1.
    destruct (close_then_reconnect s1 c2 H2 C1 P1)
      as (C2 & P2 & R2 & F2 & _ & _ & B2 & G2 & _ & pc2 & m2 & S2);
      [rewrite R1, Hn0; unfold MAX_RECONNECT_ATTEMPTS; lia | rewrite F1; exact Hb |].
    fold s2 in C2, P2, R2, F2, B2, G2, S2.
    destruct (close_then_reconnect s2 c3 H3 C2 P2)
      as (C3 & P3 & R3 & F3 & _ & _ & B3 & G3 & _ & pc3 & m3 & S3);
      [rewrite R2, R1, Hn0; unfold MAX_RECONNECT_ATTEMPTS; lia
      | rewrite F2, F1; exact Hb |].
    fold s3 in C3, P3, R3, F3, B3, G3, S3.
    destruct (onclose_aborts s3 c4 H4 C3 P3) as (Hl & Ht & Hm).
    { left. rewrite R3, R2, R1, Hn0. unfold MAX_RECONNECT_ATTEMPTS. lia. }
    fold s4 in Hl, Ht, Hm.
    assert (Hsame : outcome (flushResultBuffer PROVIDERS) s3
                    = outcome (flushResultBuffer PROVIDERS) st).
    { rewrite !flushResultBuffer_outcome, B3, B2, B1, G3, G2, G1. reflexivity. }
    rewrite Hsame in Hm.
    split; [exact C3|]. split; [rewrite R3, R2, R1, Hn0; reflexivity|].
    split; [rewrite F3, F2, F1; reflexivity|].
    split; [rewrite S3, S2, S1, !length_app; cbn; lia|].
    split; [exact Hl|]. split; [exact Ht|].
    destruct (outcome (flushResultBuffer PROVIDERS) st) as [[]|e].
    + destruct Hm as (_ & Sc & _ & _ & _ & Sst). split; [exact Sc|].
      exists (statuses s3). exact Sst.
    + destruct Hm as (_ & Sc & Sst & _). split; [exact Sc|].
      exists (statuses s3). exact Sst.
Qed.

End Stores.

(** C4, as worded, fails: after the only result of a batch has arrived and
    before the done message, the first abnormal close of an active run
    does not reconnect; it aborts the run. *)
Lemma first_abnormal_close_can_abort :
  let before := run Sample.providers Sample.result_before_close (Sample.page "k1") in
  let after := before ≫= step Sample.providers (Closed 0 1006) in
  isChecking <$> before = Some true
  /\ isPaused <$> before = Some false
  /\ reconnectAttempts <$> before = Some 0
  /\ isChecking <$> after = Some false
  /\ reconnect_timers <$> after = Some []
  /\ statuses <$> after
     = Some [Starting 1; Processing 1 1; ReconnectFailed; Stopped].
Proof. vm_compute. repeat split; reflexivity. Qed.


(** C1. A run over the single key k1 in which the connection drops and the
    user pauses and resumes before the timer of the reconnection fires:
    the timer then opens a second session for the batch of the resumed
    run, both sessions report k1, and the run finishes, never stopped,
    with two stored results for one key. *)
Lemma stale_reconnect_stores_a_second_result :
  let final := run Sample.providers Sample.stale_reconnect (Sample.page "k1") in
  tokensRaw_of "k1" = ["k1"]
  /\ isChecking <$> final = Some false
  /\ (fun st => existsb is_stopped (statuses st)) <$> final = Some false
  /\ stored <$> final = Some 2
  /\ (fun st => map item_order (results st valid)) <$> final = Some [vnum 0; vnum 0]
  /\ (fun st => last (statuses st)) <$> final = Some (Some (Finished [(valid, 2)])).
Proof. vm_compute. repeat split; reflexivity. Qed.

Lemma onclose_reconnects_at_most_three_times_witness :
  reconnectAttempts (after (onclose Sample.providers 1006) Sample.two_keys_started) = 1
  /\ isChecking (after (onclose Sample.providers 1006) Sample.two_keys_started) = true
  /\ exists pc m,
      sockets (after reconnect
                 (after (onclose Sample.providers 1006)
                    (deliver_results Sample.providers [Sample.first_result]
                       Sample.two_keys_started)))
      = sockets Sample.two_keys_started
        ++ [new_WebSocket pc [{| token := "k2"; order := 1 |}] m].
Proof.
  pose proof (onclose_reconnects_at_most_three_times Sample.providers
                Sample.two_keys_started 1006
                ltac:(discriminate) eq_refl eq_refl) as (Hretry & _ & _ & Hres & _).
  destruct Hretry as (_ & Hn & Hc & _).
  - vm_compute. lia.
  - vm_compute. discriminate.
  - split; [exact Hn|]. split; [exact Hc|].
    destruct (Hres [Sample.first_result]) as (_ & _ & _ & _ & Hso).
    destruct Hso as (pc & m & Hso).
    + vm_compute. lia.
    + vm_compute. discriminate.
    + exists pc, m. exact Hso.
Defined.

Lemma buffered_results_have_a_flush_pending_witness :
  resultBuffer Sample.result_buffered <> []
  /\ exists t,
      t ∈ timers Sample.result_buffered /\ timer_callback t = CallFlush
      /\ due t <= now Sample.result_buffered + BUFFER_FLUSH_INTERVAL
      /\ flushTimerId Sample.result_buffered = Some (timer_id t).
Proof.
  assert (Hinit : buffer_inv (Sample.page "k1")) by apply initial_buffer_inv.
  assert (Hrun : run Sample.providers Sample.result_before_close (Sample.page "k1")
                 = Some Sample.result_buffered) by (vm_compute; reflexivity).
  pose proof (buffered_results_have_a_flush_pending Sample.providers
                Sample.result_before_close (Sample.page "k1") Sample.result_buffered
                Hinit Hrun) as [_ Hflush].
  assert (Hne : resultBuffer Sample.result_buffered <> []) by (vm_compute; discriminate).
  split; [exact Hne|exact (Hflush Hne)].
Defined.

Lemma pause_then_resume_keeps_the_keys_witness :
  in_flight (after (resumeCheck Sample.providers)
               (after (pauseCheck Sample.providers) Sample.two_keys_started))
  = [{| token := "k1"; order := 0 |}; {| token := "k2"; order := 1 |}].
Proof.
  pose proof (proj2 (pause_then_resume_keeps_the_keys Sample.providers
                       Sample.two_keys_started _ eq_refl eq_refl eq_refl) eq_refl)
    as (_ & _ & _ & _ & _ & _ & Hfl & _).
  exact Hfl.
Defined.

Lemma startCheck_deduplicates_witness :
  results (after (startCheck Sample.providers) (Sample.page "k1,k1,k2")) duplicate
  = [{| item_id := "k1-1";
        item_token := VStr "k1";
        item_displayText := message_span "k1" "重复";
        item_balance := VUndefined;
        item_order := vnum 1;
        item_details := None |}].
Proof.
  refine (proj2 (proj2 (proj2
            (startCheck_deduplicates Sample.providers (Sample.page "k1,k1,k2") _ _)))
            eq_refl).
  - discriminate.
  - vm_compute. discriminate.
Defined.

Lemma startCheck_ceiling_witness :
  isChecking (after (startCheck Sample.providers)
                (Sample.page (Sample.repeated 50000 "k"))) = true
  /\ queue (after (startCheck Sample.providers)
              (Sample.page (Sample.repeated 50001 "k"))) = None.
Proof.
  split.
  - refine (proj1 (proj1 (startCheck_ceiling Sample.providers
                            (Sample.page (Sample.repeated 50000 "k"))) _)).
    vm_compute. reflexivity.
  - refine (proj1 (proj2 (proj2 (proj2 (startCheck_ceiling Sample.providers
                            (Sample.page (Sample.repeated 50001 "k"))) _)))).
    vm_compute. reflexivity.
Defined.


End StoreFacts.
